(** * tcp_print2file: the accept-serve loop and its signal handler

    A shallow embedding of [tcp_print2file.c].  The program is a daemon that
    accepts one TCP client at a time and copies what the client sends into a
    file.  Almost every statement of its main loop is a system call, so the
    embedding is a labelled transition system: a state holds the program
    point, the program's variables and the part of the operating system the
    program can observe (descriptor table, file system, clock, [errno]); an
    event carries the outcome the kernel chose for the call at that point,
    and a signal may arrive between any two statements.

    The loop of [main] (lines 175-212) and [sig_handler] (lines 49-63) are
    embedded statement by statement.  The start of [main] (lines 141-173:
    [daemonize], [getaddrinfo], [socket], [bind], [listen]) is not: the
    machine starts in the state in which a successful start leaves the
    process, with [t] holding the time read at line 138.  *)

From Stdlib Require Import ZArith String Ascii List Lia.
From Stdlib.Strings Require Import Byte.
From stdpp Require Import base option list gmap strings pretty.

Open Scope Z_scope.

(** ** Constants of the source *)

Definition LISTEN_ADDR : string := "127.0.0.1".
Definition LISTEN_PORT : string := "12345".
Definition BACKLOG : Z := 4.
Definition BUFSIZE : Z := 512.
Definition PRINTOUT_PREFIX : string := "/usb/tcp_fileprinter/".

(** ** Constants of the system headers (their Linux values) *)

Definition O_WRONLY : Z := 1.
Definition O_RDWR : Z := 2.
Definition O_ACCMODE : Z := 3.
Definition O_CREAT : Z := 64.
Definition O_EXCL : Z := 128.
Definition O_TRUNC : Z := 512.
Definition O_APPEND : Z := 1024.
Definition S_IRUSR : Z := 256.
Definition S_IWUSR : Z := 128.
Definition F_OK : Z := 0.
Definition SIGHUP : Z := 1.
Definition SIGINT : Z := 2.
Definition SIGTERM : Z := 15.
Definition SIGTSTP : Z := 20.
Definition SIGTTIN : Z := 21.
Definition SIGTTOU : Z := 22.
Definition EXIT_SUCCESS : Z := 0.
Definition ENOENT : Z := 2.
Definition EBADF : Z := 9.
Definition EEXIST : Z := 17.
Definition RAND_MAX : Z := 2147483647.
Definition INT_MAX : Z := 2147483647.
Definition INT_MIN : Z := -2147483648.

Inductive priority := LOG_ERR | LOG_WARNING | LOG_NOTICE | LOG_INFO.

(** [has_flag flags f]: the C test [flags & f]. *)
Definition has_flag (flags f : Z) : bool := negb (Z.land flags f =? 0).

(** ** Formatted output *)

(** An argument of a printf-style call.  [AErrno e] stands for
    [strerror(e)], whose text belongs to the C library. *)
Inductive arg :=
| AStr (s : string)
| AInt (n : Z)
| AErrno (e : Z).

Definition render (a : arg) : string :=
  match a with
  | AStr s => s
  | AInt n => pretty n
  | AErrno e => "errno " +:+ pretty e
  end.

(** The conversions the program uses: [%s], [%i], [%d]; every conversion
    takes the next argument. *)
Fixpoint format (fmt : string) (args : list arg) : string :=
  match fmt with
  | EmptyString => EmptyString
  | String c rest =>
      if Ascii.eqb c "%" then
        match rest with
        | EmptyString => String c EmptyString
        | String _ rest' =>
            match args with
            | [] => format rest' []
            | a :: args' => render a +:+ format rest' args'
            end
        end
      else String c (format rest args)
  end.

(** [snprintf(buf, size, fmt, ...)]: at most [size - 1] characters are
    stored. *)
Definition snprintf (size : nat) (fmt : string) (args : list arg) : string :=
  String.substring 0 (size - 1) (format fmt args).

(** ** Broken-down time *)

Record tm := Tm {
  tm_sec : Z; tm_min : Z; tm_hour : Z;
  tm_mday : Z; tm_mon : Z; tm_year : Z
}.

(** Two-digit, zero-padded decimal, as [%d], [%m], [%H], [%M], [%S] print. *)
Definition pad2 (n : Z) : string :=
  if (0 <=? n) && (n <? 10) then "0" +:+ pretty n else pretty n.

Definition conversion (c : ascii) (x : tm) : string :=
  let hms := pad2 (tm_hour x) +:+ ":" +:+ pad2 (tm_min x) +:+ ":" +:+ pad2 (tm_sec x) in
  if Ascii.eqb c "d" then pad2 (tm_mday x)
  else if Ascii.eqb c "m" then pad2 (tm_mon x + 1)
  else if Ascii.eqb c "Y" then pretty (tm_year x + 1900)
  else if Ascii.eqb c "H" then pad2 (tm_hour x)
  else if Ascii.eqb c "M" then pad2 (tm_min x)
  else if Ascii.eqb c "S" then pad2 (tm_sec x)
  else if Ascii.eqb c "T" then hms
  else String c EmptyString.

Fixpoint expand (fmt : string) (x : tm) : string :=
  match fmt with
  | EmptyString => EmptyString
  | String c rest =>
      if Ascii.eqb c "%" then
        match rest with
        | EmptyString => String c EmptyString
        | String k rest' => conversion k x +:+ expand rest' x
        end
      else String c (expand rest x)
  end.

(** [strftime(buf, maxsize, fmt, tm)]: the number of characters stored, or
    0 (here [None]) when the text and its terminating NUL do not fit. *)
Definition strftime (maxsize : nat) (fmt : string) (x : tm) : option string :=
  let s := expand fmt x in
  if bool_decide (String.length s + 1 ≤ maxsize)%nat && negb (String.eqb s "")
  then Some s else None.

(** A [localtime] for the UTC zone, used to run the model on concrete
    clock values: civil date from the day number, [NULL] when the year does
    not fit [int]. *)
Definition civil_from_days (z : Z) : Z * Z * Z :=
  let z := z + 719468 in
  let era := z / 146097 in
  let doe := z - era * 146097 in
  let yoe := (doe - doe / 1460 + doe / 36524 - doe / 146096) / 365 in
  let doy := doe - (365 * yoe + yoe / 4 - yoe / 100) in
  let mp := (5 * doy + 2) / 153 in
  let d := doy - (153 * mp + 2) / 5 + 1 in
  let m := if mp <? 10 then mp + 3 else mp - 9 in
  let y := yoe + era * 400 in
  (if m <=? 2 then y + 1 else y, m, d).

Definition utc_localtime (t : Z) : option tm :=
  let '(y, m, d) := civil_from_days (t / 86400) in
  let r := t mod 86400 in
  if (INT_MIN <=? y - 1900) && (y - 1900 <=? INT_MAX) then
    Some {| tm_sec := r mod 60; tm_min := (r / 60) mod 60; tm_hour := r / 3600;
            tm_mday := d; tm_mon := m - 1; tm_year := y - 1900 |}
  else None.

(** ** The operating system, as far as the program observes it

    Descriptors, files and the clock follow POSIX as far as the program can
    tell the difference: the kernel hands out any unused descriptor; [read]
    on a socket returns any non-empty prefix of the pending bytes, 0 at end
    of stream, or an error; [write] stores any prefix of the buffer or
    fails; [open] and [accept] succeed or fail as the environment decides;
    [close] releases the descriptor even when it reports an error.  Nothing
    but the program changes the directory: files are not removed behind its
    back, and [access] fails only for a name that does not exist.  *)

(** What a descriptor refers to.  A connected socket carries the bytes its
    peer sends before closing the connection and that have not been read
    yet; an open file carries its path, its offset and its open flags. *)
Inductive handle :=
| HListen
| HSock (inbound : list byte)
| HFile (path : string) (off : nat) (flags : Z).

(** The outcome of a call: the value returned, or [-1] with [errno] set. *)
Inductive ret :=
| Ok (v : Z)
| Err (e : Z).


(** The calls the program issues, recorded in the order issued. *)
Inductive call :=
| CSyslog (p : priority) (fmt : string) (args : list arg)
| CSync
| CAccept (sock : Z) (res : Z)
| CRand (res : Z)
| CAccess (path : string) (mode : Z) (res : Z)
| COpen (path : string) (flags mode : Z) (res : Z)
| CRead (d : Z) (count : Z) (res : Z)
| CWrite (d : Z) (buf : list byte) (res : Z)
| CClose (d : Z) (res : Z)
| CExit (status : Z).

Record world := World {
  fds : gmap Z handle;               (* open descriptors *)
  files : gmap string (list byte);   (* file contents, as seen through the cache *)
  disk : gmap string (list byte);    (* file contents on stable storage *)
  clock : Z;                         (* wall-clock time, seconds since the epoch *)
  errno : Z;
  calls : list call
}.

Definition set_fds (f : gmap Z handle) (w : world) : world :=
  World f (files w) (disk w) (clock w) (errno w) (calls w).
Definition set_files (f : gmap string (list byte)) (w : world) : world :=
  World (fds w) f (disk w) (clock w) (errno w) (calls w).
Definition set_disk (f : gmap string (list byte)) (w : world) : world :=
  World (fds w) (files w) f (clock w) (errno w) (calls w).
Definition set_clock (c : Z) (w : world) : world :=
  World (fds w) (files w) (disk w) c (errno w) (calls w).
Definition set_errno (e : Z) (w : world) : world :=
  World (fds w) (files w) (disk w) (clock w) e (calls w).
Definition log_call (c : call) (w : world) : world :=
  World (fds w) (files w) (disk w) (clock w) (errno w) (calls w ++ [c]).

(** The kernel may hand out any descriptor number that is not in use. *)
Definition unused (d : Z) (w : world) : bool :=
  (0 <=? d) && match fds w !! d with None => true | Some _ => false end.

Definition writable (flags : Z) : bool :=
  (Z.land flags O_ACCMODE =? O_WRONLY) || (Z.land flags O_ACCMODE =? O_RDWR).

(** Storing [data] at offset [off] of a file holding [old]: bytes before
    [off] and bytes after the stored region are kept; a gap is zero-filled. *)
Definition write_at (off : nat) (data old : list byte) : list byte :=
  take off old ++ replicate (off - length old) x00 ++ data
    ++ drop (off + length data) old.

Definition syslog (p : priority) (fmt : string) (args : list arg) (w : world) : world :=
  log_call (CSyslog p fmt args) w.

Definition sys_sync (w : world) : world :=
  log_call CSync (set_disk (files w) w).

(** [accept(sock, NULL, NULL)].  [None]: the kernel cannot answer [r] in [w]. *)
Definition sys_accept (sock : Z) (r : ret) (inbound : list byte) (w : world)
  : option (Z * world) :=
  match r with
  | Err e => Some (-1, log_call (CAccept sock (-1)) (set_errno e w))
  | Ok d =>
      match fds w !! sock with
      | Some HListen =>
          if unused d w
          then Some (d, log_call (CAccept sock d)
                          (set_fds (<[d := HSock inbound]> (fds w)) w))
          else None
      | _ => None
      end
  end.

(** [access(path, F_OK)]: 0 when the file exists, otherwise -1 with
    [ENOENT]. *)
Definition sys_access (path : string) (mode : Z) (w : world) : Z * world :=
  match files w !! path with
  | Some _ => (0, log_call (CAccess path mode 0) w)
  | None => (-1, log_call (CAccess path mode (-1)) (set_errno ENOENT w))
  end.

(** [open(path, flags, mode)].  The new offset is 0; the contents of an
    existing file are cleared only under [O_TRUNC]. *)
Definition sys_open (path : string) (flags mode : Z) (r : ret) (w : world)
  : option (Z * world) :=
  match r with
  | Err e => Some (-1, log_call (COpen path flags mode (-1)) (set_errno e w))
  | Ok d =>
      if unused d w then
        match files w !! path with
        | Some old =>
            if has_flag flags O_CREAT && has_flag flags O_EXCL then None
            else
              let content := if has_flag flags O_TRUNC then [] else old in
              Some (d, log_call (COpen path flags mode d)
                         (set_files (<[path := content]> (files w))
                            (set_fds (<[d := HFile path 0 flags]> (fds w)) w)))
        | None =>
            if has_flag flags O_CREAT then
              Some (d, log_call (COpen path flags mode d)
                         (set_files (<[path := []]> (files w))
                            (set_fds (<[d := HFile path 0 flags]> (fds w)) w)))
            else None
        end
      else None
  end.

(** [read(d, buf, count)] on a connected socket: some non-empty prefix of
    the pending bytes, at most [count] of them; 0 only when the peer has
    closed and nothing is pending.  The result is the value returned and
    the bytes stored at the start of [buf]. *)
Definition sys_read (d count : Z) (r : ret) (w : world)
  : option (Z * list byte * world) :=
  match r with
  | Err e => Some (-1, [], log_call (CRead d count (-1)) (set_errno e w))
  | Ok n =>
      match fds w !! d with
      | Some (HSock inbound) =>
          if (0 <=? n) && (n <=? count) && (n <=? Z.of_nat (length inbound))
             && ((0 <? n) || match inbound with [] => true | _ => false end)
          then
            let k := Z.to_nat n in
            Some (n, take k inbound,
                  log_call (CRead d count n)
                    (set_fds (<[d := HSock (drop k inbound)]> (fds w)) w))
          else None
      | _ => None
      end
  end.

(** [write(d, buf, |buf|)] on a file: the kernel stores the first [n]
    bytes, for any [n] up to the count asked for, or fails. *)
Definition sys_write (d : Z) (buf : list byte) (r : ret) (w : world)
  : option (Z * world) :=
  match r with
  | Err e => Some (-1, log_call (CWrite d buf (-1)) (set_errno e w))
  | Ok n =>
      match fds w !! d with
      | Some (HFile path off flags) =>
          if writable flags && (0 <=? n) && (n <=? Z.of_nat (length buf)) then
            let old := default [] (files w !! path) in
            let at_off := if has_flag flags O_APPEND then length old else off in
            let data := take (Z.to_nat n) buf in
            Some (n, log_call (CWrite d buf n)
                       (set_files (<[path := write_at at_off data old]> (files w))
                          (set_fds (<[d := HFile path (at_off + length data) flags]> (fds w)) w)))
          else None
      | _ => None
      end
  end.

(** [close(d)]: [EBADF] when [d] is not open; otherwise the descriptor is
    released, also when the call reports the error [fault]. *)
Definition sys_close (d : Z) (fault : option Z) (w : world) : Z * world :=
  match fds w !! d with
  | None => (-1, log_call (CClose d (-1)) (set_errno EBADF w))
  | Some _ =>
      let w' := set_fds (delete d (fds w)) w in
      match fault with
      | Some e => (-1, log_call (CClose d (-1)) (set_errno e w'))
      | None => (0, log_call (CClose d 0) w')
      end
  end.

(** ** The program *)

(** Program points of the accept-serve loop, named after the source line of
    the statement executed next.  [Lexit status]: the process has called
    [exit(status)]. *)
Inductive label :=
| L177      (* client = accept(sd, NULL, NULL) *)
| L182      (* syslog; client_connected = 1 *)
| L185      (* tm = localtime(&t); strftime; snprintf *)
| L191      (* random = rand(); snprintf *)
| L193      (* while (access(filename, F_OK) != -1) *)
| L196      (* syslog; fd = open(filename, ...) *)
| L202      (* fd_open = 1; bytes_read = 0 *)
| L204r     (* bytes_read = read(client, msg, BUFSIZE) *)
| L204w     (* write(fd, msg, bytes_read) *)
| L206      (* syslog; memset(msg, 0, BUFSIZE) *)
| L208      (* close(fd) *)
| L209      (* close(client) *)
| L210      (* fd_open = 0 *)
| L211      (* client_connected = 0 *)
| Lexit (status : Z).

(** The file-scope variables [fd], [sd], [client], [fd_open],
    [client_connected] and the variables of [main] that live across the
    loop. *)
Record vars := Vars {
  fd : Z; sd : Z; client : Z;
  fd_open : Z; client_connected : Z;
  msg : list byte;
  filename : string;
  bytes_read : Z;
  random : Z;
  t : Z
}.

Definition set_fd (v : Z) (m : vars) : vars :=
  Vars v (sd m) (client m) (fd_open m) (client_connected m) (msg m)
       (filename m) (bytes_read m) (random m) (t m).
Definition set_client (v : Z) (m : vars) : vars :=
  Vars (fd m) (sd m) v (fd_open m) (client_connected m) (msg m)
       (filename m) (bytes_read m) (random m) (t m).
Definition set_fd_open (v : Z) (m : vars) : vars :=
  Vars (fd m) (sd m) (client m) v (client_connected m) (msg m)
       (filename m) (bytes_read m) (random m) (t m).
Definition set_client_connected (v : Z) (m : vars) : vars :=
  Vars (fd m) (sd m) (client m) (fd_open m) v (msg m)
       (filename m) (bytes_read m) (random m) (t m).
Definition set_msg (v : list byte) (m : vars) : vars :=
  Vars (fd m) (sd m) (client m) (fd_open m) (client_connected m) v
       (filename m) (bytes_read m) (random m) (t m).
Definition set_filename (v : string) (m : vars) : vars :=
  Vars (fd m) (sd m) (client m) (fd_open m) (client_connected m) (msg m)
       v (bytes_read m) (random m) (t m).
Definition set_bytes_read (v : Z) (m : vars) : vars :=
  Vars (fd m) (sd m) (client m) (fd_open m) (client_connected m) (msg m)
       (filename m) v (random m) (t m).
Definition set_random (v : Z) (m : vars) : vars :=
  Vars (fd m) (sd m) (client m) (fd_open m) (client_connected m) (msg m)
       (filename m) (bytes_read m) v (t m).

Record state := State { pc : label; mem : vars; os : world }.

(** What the environment does between or during two statements. *)
Inductive event :=
| ETau                                        (* a statement without outside choice *)
| ETick (dt : Z)                              (* time passes *)
| EAccept (r : ret) (inbound : list byte)     (* accept returns; the peer will send [inbound] *)
| ERand (r : Z)                               (* rand returns *)
| EOpen (r : ret)                             (* open returns *)
| ERead (r : ret)                             (* read returns *)
| EWrite (r : ret)                            (* write returns *)
| EClose (fault : option Z)                   (* close returns *)
| ESignal (signum : Z) (f_client f_fd f_sd : option Z).
                                              (* a signal is delivered; the faults are
                                                 those of the handler's three closes *)

(** [sig_handler], lines 49-63. *)
Definition sig_handler (signum : Z) (f_client f_fd f_sd : option Z)
    (m : vars) (w : world) : state :=
  let w := syslog LOG_NOTICE
             "received signal %d, will close all open file descriptors and exit\n"
             [AInt signum] w in
  let w := sys_sync w in
  let w :=
    if client_connected m =? 0 then w
    else
      let rw := sys_close (client m) f_client w in
      if rw.1 =? -1
      then syslog LOG_WARNING "signal handler: error closing client socket: %s\n"
             [AErrno (errno rw.2)] rw.2
      else rw.2 in
  let w :=
    if fd_open m =? 0 then w
    else
      let rw := sys_close (fd m) f_fd w in
      if rw.1 =? -1
      then syslog LOG_WARNING "signal handler: error closing fd: %s\n"
             [AErrno (errno rw.2)] rw.2
      else rw.2 in
  let w :=
    let rw := sys_close (sd m) f_sd w in
    if rw.1 =? -1
    then syslog LOG_WARNING "signal handler: error closing socket: %s\n"
           [AErrno (errno rw.2)] rw.2
    else rw.2 in
  State (Lexit EXIT_SUCCESS) m (log_call (CExit EXIT_SUCCESS) w).

(** [install_sighandlers], lines 69-91: the signals given to [sig_handler]
    and the signals ignored. *)
Definition signals : list Z := [SIGHUP; SIGINT; SIGTERM].
Definition signals_ignore : list Z := [SIGTSTP; SIGTTIN; SIGTTOU].

Definition member (x : Z) (l : list Z) : bool := existsb (Z.eqb x) l.

Definition running (l : label) : bool :=
  match l with Lexit _ => false | _ => true end.

Section Machine.

(** [localtime] depends on the time zone data of the host: a parameter. *)
Variable localtime : Z -> option tm.

(** Lines 185-189: the time stamp of [t], when there is one. *)
Definition timestamp_of (m : vars) : option string :=
  match localtime (t m) with
  | Some x => strftime 22 "%d.%m.%Y-%T" x
  | None => None
  end.

(** One statement of [main]'s loop, lines 175-212. *)
Definition main_step (l : label) (m : vars) (w : world) (e : event) : option state :=
  match l, e with
  | L177, EAccept r inbound =>
      match sys_accept (sd m) r inbound w with
      | Some (v, w) =>
          let m := set_client v m in
          if v =? -1
          then Some (State L177 m
                       (syslog LOG_WARNING "error on accept(): %s\n" [AErrno (errno w)] w))
          else Some (State L182 m w)
      | None => None
      end
  | L182, ETau =>
      Some (State L185 (set_client_connected 1 m)
              (syslog LOG_INFO "accepted new print client" [] w))
  | L185, ETau =>
      match timestamp_of m with
      | Some timestamp =>
          Some (State L196
                  (set_filename
                     (snprintf 64 "%s%s" [AStr PRINTOUT_PREFIX; AStr timestamp]) m)
                  w)
      | None =>
          Some (State L191 m (syslog LOG_WARNING "error getting current time\n" [] w))
      end
  | L191, ERand r =>
      if (0 <=? r) && (r <=? RAND_MAX) then
        Some (State L193
                (set_filename
                   (snprintf 64 "%sfile-%i" [AStr PRINTOUT_PREFIX; AInt r])
                   (set_random r m))
                (log_call (CRand r) w))
      else None
  | L193, ETau =>
      let vw := sys_access (filename m) F_OK w in
      if vw.1 =? -1 then Some (State L196 m vw.2) else Some (State L191 m vw.2)
  | L196, EOpen r =>
      let w := syslog LOG_INFO "start printing to %s" [AStr (filename m)] w in
      match sys_open (filename m) (Z.lor O_CREAT O_WRONLY) (Z.lor S_IRUSR S_IWUSR) r w with
      | Some (v, w) =>
          let m := set_fd v m in
          if v =? -1
          then Some (State L177 m
                       (syslog LOG_WARNING "error opening printfile %s: %s"
                          [AStr (filename m); AErrno (errno w)] w))
          else Some (State L202 m w)
      | None => None
      end
  | L202, ETau =>
      Some (State L204r (set_bytes_read 0 (set_fd_open 1 m)) w)
  | L204r, ERead r =>
      match sys_read (client m) BUFSIZE r w with
      | Some (v, data, w) =>
          let m := set_bytes_read v (set_msg (data ++ drop (length data) (msg m)) m) in
          if 0 <? v then Some (State L204w m w) else Some (State L206 m w)
      | None => None
      end
  | L204w, EWrite r =>
      match sys_write (fd m) (take (Z.to_nat (bytes_read m)) (msg m)) r w with
      | Some (_, w) => Some (State L204r m w)
      | None => None
      end
  | L206, ETau =>
      Some (State L208 (set_msg (replicate (Z.to_nat BUFSIZE) x00) m)
              (syslog LOG_INFO "done printing to %s" [AStr (filename m)] w))
  | L208, EClose fault => Some (State L209 m (sys_close (fd m) fault w).2)
  | L209, EClose fault => Some (State L210 m (sys_close (client m) fault w).2)
  | L210, ETau => Some (State L211 (set_fd_open 0 m) w)
  | L211, ETau => Some (State L177 (set_client_connected 0 m) w)
  | _, _ => None
  end.

(** One transition of the process: time passes, a signal is delivered
    between two statements, or [main] executes its next statement.  A
    process that has exited makes no transition. *)
Definition step (s : state) (e : event) : option state :=
  if running (pc s) then
    match e with
    | ETick dt =>
        if 0 <=? dt
        then Some (State (pc s) (mem s) (set_clock (clock (os s) + dt) (os s)))
        else None
    | ESignal signum f_client f_fd f_sd =>
        if member signum signals
        then Some (sig_handler signum f_client f_fd f_sd (mem s) (os s))
        else if member signum signals_ignore then Some s
        else None
    | _ => main_step (pc s) (mem s) (os s) e
    end
  else None.

Fixpoint run (s : state) (evs : list event) : option state :=
  match evs with
  | [] => Some s
  | e :: evs' =>
      match step s e with
      | Some s' => run s' evs'
      | None => None
      end
  end.

(** The state on entering the loop (line 175), for a process started at
    time [t0] whose listening socket is the descriptor [lsock]: the static
    variables are zero, [msg] and [filename] are cleared, [t] holds the
    time read at line 138. *)
Definition entry_vars (t0 lsock : Z) : vars :=
  {| fd := 0; sd := lsock; client := 0; fd_open := 0; client_connected := 0;
     msg := replicate (Z.to_nat BUFSIZE) x00; filename := "";
     bytes_read := 0; random := 0; t := t0 |}.

Definition entry_world (t0 lsock : Z) (fs : gmap string (list byte)) : world :=
  {| fds := {[ lsock := HListen ]}; files := fs; disk := fs;
     clock := t0; errno := 0; calls := [] |}.

Definition entry (t0 lsock : Z) (fs : gmap string (list byte)) : state :=
  State L177 (entry_vars t0 lsock) (entry_world t0 lsock fs).

End Machine.

(** ** Vocabulary of the properties *)

(** The bytes the kernel stored through descriptor [d], in the order of the
    [write] calls. *)
Fixpoint stored (d : Z) (cs : list call) : list byte :=
  match cs with
  | [] => []
  | CWrite d' buf res :: cs' =>
      (if (d' =? d) && (0 <=? res) then take (Z.to_nat res) buf else [])
        ++ stored d cs'
  | _ :: cs' => stored d cs'
  end.

(** The events of a copy loop that ends with end-of-stream: each pair is the
    size a [read] returns and the outcome of the [write] that follows. *)
Definition copy_events (rw : list (Z * ret)) : list event :=
  flat_map (λ p, [ERead (Ok p.1); EWrite p.2]) rw ++ [ERead (Ok 0)].

(** Every [write] stores all the bytes of the [read] before it. *)
Definition full_writes (ns : list Z) : list (Z * ret) :=
  map (λ n, (n, Ok n)) ns.

(** The events of one job from [open] (line 197) to the end of the loop body
    (line 211): the file is opened as descriptor [d], the client closes
    cleanly after the reads [rw]. *)
Definition job_events (d : Z) (rw : list (Z * ret)) (f1 f2 : option Z) : list event :=
  EOpen (Ok d) :: ETau :: copy_events rw ++ [ETau; EClose f1; EClose f2; ETau; ETau].

(** [ns] cuts the byte sequence [S] into the sizes successive reads return. *)
Definition chunking (ns : list Z) (S : list byte) : Prop :=
  Forall (λ n, 0 < n ≤ BUFSIZE) ns ∧ Z.of_nat (length S) = foldr Z.add 0 ns.

Definition is_sock (h : handle) : bool :=
  match h with HSock _ => true | _ => false end.
Definition is_file (h : handle) : bool :=
  match h with HFile _ _ _ => true | _ => false end.

(** How many client sockets, and how many files, the process holds open. *)
Definition open_sockets (w : world) : nat :=
  length (List.filter (λ kv, is_sock kv.2) (map_to_list (fds w))).
Definition open_files (w : world) : nat :=
  length (List.filter (λ kv, is_file kv.2) (map_to_list (fds w))).

(** The calls of one guarded [close] of the signal handler: nothing when the
    flag is clear; the [close], and a warning when it failed. *)
Definition close_calls (flag d : Z) (res : ret) (fmt : string) : list call :=
  if flag =? 0 then []
  else match res with
       | Ok _ => [CClose d 0]
       | Err e => [CClose d (-1); CSyslog LOG_WARNING fmt [AErrno e]]
       end.

(** Descriptor [d] refers to [h], and none of the program's variables that
    are ever passed to [close] or [read] holds [d], except possibly [client]
    while the program waits in [accept]. *)
Definition out_of_reach (d : Z) (h : handle) (s : state) : Prop :=
  fds (os s) !! d = Some h ∧ 0 ≤ d ∧
  fd (mem s) ≠ d ∧ sd (mem s) ≠ d ∧
  (client (mem s) = d → pc s = L177).

(** The same, and [client] has been overwritten. *)
Definition lost (d : Z) (h : handle) (s : state) : Prop :=
  fds (os s) !! d = Some h ∧ 0 ≤ d ∧
  fd (mem s) ≠ d ∧ sd (mem s) ≠ d ∧ client (mem s) ≠ d.

(** The value and the [errno] of a [close] of an open descriptor. *)
Definition close_value (fault : option Z) : Z :=
  match fault with Some _ => -1 | None => 0 end.

Definition close_errno (fault : option Z) (w : world) : world :=
  match fault with Some e => set_errno e w | None => w end.

(** The name the fallback generator forms from the random number [r]. *)
Definition fallback_name (r : Z) : string :=
  PRINTOUT_PREFIX +:+ "file-" +:+ pretty r.

(** Program points at which [client] holds an accepted socket that has not
    been closed, at which [fd] holds the open output file, and at which
    [client_connected] has been set for the current client. *)
Definition holds_client (l : label) : bool :=
  match l with
  | L182 | L185 | L191 | L193 | L196 | L202 | L204r | L204w | L206 | L208 | L209 => true
  | _ => false
  end.
Definition holds_file (l : label) : bool :=
  match l with
  | L202 | L204r | L204w | L206 | L208 => true
  | _ => false
  end.
Definition flagged (l : label) : bool :=
  match l with
  | L185 | L191 | L193 | L196 | L202 | L204r | L204w | L206 | L208 | L209
  | L210 | L211 => true
  | _ => false
  end.

(** What holds of the handles in every state the running process reaches. *)
Definition well_formed (s : state) : Prop :=
  running (pc s) = true →
  fds (os s) !! sd (mem s) = Some HListen ∧
  (holds_client (pc s) = true →
   0 ≤ client (mem s) ∧
   ∃ S, fds (os s) !! client (mem s) = Some (HSock S)) ∧
  (holds_file (pc s) = true →
   is_Some (files (os s) !! filename (mem s)) ∧
   ∃ off, fds (os s) !! fd (mem s)
          = Some (HFile (filename (mem s)) off (Z.lor O_CREAT O_WRONLY))) ∧
  (flagged (pc s) = true → client_connected (mem s) = 1).

(** ** Concrete scenarios (UTC clock, listening socket 3, empty directory) *)

Definition hello : list byte := list_byte_of_string "HELLO".
Definition stamp0 : string := "/usb/tcp_fileprinter/01.01.1970-00:00:00".

(** A process started at the epoch. *)
Definition boot : state := entry 0 3 ∅.

(** The events from [accept] to line 196: a client that will send [S] is
    accepted as descriptor [d], the flag is set, the file name is chosen. *)
Definition to_open (d : Z) (S : list byte) : list event :=
  [EAccept (Ok d) S; ETau; ETau].

(** The state at line 196 of a first client that sends [S]. *)
Definition at_open (S : list byte) : state :=
  default boot (run utc_localtime boot (to_open 4 S)).

(** A process started when the clock is past the year 999999: [strftime]
    cannot fit the time stamp into 22 bytes. *)
Definition far_future : Z := 40000000000000.
Definition boot_late : state := entry far_future 3 ∅.

(** The same process, waiting at line 185 and at line 191 for its first
    client. *)
Definition late_at_stamp : state :=
  default boot_late (run utc_localtime boot_late [EAccept (Ok 4) hello; ETau]).
Definition late_at_rand : state :=
  default boot_late (run utc_localtime boot_late (to_open 4 hello)).

(** A process started at the epoch in a directory that already holds a file
    with the name of the epoch's time stamp. *)
Definition old_bytes : list byte := list_byte_of_string "OLD DATA".
Definition boot_old : state := entry 0 3 {[ stamp0 := old_bytes ]}.
Definition at_open_old (S : list byte) : state :=
  default boot_old (run utc_localtime boot_old (to_open 4 S)).

(** The first client's copy loop: about to read, and after one read and
    write of two bytes. *)
Definition at_copy : state :=
  default boot (run utc_localtime (at_open hello) [EOpen (Ok 5); ETau]).
Definition mid_transfer : state :=
  default boot (run utc_localtime at_copy [ERead (Ok 2); EWrite (Ok 2)]).

Arguments sys_accept : simpl never.
Arguments sys_access : simpl never.
Arguments sys_open : simpl never.
Arguments sys_read : simpl never.
Arguments sys_write : simpl never.
Arguments sys_close : simpl never.
Arguments snprintf : simpl never.
Arguments strftime : simpl never.
Arguments sig_handler : simpl never.

(** ** Vocabulary of further properties of the loop *)

(** The events of one whole pass through the loop body: a client that sends
    [S] is accepted as descriptor [d], the name is chosen from the time
    stamp, the file is opened as descriptor [d'], every write is complete,
    and the client closes cleanly. *)
Definition iteration_events (d d' : Z) (S : list byte) (ns : list Z)
    (f1 f2 : option Z) : list event :=
  to_open d S ++ job_events d' (full_writes ns) f1 f2.

(** The buffer as line 136 and line 207 leave it. *)
Definition zero_buffer : list byte := replicate (Z.to_nat BUFSIZE) x00.

(** Program points outside the copy loop of line 204 and the statement
    after it. *)
Definition outside_copy (l : label) : bool :=
  match l with
  | L204r | L204w | L206 | Lexit _ => false
  | _ => true
  end.

(** The buffer keeps its size, and outside the copy loop it holds zeros. *)
Definition buffer_clean (s : state) : Prop :=
  length (msg (mem s)) = Z.to_nat BUFSIZE ∧
  (outside_copy (pc s) = true → msg (mem s) = zero_buffer).

(** Every descriptor that refers to a file is [fd], the file is the one
    named [filename], and the program is between lines 202 and 208. *)
Definition one_file (s : state) : Prop :=
  running (pc s) = true →
  ∀ (d : Z) (p : string) (off : nat) (fl : Z),
    fds (os s) !! d = Some (HFile p off fl) →
    d = fd (mem s) ∧ p = filename (mem s) ∧ holds_file (pc s) = true.

(** Program points at which [fd_open] is set, and program points at which
    the descriptor in [fd] has been closed by line 208 and [fd] not yet
    assigned again by a later [open]. *)
Definition file_flagged (l : label) : bool :=
  match l with
  | L204r | L204w | L206 | L208 | L209 | L210 => true
  | _ => false
  end.
Definition file_closed (l : label) : bool :=
  match l with
  | L209 | L210 | L211 => true
  | _ => false
  end.

(** [fd_open] is set exactly from line 203 to line 210, although the file
    is open from line 197 to line 208 only. *)
Definition flag_window (s : state) : Prop :=
  running (pc s) = true →
  (fd_open (mem s) = if file_flagged (pc s) then 1 else 0) ∧
  (file_closed (pc s) = true → fds (os s) !! fd (mem s) = None).

(** The events of the fallback generator drawing the numbers [rs] in turn. *)
Definition draw_events (rs : list Z) : list event :=
  flat_map (λ r, [ERand r; ETau]) rs.

(** The file name a job gets from the time stamp [ts]. *)
Definition stamp_name (ts : string) : string := PRINTOUT_PREFIX +:+ ts.

(** [guarded flag f x]: the C statement [if (flag) x = f(x)]. *)
Definition guarded {A : Type} (flag : Z) (f : A → A) (x : A) : A :=
  if flag =? 0 then x else f x.

(** Program points at which [filename] has been assigned for the current
    job, and program points inside the fallback generator. *)
Definition named (l : label) : bool :=
  match l with
  | L193 | L196 | L202 | L204r | L204w | L206 | L208 | L209 | L210 | L211 => true
  | _ => false
  end.
Definition in_fallback (l : label) : bool :=
  match l with
  | L191 | L193 => true
  | _ => false
  end.

(** What [filename] can hold: nothing yet, the time stamp of [t] under the
    prefix, or the fallback name of the number in [random]; the fallback
    generator runs only when [t] has no time stamp. *)
Definition name_shape (localtime : Z → option tm) (s : state) : Prop :=
  (filename (mem s) = "" ∨
   (∃ ts, timestamp_of localtime (mem s) = Some ts ∧
          filename (mem s) = stamp_name ts) ∨
   (timestamp_of localtime (mem s) = None ∧
    0 ≤ random (mem s) ≤ RAND_MAX ∧
    filename (mem s) = fallback_name (random (mem s)))) ∧
  (named (pc s) = true → filename (mem s) ≠ "") ∧
  (in_fallback (pc s) = true → timestamp_of localtime (mem s) = None).

(** The text of a time stamp: day, month, year, hour, minute, second. *)
Definition stamp_text (x : tm) : string :=
  pad2 (tm_mday x) +:+ "." +:+ pad2 (tm_mon x + 1) +:+ "."
    +:+ pretty (tm_year x + 1900) +:+ "-"
    +:+ pad2 (tm_hour x) +:+ ":" +:+ pad2 (tm_min x) +:+ ":" +:+ pad2 (tm_sec x).

(** The fields of [x] other than the year are two-digit numbers, as
    [localtime] delivers them. *)
Definition two_digit_fields (x : tm) : Prop :=
  0 ≤ tm_sec x ≤ 60 ∧ 0 ≤ tm_min x ≤ 59 ∧ 0 ≤ tm_hour x ≤ 23 ∧
  1 ≤ tm_mday x ≤ 31 ∧ 0 ≤ tm_mon x ≤ 11.

(** ** Process start: [install_sighandlers], [daemonize], the start of [main] *)

(** Further constants of the system headers (their Linux values). *)
Definition EXIT_FAILURE : Z := 1.
Definition STDIN_FILENO : Z := 0.
Definition STDOUT_FILENO : Z := 1.
Definition STDERR_FILENO : Z := 2.
Definition SIGQUIT : Z := 3.
Definition SIGKILL : Z := 9.
Definition SIGSTOP : Z := 19.
Definition EINVAL : Z := 22.
Definition LOG_CONS : Z := 2.
Definition LOG_DAEMON : Z := 24.
Definition AI_NUMERICHOST : Z := 4.
Definition AI_NUMERICSERV : Z := 1024.
Definition AF_INET : Z := 2.
Definition SOCK_STREAM : Z := 1.

(** What a signal does to the process: the default action, nothing, or a
    call of [sig_handler]. *)
Inductive disposition := SIG_DFL | SIG_IGN | Run_sig_handler.

(** [struct sigaction], the fields the program sets. *)
Record sigaction_t := Sigaction {
  sa_handler : disposition;
  sa_mask : list Z;
  sa_flags : Z
}.

(** [struct addrinfo], the fields the program reads or sets; [ai_addr] is
    the address and the port it stands for. *)
Record addrinfo := Addrinfo {
  ai_flags : Z; ai_family : Z; ai_socktype : Z; ai_protocol : Z;
  ai_addr : string * string
}.

(** How far the server socket has been set up. *)
Inductive stage :=
| Created (family socktype protocol : Z)
| Bound (addr : string * string)
| Listening (addr : string * string) (backlog : Z).

(** The place of the process in its session: in the session it was started
    in, leader of the session [setsid] made, or member of that session
    without leading it. *)
Inductive session_role :=
| Inherited
| Leads (sid : Z)
| Member (sid : Z).

(** The child of a fork is in its parent's session and leads none. *)
Definition child_role (r : session_role) : session_role :=
  match r with
  | Leads sid => Member sid
  | _ => r
  end.

(** The calls of the start that are no calls of the loop. *)
Inductive pcall :=
| PTime (res : Z)
| PFprintf (stream : Z) (fmt : string) (args : list arg)
| PSigaction (signum : Z) (act : sigaction_t) (res : Z)
| PFork (res : Z)
| POpenlog (ident : string) (option facility : Z)
| PSetsid (res : Z)
| PChdir (path : string) (res : Z)
| PUmask (mask : Z)
| PGetaddrinfo (node service : string) (hints : addrinfo) (res : Z)
| PSocket (family socktype protocol res : Z)
| PBind (d : Z) (addr : string * string) (res : Z)
| PListen (d backlog res : Z)
| PExit (status : Z).

(** The process while it starts: the operating system as the loop sees it,
    the program's variables, and what only the start touches.  In [kern]
    the server socket appears as [HListen] from [socket] on; [stages] tells
    how far it is. *)
Record proc := Proc {
  kern : world;
  pmem : vars;
  dispositions : gmap Z disposition;     (* absent: as inherited *)
  stages : gmap Z stage;
  log_ident : option (string * Z * Z);   (* set by openlog *)
  session : session_role;
  cwd : string;
  mask : Z;
  pcalls : list pcall
}.

Definition set_kern (w : world) (p : proc) : proc :=
  Proc w (pmem p) (dispositions p) (stages p) (log_ident p) (session p)
       (cwd p) (mask p) (pcalls p).
Definition set_pmem (m : vars) (p : proc) : proc :=
  Proc (kern p) m (dispositions p) (stages p) (log_ident p) (session p)
       (cwd p) (mask p) (pcalls p).
Definition set_dispositions (d : gmap Z disposition) (p : proc) : proc :=
  Proc (kern p) (pmem p) d (stages p) (log_ident p) (session p)
       (cwd p) (mask p) (pcalls p).
Definition set_stages (st : gmap Z stage) (p : proc) : proc :=
  Proc (kern p) (pmem p) (dispositions p) st (log_ident p) (session p)
       (cwd p) (mask p) (pcalls p).
Definition set_log_ident (i : option (string * Z * Z)) (p : proc) : proc :=
  Proc (kern p) (pmem p) (dispositions p) (stages p) i (session p)
       (cwd p) (mask p) (pcalls p).
Definition set_session (b : session_role) (p : proc) : proc :=
  Proc (kern p) (pmem p) (dispositions p) (stages p) (log_ident p) b
       (cwd p) (mask p) (pcalls p).
Definition set_cwd (c : string) (p : proc) : proc :=
  Proc (kern p) (pmem p) (dispositions p) (stages p) (log_ident p) (session p)
       c (mask p) (pcalls p).
Definition set_mask (k : Z) (p : proc) : proc :=
  Proc (kern p) (pmem p) (dispositions p) (stages p) (log_ident p) (session p)
       (cwd p) k (pcalls p).
Definition note (c : pcall) (p : proc) : proc :=
  Proc (kern p) (pmem p) (dispositions p) (stages p) (log_ident p) (session p)
       (cwd p) (mask p) (pcalls p ++ [c]).

Definition set_sd (v : Z) (m : vars) : vars :=
  Vars (fd m) v (client m) (fd_open m) (client_connected m) (msg m)
       (filename m) (bytes_read m) (random m) (t m).
Definition set_t (v : Z) (m : vars) : vars :=
  Vars (fd m) (sd m) (client m) (fd_open m) (client_connected m) (msg m)
       (filename m) (bytes_read m) (random m) v.

(** What the environment answers during the start. *)
Record answers := Answers {
  a_sigaction : Z → option Z;      (* the errno of a failing sigaction, by signal *)
  a_fork1 : ret;                   (* the first fork, as this process sees it *)
  a_setsid : ret;
  a_fork2 : ret;
  a_close : Z → option Z;          (* the fault of a close, by descriptor *)
  a_chdir : option Z;
  a_getaddrinfo : Z * addrinfo;    (* the value returned and the list head *)
  a_socket : ret;
  a_bind : option Z;
  a_listen : option Z
}.

(** A piece of the start ends the process with a status, returns a value,
    or meets an answer the kernel cannot give. *)
Inductive result (A : Type) :=
| Exit (status : Z) (p : proc)
| Ret (a : A) (p : proc)
| Impossible.
Arguments Exit {A} status p.
Arguments Ret {A} a p.
Arguments Impossible {A}.

Definition M (A : Type) : Type := proc → result A.

Definition ret_M {A : Type} (a : A) : M A := λ p, Ret a p.
Definition bind_M {A B : Type} (m : M A) (k : A → M B) : M B :=
  λ p, match m p with
       | Exit st p' => Exit st p'
       | Ret a p' => k a p'
       | Impossible => Impossible
       end.

Notation "x <~ m ; k" := (bind_M m (λ x, k))
  (at level 20, m at level 100, k at level 200, only parsing).
Notation "m ;;; k" := (bind_M m (λ _, k))
  (at level 100, k at level 200, right associativity).

(** [exit(status)]. *)
Definition exit {A : Type} (status : Z) : M A :=
  λ p, Exit status (note (PExit status) p).

Definition get_errno : M Z := λ p, Ret (errno (kern p)) p.
Definition fail_with {A : Type} (a : A) (e : Z) (c : pcall) : M A :=
  λ p, Ret a (note c (set_kern (set_errno e (kern p)) p)).

Definition fprintf (stream : Z) (fmt : string) (args : list arg) : M unit :=
  λ p, Ret tt (note (PFprintf stream fmt args) p).
Definition printf (fmt : string) (args : list arg) : M unit :=
  fprintf STDOUT_FILENO fmt args.

(** [syslog]: the call is recorded.  The descriptor the C library may hold
    for its connection to the log is not listed in [fds], which has the
    descriptors the program's own calls obtained. *)
Definition syslog_M (pr : priority) (fmt : string) (args : list arg) : M unit :=
  λ p, Ret tt (set_kern (syslog pr fmt args (kern p)) p).

Definition time_M : M Z :=
  λ p, Ret (clock (kern p)) (note (PTime (clock (kern p))) p).

Definition assign (f : vars → vars) : M unit :=
  λ p, Ret tt (set_pmem (f (pmem p)) p).

(** GNU [basename]: what follows the last slash. *)
Fixpoint has_slash (s : string) : bool :=
  match s with
  | EmptyString => false
  | String c r => Ascii.eqb c "/" || has_slash r
  end.
Fixpoint basename (s : string) : string :=
  match s with
  | EmptyString => EmptyString
  | String c r =>
      if has_slash r then basename r
      else if Ascii.eqb c "/" then r else String c r
  end.

Section Start.

Variable ans : answers.
(** The text of a [getaddrinfo] error belongs to the C library. *)
Variable gai_strerror : Z → string.

(** [sigaction(signum, act, NULL)]. *)
Definition sigaction (signum : Z) (act : sigaction_t) : M Z :=
  if (signum =? SIGKILL) || (signum =? SIGSTOP)
  then fail_with (-1) EINVAL (PSigaction signum act (-1))
  else match a_sigaction ans signum with
       | Some e => fail_with (-1) e (PSigaction signum act (-1))
       | None =>
           λ p, Ret 0 (note (PSigaction signum act 0)
                         (set_dispositions
                            (<[signum := sa_handler act]> (dispositions p)) p))
       end.

(** One of the two loops of [install_sighandlers], lines 77-82 and 85-90. *)
Fixpoint install_each (sigs : list Z) (sigact : sigaction_t) : M unit :=
  match sigs with
  | [] => ret_M tt
  | sg :: rest =>
      r <~ sigaction sg sigact;
      if r =? -1 then
        e <~ get_errno;
        fprintf STDERR_FILENO "error installing signal handler: %s\n" [AErrno e] ;;;
        exit EXIT_FAILURE
      else install_each rest sigact
  end.

(** [install_sighandlers], lines 69-91. *)
Definition install_sighandlers : M unit :=
  let sigact := {| sa_handler := Run_sig_handler; sa_mask := []; sa_flags := 0 |} in
  install_each signals sigact ;;;
  let sigact := {| sa_handler := SIG_IGN; sa_mask := sa_mask sigact;
                   sa_flags := sa_flags sigact |} in
  install_each signals_ignore sigact.

(** [fork()], as the process that goes on sees it: [-1], 0 in the child,
    the child's number in the parent.  Where it returns 0 the process that
    goes on is the child, which leads no session. *)
Definition fork (r : ret) : M Z :=
  match r with
  | Err e => fail_with (-1) e (PFork (-1))
  | Ok pid =>
      if 0 <=? pid then
        λ p, Ret pid (note (PFork pid)
                        (if pid =? 0 then set_session (child_role (session p)) p
                         else p))
      else λ _, Impossible
  end.

Definition openlog (ident : string) (option facility : Z) : M unit :=
  λ p, Ret tt (note (POpenlog ident option facility)
                 (set_log_ident (Some (ident, option, facility)) p)).

Definition setsid : M Z :=
  match a_setsid ans with
  | Err e => fail_with (-1) e (PSetsid (-1))
  | Ok sid =>
      if 0 <=? sid
      then λ p, Ret sid (note (PSetsid sid) (set_session (Leads sid) p))
      else λ _, Impossible
  end.

Definition close_M (d : Z) : M Z :=
  λ p, let rw := sys_close d (a_close ans d) (kern p) in
       Ret rw.1 (set_kern rw.2 p).

Definition chdir (path : string) : M Z :=
  match a_chdir ans with
  | Some e => fail_with (-1) e (PChdir path (-1))
  | None => λ p, Ret 0 (note (PChdir path 0) (set_cwd path p))
  end.

Definition umask (k : Z) : M Z :=
  λ p, Ret (mask p) (note (PUmask k) (set_mask (Z.land k 511) p)).

(** [daemonize], lines 94-132. *)
Definition daemonize (program_name : string) (facility : Z) : M unit :=
  pid <~ fork (a_fork1 ans);
  (if pid =? -1 then
     e <~ get_errno;
     fprintf STDERR_FILENO "error on fork(): %s\n" [AErrno e] ;;;
     exit EXIT_FAILURE
   else if pid =? 0 then openlog program_name LOG_CONS facility
   else exit EXIT_SUCCESS) ;;;
  r <~ setsid;
  (if r =? -1 then
     e <~ get_errno;
     syslog_M LOG_ERR "error on setsid(): %s\n" [AErrno e] ;;;
     exit EXIT_FAILURE
   else ret_M tt) ;;;
  pid <~ fork (a_fork2 ans);
  (if pid =? -1 then
     e <~ get_errno;
     syslog_M LOG_ERR "error on fork(): %s\n" [AErrno e] ;;;
     exit EXIT_FAILURE
   else if pid =? 0 then ret_M tt
   else exit EXIT_SUCCESS) ;;;
  close_M STDIN_FILENO ;;;
  close_M STDOUT_FILENO ;;;
  close_M STDERR_FILENO ;;;
  r <~ chdir "/";
  (if r =? -1 then
     e <~ get_errno;
     syslog_M LOG_WARNING "error on chdir(): %s\n" [AErrno e]
   else ret_M tt) ;;;
  umask 0 ;;;
  ret_M tt.

Definition getaddrinfo (node service : string) (hints : addrinfo)
  : M (Z * addrinfo) :=
  λ p, Ret (a_getaddrinfo ans)
         (note (PGetaddrinfo node service hints (a_getaddrinfo ans).1) p).

Definition socket (family socktype protocol : Z) : M Z :=
  match a_socket ans with
  | Err e => fail_with (-1) e (PSocket family socktype protocol (-1))
  | Ok d =>
      λ p, if unused d (kern p)
           then Ret d (note (PSocket family socktype protocol d)
                         (set_stages (<[d := Created family socktype protocol]> (stages p))
                            (set_kern (set_fds (<[d := HListen]> (fds (kern p))) (kern p)) p)))
           else Impossible
  end.

Definition bind (d : Z) (addr : string * string) : M Z :=
  λ p, match stages p !! d, a_bind ans with
       | Some (Created _ _ _), None =>
           Ret 0 (note (PBind d addr 0) (set_stages (<[d := Bound addr]> (stages p)) p))
       | Some (Created _ _ _), Some e => fail_with (-1) e (PBind d addr (-1)) p
       | _, _ => fail_with (-1) EINVAL (PBind d addr (-1)) p
       end.

Definition listen (d backlog : Z) : M Z :=
  λ p, match stages p !! d, a_listen ans with
       | Some (Bound addr), None =>
           Ret 0 (note (PListen d backlog 0)
                    (set_stages (<[d := Listening addr backlog]> (stages p)) p))
       | Some (Bound _), Some e => fail_with (-1) e (PListen d backlog (-1)) p
       | _, _ => fail_with (-1) EINVAL (PListen d backlog (-1)) p
       end.

(** [main] up to the loop, lines 136-173. *)
Definition main_start (argv : list string) : M unit :=
  now <~ time_M;
  assign (set_t now) ;;;
  let progname := basename (hd "" argv) in
  (if 1 <? Z.of_nat (length argv)
   then printf "%s does not take any arguments\n" [AStr progname]
   else ret_M tt) ;;;
  install_sighandlers ;;;
  daemonize progname LOG_DAEMON ;;;
  let hints := {| ai_flags := Z.lor AI_NUMERICHOST AI_NUMERICSERV;
                  ai_family := AF_INET; ai_socktype := SOCK_STREAM;
                  ai_protocol := 0; ai_addr := ("", "") |} in
  ra <~ getaddrinfo LISTEN_ADDR LISTEN_PORT hints;
  let retval := ra.1 in
  let ai := ra.2 in
  if negb (retval =? 0) then
    syslog_M LOG_ERR "error on getaddrinfo(): %s\n" [AStr (gai_strerror retval)] ;;;
    exit EXIT_FAILURE
  else
    s <~ socket (ai_family ai) (ai_socktype ai) (ai_protocol ai);
    assign (set_sd s) ;;;
    if s =? -1 then
      e <~ get_errno;
      syslog_M LOG_ERR "error on socket(): %s\n" [AErrno e] ;;;
      exit EXIT_FAILURE
    else
      retval <~ bind s (ai_addr ai);
      if retval =? -1 then
        e <~ get_errno;
        syslog_M LOG_ERR "error on bind(): %s\n" [AErrno e] ;;;
        exit EXIT_FAILURE
      else
        retval <~ listen s BACKLOG;
        if retval =? -1 then
          e <~ get_errno;
          syslog_M LOG_ERR "error on listen(): %s\n" [AErrno e] ;;;
          exit EXIT_FAILURE
        else
          syslog_M LOG_INFO "successfully started %s\n" [AStr progname].

End Start.

(** The variables when [main] begins: the file-scope variables are zero,
    [msg] and [filename] are cleared. *)
Definition start_vars : vars := entry_vars 0 0.

(** The state in which the process enters the loop after a start that
    returned. *)
Definition loop_entry (p : proc) : state := State L177 (pmem p) (kern p).

(** A process before [main] runs: descriptors 0, 1, 2 on a terminal, every
    signal at its default, the clock at [now]. *)
Definition terminal : handle := HFile "/dev/tty" 0 O_RDWR.
Definition fresh_proc (now : Z) (fs : gmap string (list byte)) : proc :=
  {| kern := {| fds := {[ 0 := terminal; 1 := terminal; 2 := terminal ]};
                files := fs; disk := fs; clock := now; errno := 0; calls := [] |};
     pmem := start_vars;
     dispositions := ∅; stages := ∅; log_ident := None;
     session := Inherited; cwd := "/home"; mask := 18; pcalls := [] |}.

(** Answers of a start in which every call succeeds and this process is the
    child of both forks. *)
Definition loopback : addrinfo :=
  {| ai_flags := 0; ai_family := AF_INET; ai_socktype := SOCK_STREAM;
     ai_protocol := 6; ai_addr := (LISTEN_ADDR, LISTEN_PORT) |}.
Definition all_well : answers :=
  {| a_sigaction := λ _, None; a_fork1 := Ok 0; a_setsid := Ok 4711;
     a_fork2 := Ok 0; a_close := λ _, None; a_chdir := None;
     a_getaddrinfo := (0, loopback); a_socket := Ok 0;
     a_bind := None; a_listen := None |}.

(** ** Vocabulary of the properties of the start *)

(** The signals in the order in which [install_sighandlers] sets them, and
    what it sets each to. *)
Definition install_order : list Z := signals ++ signals_ignore.
Definition act_for (sg : Z) : sigaction_t :=
  {| sa_handler := if member sg signals then Run_sig_handler else SIG_IGN;
     sa_mask := []; sa_flags := 0 |}.

(** Every [sigaction] of [install_sighandlers] succeeds. *)
Definition handlers_accepted (ans : answers) : Prop :=
  ∀ sg : Z, member sg install_order = true → a_sigaction ans sg = None.

(** This process is the child of both forks and leads its session. *)
Definition detached (ans : answers) : Prop :=
  a_fork1 ans = Ok 0 ∧ (∃ sid : Z, a_setsid ans = Ok sid ∧ 0 ≤ sid) ∧
  a_fork2 ans = Ok 0.

(** The descriptor table after the three closes of [daemonize]. *)
Definition without_std (d : gmap Z handle) : gmap Z handle :=
  delete STDERR_FILENO (delete STDOUT_FILENO (delete STDIN_FILENO d)).

(** The first call of lines 152-171 that fails, with what it reports. *)
Inductive failure :=
| Fgetaddrinfo (code : Z)
| Fsocket (e : Z)
| Fbind (e : Z)
| Flisten (e : Z).

Definition fails (ans : answers) (p : proc) (f : failure) : Prop :=
  match f with
  | Fgetaddrinfo code => (a_getaddrinfo ans).1 = code ∧ code ≠ 0
  | Fsocket e => (a_getaddrinfo ans).1 = 0 ∧ a_socket ans = Err e
  | Fbind e =>
      (a_getaddrinfo ans).1 = 0 ∧
      (∃ d, a_socket ans = Ok d ∧ 0 ≤ d ∧ without_std (fds (kern p)) !! d = None) ∧
      a_bind ans = Some e
  | Flisten e =>
      (a_getaddrinfo ans).1 = 0 ∧
      (∃ d, a_socket ans = Ok d ∧ 0 ≤ d ∧ without_std (fds (kern p)) !! d = None) ∧
      a_bind ans = None ∧ a_listen ans = Some e
  end.

Definition report (gai_strerror : Z → string) (f : failure) : call :=
  match f with
  | Fgetaddrinfo code =>
      CSyslog LOG_ERR "error on getaddrinfo(): %s\n" [AStr (gai_strerror code)]
  | Fsocket e => CSyslog LOG_ERR "error on socket(): %s\n" [AErrno e]
  | Fbind e => CSyslog LOG_ERR "error on bind(): %s\n" [AErrno e]
  | Flisten e => CSyslog LOG_ERR "error on listen(): %s\n" [AErrno e]
  end.

(** This process is the parent of one of the two forks. *)
Definition parent_of_fork (ans : answers) : Prop :=
  (∃ pid : Z, a_fork1 ans = Ok pid ∧ 0 < pid) ∨
  (a_fork1 ans = Ok 0 ∧ (∃ sid : Z, a_setsid ans = Ok sid ∧ 0 ≤ sid) ∧
   ∃ pid : Z, a_fork2 ans = Ok pid ∧ 0 < pid).

(** The dispositions after the six [sigaction] calls. *)
Definition installed (d : gmap Z disposition) : gmap Z disposition :=
  <[SIGTTOU := SIG_IGN]> (<[SIGTTIN := SIG_IGN]> (<[SIGTSTP := SIG_IGN]>
    (<[SIGTERM := Run_sig_handler]> (<[SIGINT := Run_sig_handler]>
      (<[SIGHUP := Run_sig_handler]> d))))).

(** Two processes that differ at most in the record of the calls made. *)
Definition same_but_calls (p q : proc) : Prop :=
  kern p = kern q ∧ pmem p = pmem q ∧ dispositions p = dispositions q ∧
  stages p = stages q ∧ log_ident p = log_ident q ∧
  session p = session q ∧ cwd p = cwd q ∧ mask p = mask q.

(** Two outcomes alike in everything but the record of calls, to which
    both have added the same calls: the first to the record of [p], the
    second to the record of [q]. *)
Definition adds_same {A : Type} (p q : proc) (r1 r2 : result A) : Prop :=
  match r1, r2 with
  | Exit s1 p1, Exit s2 p2 =>
      s1 = s2 ∧ same_but_calls p1 p2 ∧
      ∃ l : list pcall, pcalls p1 = pcalls p ++ l ∧ pcalls p2 = pcalls q ++ l
  | Ret a1 p1, Ret a2 p2 =>
      a1 = a2 ∧ same_but_calls p1 p2 ∧
      ∃ l : list pcall, pcalls p1 = pcalls p ++ l ∧ pcalls p2 = pcalls q ++ l
  | Impossible, Impossible => True
  | _, _ => False
  end.

(** A piece of the start that only adds to the record of calls and does
    not depend on it. *)
Definition blind {A : Type} (m : M A) : Prop :=
  ∀ p q : proc, same_but_calls p q → adds_same p q (m p) (m q).

(** Two outcomes alike in everything but the record of calls; both records
    begin with [before], the first goes on with the call [c], and from
    there on they are the same. *)
Definition one_call_more {A : Type} (before : list pcall) (c : pcall)
    (r1 r2 : result A) : Prop :=
  match r1, r2 with
  | Exit s1 p1, Exit s2 p2 =>
      s1 = s2 ∧ same_but_calls p1 p2 ∧
      ∃ l : list pcall, pcalls p1 = before ++ c :: l ∧ pcalls p2 = before ++ l
  | Ret a1 p1, Ret a2 p2 =>
      a1 = a2 ∧ same_but_calls p1 p2 ∧
      ∃ l : list pcall, pcalls p1 = before ++ c :: l ∧ pcalls p2 = before ++ l
  | Impossible, Impossible => True
  | _, _ => False
  end.

(** The descriptors passed to [close] in a list of calls, in order. *)
Definition closed_by (cs : list call) : list Z :=
  omap (λ c, match c with CClose d _ => Some d | _ => None end) cs.

(** The notice of line 144. *)
Definition notice (progname : string) : pcall :=
  PFprintf STDOUT_FILENO "%s does not take any arguments\n" [AStr progname].

(** Lines 149-173 of [main] on their own: from [getaddrinfo] to the start
    notice. *)
Definition listen_tail (ans : answers) (gai_strerror : Z → string)
    (progname : string) : M unit :=
  let hints := {| ai_flags := Z.lor AI_NUMERICHOST AI_NUMERICSERV;
                  ai_family := AF_INET; ai_socktype := SOCK_STREAM;
                  ai_protocol := 0; ai_addr := ("", "") |} in
  ra <~ getaddrinfo ans LISTEN_ADDR LISTEN_PORT hints;
  let retval := ra.1 in
  let ai := ra.2 in
  if negb (retval =? 0) then
    syslog_M LOG_ERR "error on getaddrinfo(): %s\n" [AStr (gai_strerror retval)] ;;;
    exit EXIT_FAILURE
  else
    s <~ socket ans (ai_family ai) (ai_socktype ai) (ai_protocol ai);
    assign (set_sd s) ;;;
    if s =? -1 then
      e <~ get_errno;
      syslog_M LOG_ERR "error on socket(): %s\n" [AErrno e] ;;;
      exit EXIT_FAILURE
    else
      retval <~ bind ans s (ai_addr ai);
      if retval =? -1 then
        e <~ get_errno;
        syslog_M LOG_ERR "error on bind(): %s\n" [AErrno e] ;;;
        exit EXIT_FAILURE
      else
        retval <~ listen ans s BACKLOG;
        if retval =? -1 then
          e <~ get_errno;
          syslog_M LOG_ERR "error on listen(): %s\n" [AErrno e] ;;;
          exit EXIT_FAILURE
        else
          syslog_M LOG_INFO "successfully started %s\n" [AStr progname].

(** Lines 146-173: what follows the notice. *)
Definition start_tail (ans : answers) (gai_strerror : Z → string)
    (progname : string) : M unit :=
  install_sighandlers ans ;;;
  daemonize ans progname LOG_DAEMON ;;;
  listen_tail ans gai_strerror progname.

(** Where a piece of the start ends the process, the last call recorded is
    the [exit] with that status. *)
Definition exit_recorded {A : Type} (m : M A) : Prop :=
  ∀ (p p' : proc) (st : Z), m p = Exit st p' → last (pcalls p') = Some (PExit st).

(** ** Further concrete scenarios *)

(** The first client's job at line 185 (the name is about to be chosen), at
    line 202 (the file is open, [fd_open] not yet set) and at line 209 (the
    file is closed, [fd_open] still set). *)
Definition at_stamp : state :=
  default boot (run utc_localtime boot [EAccept (Ok 4) hello; ETau]).
Definition at_flag : state :=
  default boot (run utc_localtime (at_open hello) [EOpen (Ok 5)]).
Definition to_file_closed : list event :=
  to_open 4 hello
    ++ [EOpen (Ok 5); ETau; ERead (Ok 5); EWrite (Ok 5); ERead (Ok 0); ETau;
        EClose None].
Definition file_closed_state : state :=
  default boot (run utc_localtime boot to_file_closed).

(** A second client a day after the first, at line 185 and at line 196. *)
Definition to_second_stamp : list event :=
  iteration_events 4 5 hello [2; 3] None None
    ++ [ETick 86400; EAccept (Ok 4) hello; ETau].
Definition second_stamp : state :=
  default boot (run utc_localtime boot to_second_stamp).
Definition second_open : state :=
  default boot (run utc_localtime second_stamp [ETau]).

(** The broken-down time of the epoch. *)
Definition epoch_tm : tm :=
  {| tm_sec := 0; tm_min := 0; tm_hour := 0; tm_mday := 1; tm_mon := 0;
     tm_year := 70 |}.

(** The late process in a directory in which the fallback names of 7 and 8
    are taken, at line 191. *)
Definition taken_dir : gmap string (list byte) :=
  {[ fallback_name 7 := []; fallback_name 8 := [] ]}.
Definition late_taken : state :=
  default boot_late
    (run utc_localtime (entry far_future 3 taken_dir) (to_open 4 hello)).

(** The command line. *)
Definition argv0 : string := "/usr/local/sbin/tcp_print2file".

(** Answers in which [sigaction] refuses SIGTERM, in which this process is
    the parent of the first fork, and in which [bind] finds the port in use. *)
Definition EADDRINUSE : Z := 98.
Definition term_refused : answers :=
  {| a_sigaction := λ sg, if sg =? SIGTERM then Some EINVAL else None;
     a_fork1 := Ok 0; a_setsid := Ok 4711; a_fork2 := Ok 0;
     a_close := λ _, None; a_chdir := None;
     a_getaddrinfo := (0, loopback); a_socket := Ok 0;
     a_bind := None; a_listen := None |}.
Definition in_parent : answers :=
  {| a_sigaction := λ _, None;
     a_fork1 := Ok 4242; a_setsid := Ok 4711; a_fork2 := Ok 0;
     a_close := λ _, None; a_chdir := None;
     a_getaddrinfo := (0, loopback); a_socket := Ok 0;
     a_bind := None; a_listen := None |}.
Definition bind_refused : answers :=
  {| a_sigaction := λ _, None;
     a_fork1 := Ok 0; a_setsid := Ok 4711; a_fork2 := Ok 0;
     a_close := λ _, None; a_chdir := None;
     a_getaddrinfo := (0, loopback); a_socket := Ok 0;
     a_bind := Some EADDRINUSE; a_listen := None |}.
Definition no_text : Z → string := λ _, "".

(** The process in which a piece of the start ends. *)
Definition proc_of {A : Type} (r : result A) : proc :=
  match r with
  | Exit _ p | Ret _ p => p
  | Impossible => fresh_proc 0 ∅
  end.

(** * Properties *)

(** ** Lists, strings and maps *)

Lemma write_at_length (off : nat) (data old : list byte) :
  length (write_at off data old) = ((off + length data) `max` length old)%nat.
Proof.
  unfold write_at.
  rewrite !length_app, length_take, length_replicate, length_drop. lia.
Qed.

Lemma write_at_nil (off : nat) (old : list byte) :
  (off ≤ length old)%nat → write_at off [] old = old.
Proof.
  intros Hle. unfold write_at.
  replace (off - length old)%nat with 0%nat by lia.
  simpl. rewrite Nat.add_0_r. apply take_drop.
Qed.

Lemma write_at_app (off : nat) (d1 d2 old : list byte) :
  write_at (off + length d1) d2 (write_at off d1 old) = write_at off (d1 ++ d2) old.
Proof.
  unfold write_at at 1.
  rewrite write_at_length.
  replace (off + length d1 - (off + length d1) `max` length old)%nat with 0%nat by lia.
  unfold write_at. simpl.
  rewrite !(assoc_L (++) (take off old)).
  set (a := take off old ++ replicate (off - length old) x00).
  assert (Ha : length a = off).
  { unfold a. rewrite length_app, length_take, length_replicate. lia. }
  clearbody a.
  rewrite (assoc_L (++) a d1).
  rewrite take_app_length' by (rewrite length_app; lia).
  rewrite <-(drop_drop _ (length d2) (off + length d1)).
  rewrite drop_app_length' by (rewrite length_app; lia).
  rewrite drop_drop, length_app, <-!(assoc_L (++)).
  do 4 f_equal. lia.
Qed.

Lemma stored_app (d : Z) (cs1 cs2 : list call) :
  stored d (cs1 ++ cs2) = stored d cs1 ++ stored d cs2.
Proof.
  induction cs1 as [|c cs1 IH]; [reflexivity|].
  destruct c; simpl; rewrite ?IH; try reflexivity.
  by rewrite (assoc_L (++)).
Qed.

Lemma string_length_app (a b : string) :
  String.length (a +:+ b) = (String.length a + String.length b)%nat.
Proof. induction a as [|c a IH]; simpl; [reflexivity|by rewrite IH]. Qed.

Lemma substring_whole (n : nat) (s : string) :
  (String.length s ≤ n)%nat → String.substring 0 n s = s.
Proof.
  revert n. induction s as [|c s IH]; intros n Hn.
  - by destruct n.
  - destruct n as [|n]; simpl in *; [lia|]. rewrite IH by lia. reflexivity.
Qed.

(** A number below [10^k] prints with at most [k] digits. *)
Lemma pretty_N_go_length (k : nat) :
  ∀ (x : N) (s : string),
    (x < 10 ^ N.of_nat k)%N →
    (String.length (pretty_N_go x s) ≤ k + String.length s)%nat.
Proof.
  induction k as [|k IH]; intros x s Hx.
  - assert (x = 0%N) as -> by (simpl in Hx; lia).
    rewrite pretty_N_go_0. lia.
  - destruct (decide (x = 0%N)) as [->|Hne].
    + rewrite pretty_N_go_0. lia.
    + rewrite pretty_N_go_step by lia.
      etrans; [apply IH|simpl; lia].
      rewrite Nat2N.inj_succ, N.pow_succ_r' in Hx.
      apply N.Div0.div_lt_upper_bound. lia.
Qed.

Lemma pretty_rand_length (r : Z) :
  0 ≤ r ≤ RAND_MAX → (String.length (pretty r) ≤ 10)%nat.
Proof.
  intros Hr. destruct r as [|p|p]; [simpl; lia| |lia].
  unfold pretty, pretty_Z, pretty, pretty_positive, pretty, pretty_N.
  case_decide; [simpl; lia|].
  pose proof (pretty_N_go_length 10 (N.pos p) "") as H10.
  simpl String.length in H10. rewrite Nat.add_0_r in H10. apply H10.
  unfold RAND_MAX in Hr. change (10 ^ N.of_nat 10)%N with 10000000000%N. lia.
Qed.

Lemma run_app (lt : Z → option tm) (s : state) (a b : list event) :
  run lt s (a ++ b) = run lt s a ≫= λ s', run lt s' b.
Proof.
  revert s. induction a as [|e a IH]; intros s; simpl; [reflexivity|].
  destruct (step lt s e); simpl; [apply IH|reflexivity].
Qed.

(** ** System calls *)

Ltac zbool :=
  repeat match goal with
    | |- context [?a <=? ?b] => destruct (Z.leb_spec a b); try lia
    | |- context [?a <? ?b] => destruct (Z.ltb_spec a b); try lia
    | |- context [?a =? ?b] => destruct (Z.eqb_spec a b); try lia
    end; simpl.

Lemma open_flags_facts :
  has_flag (Z.lor O_CREAT O_WRONLY) O_CREAT = true ∧
  has_flag (Z.lor O_CREAT O_WRONLY) O_EXCL = false ∧
  has_flag (Z.lor O_CREAT O_WRONLY) O_TRUNC = false ∧
  has_flag (Z.lor O_CREAT O_WRONLY) O_APPEND = false ∧
  writable (Z.lor O_CREAT O_WRONLY) = true.
Proof. repeat split; reflexivity. Qed.

Lemma sys_read_data (d n : Z) (w : world) (inbound : list byte) :
  fds w !! d = Some (HSock inbound) →
  0 < n ≤ BUFSIZE → n ≤ Z.of_nat (length inbound) →
  sys_read d BUFSIZE (Ok n) w =
    Some (n, take (Z.to_nat n) inbound,
          log_call (CRead d BUFSIZE n)
            (set_fds (<[d := HSock (drop (Z.to_nat n) inbound)]> (fds w)) w)).
Proof. intros Hd Hn Hlen. unfold sys_read. rewrite Hd. zbool. reflexivity. Qed.

Lemma sys_read_eof (d : Z) (w : world) :
  fds w !! d = Some (HSock []) →
  sys_read d BUFSIZE (Ok 0) w =
    Some (0, [], log_call (CRead d BUFSIZE 0) (set_fds (<[d := HSock []]> (fds w)) w)).
Proof. intros Hd. unfold sys_read. rewrite Hd. reflexivity. Qed.

Lemma sys_write_full (d n : Z) (w : world) (path : string) (off : nat)
    (buf content : list byte) :
  fds w !! d = Some (HFile path off (Z.lor O_CREAT O_WRONLY)) →
  files w !! path = Some content →
  n = Z.of_nat (length buf) →
  sys_write d buf (Ok n) w =
    Some (n,
          log_call (CWrite d buf n)
            (set_files (<[path := write_at off buf content]> (files w))
               (set_fds (<[d := HFile path (off + length buf) (Z.lor O_CREAT O_WRONLY)]>
                           (fds w)) w))).
Proof.
  intros Hd Hf ->. unfold sys_write. rewrite Hd, Hf.
  destruct open_flags_facts as (_ & _ & _ & -> & ->). zbool.
  rewrite Nat2Z.id, firstn_all. reflexivity.
Qed.

Lemma unused_spec (d : Z) (w : world) :
  unused d w = true ↔ 0 ≤ d ∧ fds w !! d = None.
Proof.
  unfold unused. destruct (fds w !! d); zbool; intuition (try done; lia).
Qed.

Lemma sys_open_new (path : string) (mode d : Z) (w : world) :
  unused d w = true →
  sys_open path (Z.lor O_CREAT O_WRONLY) mode (Ok d) w =
    Some (d, log_call (COpen path (Z.lor O_CREAT O_WRONLY) mode d)
               (set_files (<[path := default [] (files w !! path)]> (files w))
                  (set_fds (<[d := HFile path 0 (Z.lor O_CREAT O_WRONLY)]> (fds w)) w))).
Proof.
  intros Hd. unfold sys_open. rewrite Hd.
  destruct open_flags_facts as (-> & -> & -> & _ & _).
  destruct (files w !! path); reflexivity.
Qed.

Lemma sys_close_open (d : Z) (fault : option Z) (w : world) (h : handle) :
  fds w !! d = Some h →
  sys_close d fault w =
    (close_value fault,
     log_call (CClose d (close_value fault))
       (close_errno fault (set_fds (delete d (fds w)) w))).
Proof. intros Hd. unfold sys_close. rewrite Hd. by destruct fault. Qed.

Lemma fds_close_errno (fault : option Z) (w : world) :
  fds (close_errno fault w) = fds w.
Proof. by destruct fault. Qed.

Lemma files_close_errno (fault : option Z) (w : world) :
  files (close_errno fault w) = files w.
Proof. by destruct fault. Qed.

Lemma calls_close_errno (fault : option Z) (w : world) :
  calls (close_errno fault w) = calls w.
Proof. by destruct fault. Qed.

Lemma some_state_eq (l : label) (m1 m2 : vars) (w1 w2 : world) :
  m1 = m2 → w1 = w2 → Some (State l m1 w1) = Some (State l m2 w2).
Proof. by intros -> ->. Qed.

Lemma world_eq (f1 f2 : gmap Z handle) (g1 g2 d1 d2 : gmap string (list byte))
    (c1 c2 e1 e2 : Z) (l1 l2 : list call) :
  f1 = f2 → g1 = g2 → d1 = d2 → c1 = c2 → e1 = e2 → l1 = l2 →
  World f1 g1 d1 c1 e1 l1 = World f2 g2 d2 c2 e2 l2.
Proof. by intros -> -> -> -> -> ->. Qed.

Section Properties.

Variable localtime : Z → option tm.
Local Abbreviation step := (step localtime).
Local Abbreviation run := (run localtime).

(** ** The copy loop, line 204 *)

(** With every write complete, the loop moves all pending bytes of the
    client into the file, at the file's offset. *)
Lemma copy_loop_full (ns : list Z) :
  ∀ (s : state) (inbound : list byte) (path : string) (off : nat) (content : list byte),
    pc s = L204r →
    fds (os s) !! client (mem s) = Some (HSock inbound) →
    fds (os s) !! fd (mem s) = Some (HFile path off (Z.lor O_CREAT O_WRONLY)) →
    files (os s) !! path = Some content →
    (off ≤ length content)%nat →
    chunking ns inbound →
    ∃ (buf : list byte) (cs : list call),
      run s (copy_events (full_writes ns)) =
        Some (State L206 (set_bytes_read 0 (set_msg buf (mem s)))
                (World
                   (<[fd (mem s) := HFile path (off + length inbound) (Z.lor O_CREAT O_WRONLY)]>
                      (<[client (mem s) := HSock []]> (fds (os s))))
                   (<[path := write_at off inbound content]> (files (os s)))
                   (disk (os s)) (clock (os s)) (errno (os s))
                   (calls (os s) ++ cs))) ∧
      stored (fd (mem s)) cs = inbound.
Proof.
  induction ns as [|n ns IH]; intros [l m w] inbound path off content; simpl;
    intros -> Hc Hf Hp Hoff [Hall Hsum].
  - assert (inbound = []) as ->.
    { simpl in Hsum. destruct inbound; [done|simpl in Hsum; lia]. }
    exists (msg m), [CRead (client m) BUFSIZE 0].
    assert (Hne : client m ≠ fd m) by (intros E; rewrite E in Hc; congruence).
    unfold step. simpl. rewrite (sys_read_eof _ _ Hc). simpl.
    split; [|reflexivity].
    apply some_state_eq; [reflexivity|].
    apply world_eq; simpl; try reflexivity.
    + rewrite Nat.add_0_r. symmetry. apply insert_id.
      by rewrite lookup_insert_ne.
    + rewrite write_at_nil by done. symmetry. by apply insert_id.
  - apply Forall_cons in Hall as [Hn Hall]. simpl in Hsum.
    assert (Hne : client m ≠ fd m) by (intros E; rewrite E in Hc; congruence).
    assert (Hpos : 0 ≤ foldr Z.add 0 ns).
    { clear -Hall. induction Hall as [|x xs Hx _ IHx]; simpl; lia. }
    set (k := Z.to_nat n).
    assert (Hk : (k ≤ length inbound)%nat) by lia.
    assert (Hlen : length (take k inbound) = k) by (rewrite length_take; lia).
    unfold step at 1. simpl.
    rewrite (sys_read_data _ n _ _ Hc) by lia. fold k. simpl.
    destruct (Z.ltb_spec 0 n) as [_|]; [|lia].
    unfold step at 1. simpl.
    rewrite Hlen, take_app_length' by done.
    erewrite sys_write_full; simpl;
      [|by rewrite lookup_insert_ne, Hf|exact Hp|lia].
    lazymatch goal with
    | |- context [State L204r ?m2 ?w2] =>
        destruct (IH (State L204r m2 w2) (drop k inbound) path (off + k)%nat
                    (write_at off (take k inbound) content))
          as (buf & cs & Hrun & Hst); simpl
    end.
    + reflexivity.
    + rewrite Hlen. rewrite lookup_insert_ne by done. apply lookup_insert_eq.
    + rewrite Hlen. apply lookup_insert_eq.
    + apply lookup_insert_eq.
    + rewrite write_at_length, Hlen. lia.
    + split; [done|]. rewrite length_drop. lia.
    + exists buf, ([CRead (client m) BUFSIZE n;
                    CWrite (fd m) (take k inbound) n] ++ cs).
      unfold copy_events in Hrun. rewrite Hrun. split.
      * apply some_state_eq; [reflexivity|].
        apply world_eq; simpl; try reflexivity.
        -- apply map_eq; intros i. rewrite !lookup_insert, length_drop.
           repeat case_decide; try done. do 2 f_equal. lia.
        -- rewrite insert_insert_eq. f_equal.
           rewrite <-Hlen at 1. rewrite write_at_app, take_drop. reflexivity.
        -- by rewrite <-!(assoc_L (++)).
      * simpl. rewrite Z.eqb_refl. zbool. fold k. rewrite <-Hlen at 1. rewrite firstn_all.
        simpl in Hst. rewrite Hst. apply take_drop.
Qed.

(** ** One job, lines 196-211 *)

(** From [open] to the end of the loop body, with a clean close and every
    write complete: the file holds the client's bytes from offset 0, followed
    by what an older file of that name held beyond them; both descriptors
    are closed and both flags cleared. *)
Lemma job_full (s : state) (S : list byte) (d : Z) (ns : list Z) (f1 f2 : option Z) :
  pc s = L196 →
  fds (os s) !! client (mem s) = Some (HSock S) →
  unused d (os s) = true →
  chunking ns S →
  ∃ (s' : state) (cs : list call),
    run s (job_events d (full_writes ns) f1 f2) = Some s' ∧
    pc s' = L177 ∧
    files (os s') =
      <[filename (mem s) :=
          S ++ drop (length S) (default [] (files (os s) !! filename (mem s)))]>
        (files (os s)) ∧
    fds (os s') = delete (client (mem s)) (fds (os s)) ∧
    calls (os s') = calls (os s) ++ cs ∧
    stored d cs = S ∧
    fd_open (mem s') = 0 ∧ client_connected (mem s') = 0 ∧
    filename (mem s') = filename (mem s).
Proof.
  destruct s as [l m w]; simpl. intros -> Hc Hd Hns.
  apply unused_spec in Hd as Hd'. destruct Hd' as [Hd0 Hdn].
  assert (Hne : client m ≠ d) by (intros E; rewrite E in Hc; congruence).
  unfold job_events. simpl. unfold step at 1. simpl.
  rewrite sys_open_new by exact Hd. simpl.
  destruct (Z.eqb_spec d (-1)) as [|_]; [lia|].
  unfold step at 1. simpl.
  rewrite run_app.
  lazymatch goal with
  | |- context [State L204r ?m2 ?w2] =>
      destruct (copy_loop_full ns (State L204r m2 w2) S (filename m) 0%nat
                  (default [] (files w !! filename m)))
        as (buf & cs & Hrun & Hst); simpl
  end.
  - reflexivity.
  - by rewrite lookup_insert_ne.
  - apply lookup_insert_eq.
  - apply lookup_insert_eq.
  - lia.
  - exact Hns.
  - rewrite Hrun. simpl. unfold step. simpl.
    erewrite (sys_close_open d f1) by apply lookup_insert_eq. simpl.
    erewrite (sys_close_open (client m) f2); simpl.
    2:{ rewrite fds_close_errno. simpl.
        rewrite lookup_delete_ne, lookup_insert_ne, lookup_insert_eq by done.
        reflexivity. }
    eexists _, ([CSyslog LOG_INFO "start printing to %s" [AStr (filename m)];
                 COpen (filename m) (Z.lor O_CREAT O_WRONLY) (Z.lor S_IRUSR S_IWUSR) d]
                  ++ cs
                  ++ [CSyslog LOG_INFO "done printing to %s" [AStr (filename m)];
                      CClose d (close_value f1);
                      CClose (client m) (close_value f2)]).
    split; [reflexivity|]. simpl.
    rewrite ?fds_close_errno, ?files_close_errno, ?calls_close_errno. simpl.
    rewrite ?fds_close_errno, ?files_close_errno, ?calls_close_errno. simpl.
    split; [reflexivity|].
    split; [by rewrite insert_insert_eq|].
    split.
    { apply map_eq; intros i.
      rewrite ?lookup_delete, ?lookup_insert; repeat case_decide; subst; done. }
    split.
    { rewrite <-!(assoc_L (++)). reflexivity. }
    split; [|done].
    simpl in Hst. rewrite stored_app. simpl. rewrite Hst. apply app_nil_r.
Qed.

(** C1 (amended): for every byte sequence [S] sent by a client whose
    transfer runs to completion (the output file is opened, the client
    closes cleanly) and during which every [write] stores the full count it
    is given, the bytes written to the output file equal [S] exactly, in the
    order sent, and they lie at the start of the file. *)
Theorem transfer_fidelity (s : state) (S : list byte) (d : Z) (ns : list Z)
    (f1 f2 : option Z) :
  pc s = L196 →
  fds (os s) !! client (mem s) = Some (HSock S) →
  unused d (os s) = true →
  chunking ns S →
  ∃ (s' : state) (cs : list call) (rest : list byte),
    run s (job_events d (full_writes ns) f1 f2) = Some s' ∧
    pc s' = L177 ∧
    calls (os s') = calls (os s) ++ cs ∧
    stored d cs = S ∧
    files (os s') !! filename (mem s) = Some (S ++ rest).
Proof.
  intros Hpc Hc Hd Hns.
  destruct (job_full s S d ns f1 f2 Hpc Hc Hd Hns)
    as (s' & cs & Hrun & Hpc' & Hfiles & _ & Hcalls & Hst & _).
  exists s', cs, (drop (length S) (default [] (files (os s) !! filename (mem s)))).
  repeat split; try done.
  rewrite Hfiles. apply lookup_insert_eq.
Qed.

(** C8 (amended): for a client that connects, sends zero bytes and closes
    immediately, given the file open succeeds, a file of the selected name
    exists afterwards; it is empty when no file of that name existed before
    the open, and otherwise it still holds the bytes it held. *)
Theorem empty_job_file (s : state) (d : Z) (f1 f2 : option Z) :
  pc s = L196 →
  fds (os s) !! client (mem s) = Some (HSock []) →
  unused d (os s) = true →
  ∃ s' : state,
    run s (job_events d [] f1 f2) = Some s' ∧
    pc s' = L177 ∧
    files (os s') !! filename (mem s) =
      Some (default [] (files (os s) !! filename (mem s))) ∧
    (files (os s) !! filename (mem s) = None →
     files (os s') !! filename (mem s) = Some []).
Proof.
  intros Hpc Hc Hd.
  destruct (job_full s [] d [] f1 f2 Hpc Hc Hd)
    as (s' & cs & Hrun & Hpc' & Hfiles & _).
  { split; [constructor|reflexivity]. }
  exists s'. split; [exact Hrun|]. split; [exact Hpc'|].
  rewrite Hfiles, lookup_insert_eq. simpl.
  split; [reflexivity|]. by intros ->.
Qed.

(** C9: the output file is opened with [O_CREAT] and [O_WRONLY] and without
    [O_TRUNC]; when a file of the selected name exists, the open leaves its
    contents as they are and starts at offset 0, and after a completed job
    the file holds the job's bytes followed by the old bytes beyond the
    job's length. *)
Theorem open_keeps_old_contents (s : state) (S old : list byte) (d : Z)
    (ns : list Z) (f1 f2 : option Z) :
  pc s = L196 →
  files (os s) !! filename (mem s) = Some old →
  fds (os s) !! client (mem s) = Some (HSock S) →
  unused d (os s) = true →
  chunking ns S →
  (∃ s1 : state,
     step s (EOpen (Ok d)) = Some s1 ∧
     last (calls (os s1)) =
       Some (COpen (filename (mem s)) (Z.lor O_CREAT O_WRONLY)
               (Z.lor S_IRUSR S_IWUSR) d) ∧
     has_flag (Z.lor O_CREAT O_WRONLY) O_CREAT = true ∧
     writable (Z.lor O_CREAT O_WRONLY) = true ∧
     has_flag (Z.lor O_CREAT O_WRONLY) O_TRUNC = false ∧
     files (os s1) !! filename (mem s) = Some old ∧
     fds (os s1) !! d = Some (HFile (filename (mem s)) 0 (Z.lor O_CREAT O_WRONLY))) ∧
  (∃ s' : state,
     run s (job_events d (full_writes ns) f1 f2) = Some s' ∧
     pc s' = L177 ∧
     files (os s') !! filename (mem s) = Some (S ++ drop (length S) old)).
Proof.
  intros Hpc Hold Hc Hd Hns. split.
  - destruct s as [l m w]; simpl in *. subst l.
    apply unused_spec in Hd as Hd'. destruct Hd' as [Hd0 _].
    unfold step. simpl. rewrite sys_open_new by exact Hd. simpl.
    destruct (Z.eqb_spec d (-1)) as [|_]; [lia|].
    eexists. split; [reflexivity|]. simpl.
    rewrite last_snoc, Hold, !lookup_insert_eq. done.
  - destruct (job_full s S d ns f1 f2 Hpc Hc Hd Hns)
      as (s' & cs & Hrun & Hpc' & Hfiles & _).
    exists s'. split; [exact Hrun|]. split; [exact Hpc'|].
    by rewrite Hfiles, lookup_insert_eq, Hold.
Qed.

(** ** The signal handler, lines 49-63 *)

(** One [close] of the handler with its warning. *)
Lemma handler_close (d : Z) (fault : option Z) (fmt : string) (w : world) :
  let rw := sys_close d fault w in
  let w' := if rw.1 =? -1
            then syslog LOG_WARNING fmt [AErrno (errno rw.2)] rw.2
            else rw.2 in
  ∃ r : ret,
    calls w' = calls w ++ close_calls 1 d r fmt ∧
    fds w' = delete d (fds w) ∧
    files w' = files w ∧ disk w' = disk w.
Proof.
  unfold sys_close, close_calls. simpl.
  destruct (fds w !! d) as [h|] eqn:Hd; [destruct fault as [e|]|]; simpl.
  - exists (Err e). rewrite <-(assoc_L (++)). done.
  - exists (Ok 0). done.
  - exists (Err EBADF). rewrite <-(assoc_L (++)), delete_id by done. done.
Qed.

(** What the handler leaves behind, whatever the state it interrupts. *)
Lemma sig_handler_spec (signum : Z) (f1 f2 f3 : option Z) (m : vars) (w : world) :
  ∃ (w' : world) (r1 r2 r3 : ret),
    sig_handler signum f1 f2 f3 m w = State (Lexit 0) m w' ∧
    calls w' =
      calls w
        ++ [CSyslog LOG_NOTICE
              "received signal %d, will close all open file descriptors and exit\n"
              [AInt signum];
            CSync]
        ++ close_calls (client_connected m) (client m) r1
             "signal handler: error closing client socket: %s\n"
        ++ close_calls (fd_open m) (fd m) r2
             "signal handler: error closing fd: %s\n"
        ++ close_calls 1 (sd m) r3
             "signal handler: error closing socket: %s\n"
        ++ [CExit EXIT_SUCCESS] ∧
    disk w' = files w ∧
    files w' = files w ∧
    (client_connected m ≠ 0 → fds w' !! client m = None) ∧
    (fd_open m ≠ 0 → fds w' !! fd m = None) ∧
    fds w' !! sd m = None ∧
    (∀ k, k ≠ client m → k ≠ fd m → k ≠ sd m → fds w' !! k = fds w !! k).
Proof.
  unfold sig_handler.
  set (w1 := sys_sync (syslog LOG_NOTICE _ _ w)).
  assert (H1 : calls w1 = calls w ++
            [CSyslog LOG_NOTICE
               "received signal %d, will close all open file descriptors and exit\n"
               [AInt signum]; CSync]
          ∧ fds w1 = fds w ∧ files w1 = files w ∧ disk w1 = files w).
  { unfold w1. simpl. by rewrite <-(assoc_L (++)). }
  destruct H1 as (Hc1 & Hf1 & Hfs1 & Hd1). clearbody w1.
  set (w2 := if client_connected m =? 0 then w1 else _).
  assert (H2 : ∃ r1, calls w2 = calls w1 ++
              close_calls (client_connected m) (client m) r1
                "signal handler: error closing client socket: %s\n"
            ∧ (client_connected m ≠ 0 → fds w2 !! client m = None)
            ∧ (∀ k, fds w1 !! k = None → fds w2 !! k = None)
            ∧ (∀ k, k ≠ client m → fds w2 !! k = fds w1 !! k)
            ∧ files w2 = files w1 ∧ disk w2 = disk w1).
  { unfold w2, close_calls. destruct (Z.eqb_spec (client_connected m) 0) as [E|E].
    - exists (Ok 0). rewrite app_nil_r. done.
    - destruct (handler_close (client m) f1
                  "signal handler: error closing client socket: %s\n" w1)
        as (r & Hc & Hf & Hfs & Hd).
      exists r. rewrite Hc, Hf, Hfs, Hd. repeat split; try done.
      + intros _. apply lookup_delete_eq.
      + intros k Hk. rewrite lookup_delete_None. by right.
      + intros k Hk. by rewrite lookup_delete_ne. }
  destruct H2 as (r1 & Hc2 & Hcl2 & Hmono2 & Hoth2 & Hfs2 & Hd2). clearbody w2.
  set (w3 := if fd_open m =? 0 then w2 else _).
  assert (H3 : ∃ r2, calls w3 = calls w2 ++
              close_calls (fd_open m) (fd m) r2
                "signal handler: error closing fd: %s\n"
            ∧ (fd_open m ≠ 0 → fds w3 !! fd m = None)
            ∧ (∀ k, fds w2 !! k = None → fds w3 !! k = None)
            ∧ (∀ k, k ≠ fd m → fds w3 !! k = fds w2 !! k)
            ∧ files w3 = files w2 ∧ disk w3 = disk w2).
  { unfold w3, close_calls. destruct (Z.eqb_spec (fd_open m) 0) as [E|E].
    - exists (Ok 0). rewrite app_nil_r. done.
    - destruct (handler_close (fd m) f2
                  "signal handler: error closing fd: %s\n" w2)
        as (r & Hc & Hf & Hfs & Hd).
      exists r. rewrite Hc, Hf, Hfs, Hd. repeat split; try done.
      + intros _. apply lookup_delete_eq.
      + intros k Hk. rewrite lookup_delete_None. by right.
      + intros k Hk. by rewrite lookup_delete_ne. }
  destruct H3 as (r2 & Hc3 & Hcl3 & Hmono3 & Hoth3 & Hfs3 & Hd3). clearbody w3.
  destruct (handler_close (sd m) f3
              "signal handler: error closing socket: %s\n" w3)
    as (r3 & Hc4 & Hf4 & Hfs4 & Hd4).
  simpl in Hc4, Hf4, Hfs4, Hd4.
  eexists _, r1, r2, r3. split; [reflexivity|]. simpl.
  rewrite Hc4, Hc3, Hc2, Hc1, Hf4, Hfs4, Hfs3, Hfs2, Hfs1, Hd4, Hd3, Hd2, Hd1.
  repeat split.
  - by rewrite <-!(assoc_L (++)).
  - intros Hne. rewrite lookup_delete_None. right. auto.
  - intros Hne. rewrite lookup_delete_None. right. auto.
  - apply lookup_delete_eq.
  - intros k Hk1 Hk2 Hk3.
    rewrite lookup_delete_ne, Hoth3, Hoth2, Hf1 by done. reflexivity.
Qed.

(** C4: when a termination signal is handled, the signal number is logged,
    the file system buffers are flushed, the client socket is closed if
    [client_connected] is set, the output file is closed if [fd_open] is
    set, the listening socket is closed unconditionally, and the process
    exits with status 0; a failed [close] is logged as a warning and leaves
    the exit status as it is. *)
Theorem sig_handler_shutdown (s : state) (signum : Z) (f1 f2 f3 : option Z) :
  running (pc s) = true →
  member signum signals = true →
  ∃ (s' : state) (r1 r2 r3 : ret),
    step s (ESignal signum f1 f2 f3) = Some s' ∧
    pc s' = Lexit 0 ∧
    calls (os s') =
      calls (os s)
        ++ [CSyslog LOG_NOTICE
              "received signal %d, will close all open file descriptors and exit\n"
              [AInt signum];
            CSync]
        ++ close_calls (client_connected (mem s)) (client (mem s)) r1
             "signal handler: error closing client socket: %s\n"
        ++ close_calls (fd_open (mem s)) (fd (mem s)) r2
             "signal handler: error closing fd: %s\n"
        ++ close_calls 1 (sd (mem s)) r3
             "signal handler: error closing socket: %s\n"
        ++ [CExit EXIT_SUCCESS] ∧
    disk (os s') = files (os s) ∧
    files (os s') = files (os s) ∧
    (client_connected (mem s) ≠ 0 → fds (os s') !! client (mem s) = None) ∧
    (fd_open (mem s) ≠ 0 → fds (os s') !! fd (mem s) = None) ∧
    fds (os s') !! sd (mem s) = None.
Proof.
  destruct s as [l m w]; simpl. intros Hrun Hsig.
  unfold step. simpl. rewrite Hrun, Hsig.
  destruct (sig_handler_spec signum f1 f2 f3 m w)
    as (w' & r1 & r2 & r3 & -> & Hc & Hd & Hfs & H1 & H2 & H3 & _).
  exists (State (Lexit 0) m w'), r1, r2, r3. simpl. done.
Qed.

(** ** What every transition preserves *)

(** The cases of a transition [H : step s e = Some s'], with the system
    calls left folded. *)
Ltac step_inv H :=
  unfold step in H; cbn [pc mem os] in H;
  match type of H with
  | (if running ?l then _ else _) = _ =>
      destruct (running l) eqn:?; [|discriminate H]
  end;
  match type of H with
  | match ?e with _ => _ end = _ => destruct e
  end;
  try match type of H with
    | main_step ?l _ _ _ = _ => destruct l; try discriminate H
    end;
  unfold main_step in H;
  repeat match type of H with
    | match ?x with _ => _ end = _ => destruct x eqn:?; try discriminate H
    | (let (_, _) := ?x in _) = _ => destruct x eqn:?
    end;
  injection H as <-.

(** [t] is assigned once, at line 138, before the loop. *)
Lemma step_keeps_t (s s' : state) (e : event) :
  step s e = Some s' → t (mem s') = t (mem s).
Proof. destruct s as [l m w]; simpl. intros H. step_inv H; reflexivity. Qed.

Lemma run_keeps_t (evs : list event) :
  ∀ s s' : state, run s evs = Some s' → t (mem s') = t (mem s).
Proof.
  induction evs as [|e evs IH]; intros s s' H; simpl in H.
  - by simplify_eq.
  - destruct (step s e) as [s1|] eqn:Hs; [|discriminate].
    rewrite (IH _ _ H). by eapply step_keeps_t.
Qed.

(** What the calls change in the descriptor table and in the file system. *)
Lemma sys_accept_inv (sock v : Z) (r : ret) (inb : list byte) (w w' : world) :
  sys_accept sock r inb w = Some (v, w') →
  files w' = files w ∧
  ((v = -1 ∧ fds w' = fds w) ∨
   (unused v w = true ∧ fds w' = <[v := HSock inb]> (fds w))).
Proof.
  unfold sys_accept. intros H.
  destruct r as [d|e]; [|simplify_eq/=; auto].
  destruct (fds w !! sock) as [[]|]; try discriminate.
  destruct (unused d w) eqn:Hu; simplify_eq/=. auto.
Qed.

Lemma sys_access_inv (path : string) (mode : Z) (w : world) :
  files (sys_access path mode w).2 = files w ∧
  fds (sys_access path mode w).2 = fds w ∧
  ((sys_access path mode w).1 = -1 ↔ files w !! path = None).
Proof.
  unfold sys_access. destruct (files w !! path); simpl; repeat split; done.
Qed.

Lemma sys_open_inv (path : string) (flags mode v : Z) (r : ret) (w w' : world) :
  sys_open path flags mode r w = Some (v, w') →
  (v = -1 ∧ fds w' = fds w ∧ files w' = files w) ∨
  (unused v w = true ∧ fds w' = <[v := HFile path 0 flags]> (fds w) ∧
   ∃ c, files w' = <[path := c]> (files w)).
Proof.
  unfold sys_open. intros H.
  destruct r as [d|e]; [|simplify_eq/=; auto].
  destruct (unused d w) eqn:Hu; [|discriminate].
  destruct (files w !! path);
    repeat (case_match; try discriminate); simplify_eq/=; eauto.
Qed.

Lemma sys_read_inv (d count v : Z) (r : ret) (data : list byte) (w w' : world) :
  sys_read d count r w = Some (v, data, w') →
  files w' = files w ∧
  (fds w' = fds w ∨ ∃ inb, fds w' = <[d := HSock inb]> (fds w)).
Proof.
  unfold sys_read. intros H.
  destruct r as [n|e]; [|simplify_eq/=; auto].
  destruct (fds w !! d) as [[]|]; try discriminate.
  case_match; simplify_eq/=. eauto.
Qed.

Lemma sys_write_inv (d v : Z) (buf : list byte) (r : ret) (w w' : world) :
  sys_write d buf r w = Some (v, w') →
  (fds w' = fds w ∧ files w' = files w) ∨
  (∃ p off fl off' c,
     fds w !! d = Some (HFile p off fl) ∧
     fds w' = <[d := HFile p off' fl]> (fds w) ∧
     files w' = <[p := c]> (files w)).
Proof.
  unfold sys_write. intros H.
  destruct r as [n|e]; [|simplify_eq/=; auto].
  destruct (fds w !! d) as [[]|] eqn:Hd; try discriminate.
  case_match; simplify_eq/=. right. eauto 10.
Qed.

Lemma sys_close_inv (d : Z) (fault : option Z) (w : world) :
  fds (sys_close d fault w).2 = delete d (fds w) ∧
  files (sys_close d fault w).2 = files w.
Proof.
  unfold sys_close. destruct (fds w !! d) eqn:Hd; [destruct fault|]; simpl.
  - done.
  - done.
  - by rewrite delete_id.
Qed.

Lemma unused_lookup (d v : Z) (h : handle) (w : world) :
  unused v w = true → fds w !! d = Some h → v ≠ d.
Proof. intros [_ Hv]%unused_spec Hd ->. congruence. Qed.

(** No transition removes a file. *)
Lemma step_keeps_files (s s' : state) (e : event) (p : string) :
  step s e = Some s' →
  is_Some (files (os s) !! p) → is_Some (files (os s') !! p).
Proof.
  destruct s as [l m w]; simpl. intros H Hp.
  step_inv H;
    try match goal with
      | |- context [sig_handler ?g ?a ?b ?c ?m ?w] =>
          destruct (sig_handler_spec g a b c m w)
            as (w' & r1 & r2 & r3 & Hs & _ & _ & Hf & _);
          rewrite Hs; simpl; rewrite Hf; done
      end;
    simpl; try done;
    repeat match goal with
      | H : sys_accept _ _ _ _ = Some _ |- _ =>
          apply sys_accept_inv in H as [-> _]
      | H : sys_open _ _ _ _ _ = Some _ |- _ =>
          apply sys_open_inv in H as [(_ & _ & ->)|(_ & _ & c & ->)]
      | H : sys_read _ _ _ _ = Some _ |- _ =>
          apply sys_read_inv in H as [-> _]
      | H : sys_write _ _ _ _ = Some _ |- _ =>
          apply sys_write_inv in H as [[_ ->]|(? & ? & ? & ? & ? & _ & _ & ->)]
      end;
    rewrite ?(proj2 (sys_close_inv _ _ _)), ?(proj1 (sys_access_inv _ _ _));
    try done;
    try (rewrite lookup_insert; case_decide; done).
Qed.

Lemma run_keeps_files (evs : list event) (p : string) :
  ∀ s s' : state,
    run s evs = Some s' →
    is_Some (files (os s) !! p) → is_Some (files (os s') !! p).
Proof.
  induction evs as [|e evs IH]; intros s s' H Hp; simpl in H.
  - by simplify_eq.
  - destruct (step s e) as [s1|] eqn:Hs; [|discriminate].
    eapply IH; [exact H|]. by eapply step_keeps_files.
Qed.

(** Uses the facts the calls leave in the context. *)
Ltac sys_facts :=
  repeat match goal with
    | H : sys_accept _ _ _ _ = Some _ |- _ =>
        apply sys_accept_inv in H as [? [[-> ?]|[? ?]]]
    | H : sys_open _ _ _ _ _ = Some _ |- _ =>
        apply sys_open_inv in H as [(-> & ? & ?)|(? & ? & ? & ?)]
    | H : sys_read _ _ _ _ = Some _ |- _ =>
        apply sys_read_inv in H as [? [?|[? ?]]]
    | H : sys_write _ _ _ _ = Some _ |- _ =>
        apply sys_write_inv in H as [[? ?]|(? & ? & ? & ? & ? & ? & ? & ?)]
    end.

Ltac fds_lookup :=
  simpl;
  rewrite ?(proj1 (sys_close_inv _ _ _)), ?(proj1 (proj2 (sys_access_inv _ _ _)));
  repeat match goal with
    | H : fds _ = _ |- _ => rewrite H
    end;
  rewrite ?lookup_insert_ne, ?lookup_delete_ne by (done || eauto using unused_lookup);
  try done.

(** A descriptor none of the program's variables holds is never closed and
    never read, not even by the signal handler. *)
Lemma step_keeps_lost (d : Z) (h : handle) (s s' : state) (e : event) :
  step s e = Some s' → lost d h s → lost d h s'.
Proof.
  destruct s as [l m w]; unfold lost; simpl.
  intros H (Hd & H0 & Hfd & Hsd & Hcl).
  step_inv H;
    try match goal with
      | |- context [sig_handler ?g ?a ?b ?c ?m ?w] =>
          destruct (sig_handler_spec g a b c m w)
            as (w' & r1 & r2 & r3 & Hs & _ & _ & _ & _ & _ & _ & Hk);
          rewrite Hs; simpl; rewrite Hk by done; done
      end;
    sys_facts; simpl; repeat split; try done; try lia; fds_lookup;
    try (intros ->; eauto using unused_lookup; congruence).
  all: eapply unused_lookup; [eassumption|simpl; eassumption].
Qed.

Lemma run_keeps_lost (d : Z) (h : handle) (evs : list event) :
  ∀ s s' : state, run s evs = Some s' → lost d h s → lost d h s'.
Proof.
  induction evs as [|e evs IH]; intros s s' H Hl; simpl in H.
  - by simplify_eq.
  - destruct (step s e) as [s1|] eqn:Hs; [|discriminate].
    eapply IH; [exact H|]. by eapply step_keeps_lost.
Qed.

(** While the process runs, a descriptor that only [client] may still hold,
    and only while the program waits in [accept], is neither closed nor
    read. *)
Lemma step_keeps_out_of_reach (d : Z) (h : handle) (s s' : state) (e : event) :
  step s e = Some s' → running (pc s') = true →
  out_of_reach d h s → out_of_reach d h s'.
Proof.
  destruct s as [l m w]; unfold out_of_reach; simpl.
  intros H Hrun (Hd & H0 & Hfd & Hsd & Hcl).
  step_inv H;
    try match goal with
      | _ : context [sig_handler ?g ?a ?b ?c ?m ?w] |- _ =>
          destruct (sig_handler_spec g a b c m w) as (w' & r1 & r2 & r3 & Hs & _);
          rewrite Hs in Hrun; discriminate Hrun
      end;
    try (assert (client m ≠ d) by (intros E; by specialize (Hcl E)));
    sys_facts; simpl; repeat split; try done; try lia; fds_lookup;
    try (intros ->; exfalso; eauto using unused_lookup; congruence).
  all: try (eapply unused_lookup; [eassumption|simpl; eassumption]).
  all: try (intros E; exfalso; revert E; eapply unused_lookup;
            [eassumption|simpl; eassumption]).
  all: try (intros; exfalso; lia).
Qed.

Lemma run_exited (evs : list event) (s s' : state) :
  running (pc s) = false → run s evs = Some s' → s' = s.
Proof.
  intros Hr H. destruct evs as [|e evs]; simpl in H; [by simplify_eq|].
  unfold step in H. rewrite Hr in H. discriminate.
Qed.

Lemma run_keeps_out_of_reach (d : Z) (h : handle) (evs : list event) :
  ∀ s s' : state,
    run s evs = Some s' → running (pc s') = true →
    out_of_reach d h s → out_of_reach d h s'.
Proof.
  induction evs as [|e evs IH]; intros s s' H Hr Ho; simpl in H.
  - by simplify_eq.
  - destruct (step s e) as [s1|] eqn:Hs; [|discriminate].
    destruct (running (pc s1)) eqn:Hr1.
    + eapply IH; [exact H|exact Hr|]. by eapply step_keeps_out_of_reach.
    + apply (run_exited _ _ _ Hr1) in H. subst s'. congruence.
Qed.

(** ** Reachable states *)

Ltac kinds_differ :=
  repeat match goal with
    | H1 : fds ?w !! ?a = Some HListen, H2 : fds ?w !! ?b = Some (HSock _) |- _ =>
        lazymatch goal with
        | _ : a ≠ b |- _ => fail
        | _ => assert (a ≠ b) by (intros E; rewrite E in H1; congruence);
               assert (b ≠ a) by (intros E; rewrite E in H2; congruence)
        end
    | H1 : fds ?w !! ?a = Some HListen, H2 : fds ?w !! ?b = Some (HFile _ _ _) |- _ =>
        lazymatch goal with
        | _ : a ≠ b |- _ => fail
        | _ => assert (a ≠ b) by (intros E; rewrite E in H1; congruence);
               assert (b ≠ a) by (intros E; rewrite E in H2; congruence)
        end
    | H1 : fds ?w !! ?a = Some (HSock _), H2 : fds ?w !! ?b = Some (HFile _ _ _) |- _ =>
        lazymatch goal with
        | _ : a ≠ b |- _ => fail
        | _ => assert (a ≠ b) by (intros E; rewrite E in H1; congruence);
               assert (b ≠ a) by (intros E; rewrite E in H2; congruence)
        end
    end.

Ltac wf_finish :=
  simpl;
  rewrite ?(proj1 (sys_close_inv _ _ _)), ?(proj2 (sys_close_inv _ _ _)),
    ?(proj1 (sys_access_inv _ _ _)), ?(proj1 (proj2 (sys_access_inv _ _ _)));
  repeat match goal with
    | H : files _ = _ |- _ => rewrite H
    | H : fds _ = _ |- _ => rewrite H
    end;
  simpl;
  rewrite ?lookup_insert_eq;
  rewrite ?lookup_insert_ne, ?lookup_delete_ne
    by (done || (eapply unused_lookup; [eassumption|simpl; eassumption]));
  rewrite ?lookup_insert_eq;
  eauto.

Lemma step_keeps_well_formed (s s' : state) (e : event) :
  step s e = Some s' → well_formed s → well_formed s'.
Proof.
  destruct s as [l m w]; unfold well_formed; simpl. intros H Hwf Hrun'.
  assert (Hrun : running l = true).
  { unfold step in H. simpl in H. by destruct (running l). }
  destruct (Hwf Hrun) as (Hsd & Hcl & Hfile & Hflag). clear Hwf.
  step_inv H;
    try match goal with
      | _ : context [sig_handler ?g ?a ?b ?c ?m ?w] |- _ =>
          destruct (sig_handler_spec g a b c m w) as (w' & r1 & r2 & r3 & Hs & _);
          rewrite Hs in Hrun'; discriminate Hrun'
      end;
    simpl in *;
    try (split; [|split; [|split]]; assumption);
    try (destruct Hcl as (Hc0 & S0 & Hc); [done|]);
    try (destruct Hfile as (Hfs & off0 & Hf); [done|]);
    try (specialize (Hflag eq_refl));
    sys_facts;
    repeat match goal with
      | H : (_ =? _) = true |- _ => apply Z.eqb_eq in H
      | H : (_ =? _) = false |- _ => apply Z.eqb_neq in H
      | H : unused ?v ?w = true |- _ =>
          lazymatch goal with
          | _ : 0 ≤ v |- _ => fail
          | _ => pose proof (proj1 (proj1 (unused_spec v w) H))
          end
      end;
    try lia;
    simplify_eq/=;
    kinds_differ;
    (split; [|split; [|split]]);
    try (intros ?; discriminate); try (intros _);
    try (split; [done || lia|]);
    try (split; [wf_finish|]);
    wf_finish.
Qed.

Lemma run_keeps_well_formed (evs : list event) :
  ∀ s s' : state, run s evs = Some s' → well_formed s → well_formed s'.
Proof.
  induction evs as [|e evs IH]; intros s s' H Hwf; simpl in H.
  - by simplify_eq.
  - destruct (step s e) as [s1|] eqn:Hs; [|discriminate].
    eapply IH; [exact H|]. by eapply step_keeps_well_formed.
Qed.

(** Every state the process reaches from the entry of the loop is well
    formed: the listening socket is open; from line 182 to line 209 [client]
    is an open connected socket; from line 202 to line 208 [fd] is the open
    output file, named [filename]; from line 185 on [client_connected] is
    set. *)
Lemma reachable_well_formed (t0 lsock : Z) (fs : gmap string (list byte))
    (evs : list event) (s : state) :
  run (entry t0 lsock fs) evs = Some s → well_formed s.
Proof.
  intros Hrun. eapply run_keeps_well_formed; [exact Hrun|].
  unfold well_formed. simpl. intros _.
  split; [apply lookup_singleton_eq|]. repeat split; discriminate.
Qed.

(** ** Error paths of the loop *)

Lemma step_open_fails (l : label) (m : vars) (w : world) (e : Z) :
  l = L196 →
  step (State l m w) (EOpen (Err e)) =
    Some (State L177 (set_fd (-1) m)
            (syslog LOG_WARNING "error opening printfile %s: %s"
               [AStr (filename m); AErrno e]
               (log_call (COpen (filename m) (Z.lor O_CREAT O_WRONLY)
                            (Z.lor S_IRUSR S_IWUSR) (-1))
                  (set_errno e
                     (syslog LOG_INFO "start printing to %s" [AStr (filename m)] w))))).
Proof. intros ->. reflexivity. Qed.

Lemma step_accept_ok (m : vars) (w : world) (d : Z) (inb : list byte) :
  fds w !! sd m = Some HListen →
  unused d w = true →
  step (State L177 m w) (EAccept (Ok d) inb) =
    Some (State L182 (set_client d m)
            (log_call (CAccept (sd m) d)
               (set_fds (<[d := HSock inb]> (fds w)) w))).
Proof.
  intros Hs Hd. unfold step. simpl. unfold sys_accept. rewrite Hs, Hd.
  apply unused_spec in Hd as [Hd _].
  destruct (Z.eqb_spec d (-1)); [lia|reflexivity].
Qed.

(** C5: an [accept] failure and a failure to open the client's file are each
    logged at warning level and lead back to [accept]; after a failed open
    no byte of that client is read, hence none is written to any file, and
    the next client is accepted. *)
Theorem recoverable_errors_continue (sa so : state) (ea eo : Z) (inb S : list byte) :
  pc sa = L177 →
  pc so = L196 →
  fds (os so) !! sd (mem so) = Some HListen →
  fds (os so) !! client (mem so) = Some (HSock S) →
  0 ≤ client (mem so) →
  (∃ sa' : state,
     step sa (EAccept (Err ea) inb) = Some sa' ∧
     pc sa' = L177 ∧
     last (calls (os sa')) =
       Some (CSyslog LOG_WARNING "error on accept(): %s\n" [AErrno ea]) ∧
     fds (os sa') = fds (os sa) ∧ files (os sa') = files (os sa)) ∧
  (∃ so' : state,
     step so (EOpen (Err eo)) = Some so' ∧
     pc so' = L177 ∧
     last (calls (os so')) =
       Some (CSyslog LOG_WARNING "error opening printfile %s: %s"
               [AStr (filename (mem so)); AErrno eo]) ∧
     files (os so') = files (os so) ∧
     (∀ (d : Z) (S' : list byte),
        unused d (os so') = true →
        ∃ s2 : state, step so' (EAccept (Ok d) S') = Some s2 ∧ pc s2 = L182) ∧
     (∀ (evs : list event) (s2 : state),
        run so' evs = Some s2 → running (pc s2) = true →
        fds (os s2) !! client (mem so) = Some (HSock S))).
Proof.
  destruct sa as [la ma wa], so as [lo mo wo]; simpl.
  intros -> -> Hsd Hc H0. split.
  - eexists. split; [reflexivity|]. simpl. by rewrite last_snoc.
  - rewrite step_open_fails by done.
    eexists. split; [reflexivity|]. simpl.
    split; [reflexivity|]. split; [by rewrite last_snoc|]. split; [reflexivity|].
    split.
    + intros d S' Hd. rewrite step_accept_ok by done. eauto.
    + intros evs s2 Hrun Hr.
      eapply (run_keeps_out_of_reach (client mo) (HSock S)) in Hrun; [|exact Hr|].
      * apply Hrun.
      * unfold out_of_reach. simpl. repeat split; try done; try lia.
        intros E. rewrite E in Hsd. congruence.
Qed.

(** C10: when the open of the client's file fails, the loop is back at
    [accept] with the client socket still open and [client_connected] still
    set; the next successful [accept] overwrites [client], and from then on
    the socket stays open in every state of the process, the state the
    signal handler leaves included. *)
Theorem open_failure_leaks_client (s : state) (e d : Z) (S S' : list byte) :
  pc s = L196 →
  fds (os s) !! sd (mem s) = Some HListen →
  fds (os s) !! client (mem s) = Some (HSock S) →
  0 ≤ client (mem s) →
  client_connected (mem s) = 1 →
  unused d (os s) = true →
  ∃ s1 s2 : state,
    step s (EOpen (Err e)) = Some s1 ∧
    pc s1 = L177 ∧
    client (mem s1) = client (mem s) ∧
    client_connected (mem s1) = 1 ∧
    fds (os s1) = fds (os s) ∧
    step s1 (EAccept (Ok d) S') = Some s2 ∧
    client (mem s2) = d ∧
    d ≠ client (mem s) ∧
    fds (os s2) !! client (mem s) = Some (HSock S) ∧
    (∀ (evs : list event) (s3 : state),
       run s2 evs = Some s3 →
       fds (os s3) !! client (mem s) = Some (HSock S)).
Proof.
  destruct s as [l m w]; simpl. intros -> Hsd Hc H0 Hcc Hd.
  assert (Hne : d ≠ client m) by (eapply unused_lookup; eauto).
  rewrite step_open_fails by done.
  eexists _, _. split; [reflexivity|]. simpl.
  rewrite step_accept_ok by done.
  repeat split; try done; simpl.
  - by rewrite lookup_insert_ne.
  - intros evs s3 Hrun.
    eapply (run_keeps_lost (client m) (HSock S)) in Hrun; [apply Hrun|].
    unfold lost. simpl. rewrite lookup_insert_ne by done.
    repeat split; try done; try lia.
    intros E. rewrite E in Hsd. congruence.
Qed.

(** ** The copy step, line 204 *)


(** ** File name selection, lines 185-194 *)

Lemma string_app_nil_r (a : string) : a +:+ "" = a.
Proof.
  induction a as [|c a IH]; [reflexivity|].
  change (String c (a +:+ "") = String c a). by rewrite IH.
Qed.

Lemma snprintf_fallback (r : Z) :
  0 ≤ r ≤ RAND_MAX →
  snprintf 64 "%sfile-%i" [AStr PRINTOUT_PREFIX; AInt r] = fallback_name r.
Proof.
  intros Hr. unfold snprintf, fallback_name.
  assert (Hf : format "%sfile-%i" [AStr PRINTOUT_PREFIX; AInt r]
               = PRINTOUT_PREFIX +:+ "file-" +:+ pretty r).
  { simpl. by rewrite string_app_nil_r. }
  rewrite Hf. apply substring_whole.
  rewrite !string_length_app. pose proof (pretty_rand_length r Hr). simpl. lia.
Qed.

Lemma snprintf_timestamp (ts : string) :
  (String.length ts + 1 ≤ 22)%nat →
  snprintf 64 "%s%s" [AStr PRINTOUT_PREFIX; AStr ts] = PRINTOUT_PREFIX +:+ ts.
Proof.
  intros Hts. unfold snprintf.
  assert (Hf : format "%s%s" [AStr PRINTOUT_PREFIX; AStr ts] = PRINTOUT_PREFIX +:+ ts).
  { simpl. by rewrite string_app_nil_r. }
  rewrite Hf. apply substring_whole.
  rewrite string_length_app. simpl. lia.
Qed.

Lemma strftime_fits (n : nat) (fmt : string) (x : tm) (ts : string) :
  strftime n fmt x = Some ts → (String.length ts + 1 ≤ n)%nat.
Proof.
  unfold strftime. intros H. case_match; [|discriminate]. simplify_eq.
  apply andb_prop in H0 as [H0 _]. by apply bool_decide_eq_true in H0.
Qed.

(** C7: when no time stamp can be formed, the program draws a random
    integer, forms [<prefix>file-<integer>] and probes the file system; the
    name is accepted exactly when no file of that name exists, otherwise
    another integer is drawn; so once an accepted name has been created by
    [open], no later accepted fallback name equals it. *)
Theorem fallback_probes_before_accepting (s0 s : state) (r : Z) :
  pc s0 = L185 →
  timestamp_of localtime (mem s0) = None →
  pc s = L191 →
  0 ≤ r ≤ RAND_MAX →
  (∃ s0' : state,
     step s0 ETau = Some s0' ∧ pc s0' = L191 ∧
     last (calls (os s0')) =
       Some (CSyslog LOG_WARNING "error getting current time\n" [])) ∧
  ∃ s1 s2 : state,
    step s (ERand r) = Some s1 ∧
    pc s1 = L193 ∧
    filename (mem s1) = fallback_name r ∧
    step s1 ETau = Some s2 ∧
    filename (mem s2) = fallback_name r ∧
    (∃ res, last (calls (os s2)) = Some (CAccess (fallback_name r) F_OK res)) ∧
    (is_Some (files (os s) !! fallback_name r) → pc s2 = L191) ∧
    (files (os s) !! fallback_name r = None → pc s2 = L196) ∧
    (pc s2 = L196 → files (os s) !! fallback_name r = None) ∧
    (∀ (d : Z) (s3 : state) (evs : list event) (s4 s5 : state),
       pc s2 = L196 →
       step s2 (EOpen (Ok d)) = Some s3 →
       run s3 evs = Some s4 →
       pc s4 = L193 →
       step s4 ETau = Some s5 →
       pc s5 = L196 →
       filename (mem s5) ≠ fallback_name r).
Proof.
  destruct s0 as [l0 m0 w0], s as [l m w]; simpl.
  intros -> Hts -> Hr. split.
  { unfold step. simpl. rewrite Hts. eexists. split; [reflexivity|].
    simpl. by rewrite last_snoc. }
  unfold step at 1. simpl.
  destruct (Z.leb_spec 0 r) as [_|]; [|lia].
  destruct (Z.leb_spec r RAND_MAX) as [_|]; [|lia]. simpl.
  rewrite snprintf_fallback by done.
  destruct (files w !! fallback_name r) as [old|] eqn:Hf.
  - eexists _, _. split; [reflexivity|]. simpl.
    split; [reflexivity|]. split; [reflexivity|].
    unfold step at 1. simpl. unfold sys_access. simpl. rewrite Hf. simpl.
    split; [reflexivity|]. simpl. rewrite last_snoc.
    repeat split; eauto; done.
  - eexists _, _. split; [reflexivity|]. simpl.
    split; [reflexivity|]. split; [reflexivity|].
    unfold step at 1. simpl. unfold sys_access. simpl. rewrite Hf. simpl.
    split; [reflexivity|]. simpl. rewrite last_snoc.
    repeat split; eauto; try done.
    intros d s3 evs s4 s5 _ Hopen Hrun Hpc4 Hstep Hpc5.
    assert (Hcreated : is_Some (files (os s3) !! fallback_name r)).
    { unfold step in Hopen. simpl in Hopen. unfold sys_open in Hopen.
      repeat (case_match; try discriminate); simplify_eq/=;
        rewrite lookup_insert_eq; eauto. }
    eapply run_keeps_files in Hcreated; [|exact Hrun].
    destruct s4 as [l4 m4 w4]; simpl in *. subst l4.
    unfold step in Hstep. simpl in Hstep. unfold sys_access in Hstep.
    destruct (files w4 !! filename m4) eqn:Hf4; simpl in Hstep; simplify_eq/=.
    intros E. rewrite <-E, Hf4 in Hcreated. by destruct Hcreated.
Qed.

(** The name chosen at line 187 by a process that entered the loop with
    [t = t0] is the time stamp of [t0], whatever the clock shows when the
    client is accepted. *)
Lemma filename_from_startup_time (t0 lsock : Z) (fs : gmap string (list byte))
    (evs : list event) (s s' : state) :
  run (entry t0 lsock fs) evs = Some s →
  pc s = L185 →
  step s ETau = Some s' →
  pc s' = L196 →
  ∃ ts : string,
    timestamp_of localtime (entry_vars t0 lsock) = Some ts ∧
    filename (mem s') = PRINTOUT_PREFIX +:+ ts.
Proof.
  intros Hrun Hpc Hstep Hpc'.
  apply run_keeps_t in Hrun. simpl in Hrun.
  destruct s as [l m w]; simpl in *. subst l.
  unfold step in Hstep. simpl in Hstep.
  unfold timestamp_of in *. simpl. rewrite Hrun in Hstep.
  destruct (localtime t0) as [x|]; [|by simplify_eq/=].
  destruct (strftime 22 "%d.%m.%Y-%T" x) as [ts|] eqn:Hts; [|by simplify_eq/=].
  simplify_eq/=. exists ts. split; [reflexivity|].
  apply snprintf_timestamp. by eapply strftime_fits.
Qed.

(** ** One pass through the loop body *)

(** The state a completed job leaves, variable by variable. *)
Lemma job_full_state (l : label) (m : vars) (w : world) (S : list byte) (d : Z)
    (ns : list Z) (f1 f2 : option Z) :
  l = L196 →
  fds w !! client m = Some (HSock S) →
  unused d w = true →
  chunking ns S →
  ∃ w' : world,
    run (State l m w) (job_events d (full_writes ns) f1 f2) =
      Some (State L177
              (set_client_connected 0
                 (set_fd_open 0
                    (set_msg zero_buffer (set_bytes_read 0 (set_fd d m)))))
              w') ∧
    files w' = <[filename m := S ++ drop (length S) (default [] (files w !! filename m))]>
                 (files w) ∧
    fds w' = delete (client m) (fds w) ∧
    disk w' = disk w ∧ clock w' = clock w.
Proof.
  intros -> Hc Hd Hns.
  apply unused_spec in Hd as Hd'. destruct Hd' as [Hd0 Hdn].
  assert (Hne : client m ≠ d) by (intros E; rewrite E in Hc; congruence).
  unfold job_events. simpl. unfold step at 1. simpl.
  rewrite sys_open_new by exact Hd. simpl.
  destruct (Z.eqb_spec d (-1)) as [|_]; [lia|].
  unfold step at 1. simpl.
  rewrite run_app.
  lazymatch goal with
  | |- context [State L204r ?m2 ?w2] =>
      destruct (copy_loop_full ns (State L204r m2 w2) S (filename m) 0%nat
                  (default [] (files w !! filename m)))
        as (buf & cs & Hrun & Hst); simpl
  end.
  - reflexivity.
  - by rewrite lookup_insert_ne.
  - apply lookup_insert_eq.
  - apply lookup_insert_eq.
  - lia.
  - exact Hns.
  - rewrite Hrun. simpl. unfold step. simpl.
    erewrite (sys_close_open d f1) by apply lookup_insert_eq. simpl.
    erewrite (sys_close_open (client m) f2); simpl.
    2:{ rewrite fds_close_errno. simpl.
        rewrite lookup_delete_ne, lookup_insert_ne, lookup_insert_eq by done.
        reflexivity. }
    eexists. split; [reflexivity|]. simpl.
    rewrite ?fds_close_errno, ?files_close_errno. simpl.
    rewrite ?fds_close_errno, ?files_close_errno. simpl.
    split; [by rewrite insert_insert_eq|].
    split.
    { apply map_eq; intros i.
      rewrite ?lookup_delete, ?lookup_insert; repeat case_decide; subst; done. }
    by destruct f1, f2.
Qed.

Lemma step_to_open (m : vars) (w : world) (d : Z) (S : list byte) (ts : string) :
  fds w !! sd m = Some HListen →
  unused d w = true →
  timestamp_of localtime m = Some ts →
  ∃ w' : world,
    run (State L177 m w) (to_open d S) =
      Some (State L196
              (set_filename (stamp_name ts)
                 (set_client_connected 1 (set_client d m)))
              w') ∧
    fds w' = <[d := HSock S]> (fds w) ∧
    files w' = files w ∧ disk w' = disk w ∧ clock w' = clock w.
Proof.
  intros Hsd Hd Hts. unfold to_open. simpl.
  rewrite step_accept_ok by done.
  unfold step. simpl.
  assert (Ht : timestamp_of localtime (set_client_connected 1 (set_client d m))
               = Some ts) by exact Hts.
  rewrite Ht.
  assert (Hfit : (String.length ts + 1 ≤ 22)%nat).
  { unfold timestamp_of in Hts. destruct (localtime (t m)); [|discriminate].
    by eapply strftime_fits. }
  rewrite snprintf_timestamp by exact Hfit.
  eexists. split; [reflexivity|]. done.
Qed.

Lemma run_app_some (s s1 : state) (a b : list event) :
  run s a = Some s1 → run s (a ++ b) = run s1 b.
Proof. intros H. by rewrite run_app, H. Qed.

Lemma iteration_full (s : state) (d d' : Z) (S : list byte)
    (ns : list Z) (f1 f2 : option Z) (ts : string) :
  pc s = L177 →
  fds (os s) !! sd (mem s) = Some HListen →
  unused d (os s) = true →
  unused d' (os s) = true →
  d ≠ d' →
  timestamp_of localtime (mem s) = Some ts →
  chunking ns S →
  ∃ s' : state,
    run s (iteration_events d d' S ns f1 f2) = Some s' ∧
    pc s' = L177 ∧
    fds (os s') = fds (os s) ∧
    fd_open (mem s') = 0 ∧ client_connected (mem s') = 0 ∧
    msg (mem s') = zero_buffer ∧
    sd (mem s') = sd (mem s) ∧ t (mem s') = t (mem s) ∧
    filename (mem s') = stamp_name ts ∧
    files (os s') =
      <[stamp_name ts :=
          S ++ drop (length S) (default [] (files (os s) !! stamp_name ts))]>
        (files (os s)).
Proof.
  destruct s as [l m w]. unfold iteration_events.
  cbn [pc mem os]. intros -> Hsd Hd Hd' Hne Hts Hns.
  destruct (step_to_open m w d S ts Hsd Hd Hts) as (w1 & Hrun1 & Hf1 & Hfs1 & _).
  rewrite (run_app_some _ _ _ _ Hrun1).
  edestruct (job_full_state L196
               (set_filename (stamp_name ts) (set_client_connected 1 (set_client d m)))
               w1 S d' ns f1 f2) as (w2 & -> & Hfs2 & Hf2 & _); simpl.
  - reflexivity.
  - rewrite Hf1. apply lookup_insert_eq.
  - apply unused_spec. apply unused_spec in Hd' as [? Hn]. split; [done|].
    rewrite Hf1. by rewrite lookup_insert_ne.
  - exact Hns.
  - eexists. split; [reflexivity|]. simpl.
    rewrite Hf2, Hfs2, Hf1, Hfs1. simpl.
    repeat split; try done.
    apply unused_spec in Hd as [_ Hn]. rewrite delete_insert_eq.
    by apply delete_id.
Qed.

(** X1: a pass through the loop body that meets no error leaves the descriptor
    table as it found it, both flags clear and the buffer zeroed; the file
    named by the time stamp holds the client's bytes from offset 0. *)
Theorem iteration_restores_handles (s : state) (d d' : Z) (S : list byte)
    (ns : list Z) (f1 f2 : option Z) (ts : string) :
  pc s = L177 →
  fds (os s) !! sd (mem s) = Some HListen →
  unused d (os s) = true →
  unused d' (os s) = true →
  d ≠ d' →
  timestamp_of localtime (mem s) = Some ts →
  chunking ns S →
  ∃ s' : state,
    run s (iteration_events d d' S ns f1 f2) = Some s' ∧
    pc s' = L177 ∧
    fds (os s') = fds (os s) ∧
    fd_open (mem s') = 0 ∧ client_connected (mem s') = 0 ∧
    msg (mem s') = zero_buffer ∧
    sd (mem s') = sd (mem s) ∧ t (mem s') = t (mem s) ∧
    filename (mem s') = stamp_name ts ∧
    files (os s') =
      <[stamp_name ts :=
          S ++ drop (length S) (default [] (files (os s) !! stamp_name ts))]>
        (files (os s)).
Proof. apply iteration_full. Qed.

(** X2: the second of two such passes writes into the file of the first: what
    the first job stored beyond the length of the second stays in the file. *)
Theorem second_job_overwrites_first (s : state) (d1 d1' d2 d2' : Z)
    (S1 S2 : list byte) (ns1 ns2 : list Z) (f1 f2 f3 f4 : option Z) (ts : string) :
  pc s = L177 →
  fds (os s) !! sd (mem s) = Some HListen →
  unused d1 (os s) = true → unused d1' (os s) = true → d1 ≠ d1' →
  unused d2 (os s) = true → unused d2' (os s) = true → d2 ≠ d2' →
  timestamp_of localtime (mem s) = Some ts →
  files (os s) !! stamp_name ts = None →
  chunking ns1 S1 → chunking ns2 S2 →
  ∃ s' : state,
    run s (iteration_events d1 d1' S1 ns1 f1 f2
             ++ iteration_events d2 d2' S2 ns2 f3 f4) = Some s' ∧
    pc s' = L177 ∧
    files (os s') = <[stamp_name ts := S2 ++ drop (length S2) S1]> (files (os s)).
Proof.
  intros Hpc Hsd Hd1 Hd1' Hne1 Hd2 Hd2' Hne2 Hts Hnew Hns1 Hns2.
  destruct (iteration_full s d1 d1' S1 ns1 f1 f2 ts)
    as (s1 & Hrun1 & Hpc1 & Hfds1 & _ & _ & _ & Hsd1 & Ht1 & _ & Hfiles1); try done.
  rewrite (run_app_some _ _ _ _ Hrun1).
  destruct (iteration_full s1 d2 d2' S2 ns2 f3 f4 ts)
    as (s2 & Hrun2 & Hpc2 & _ & _ & _ & _ & _ & _ & _ & Hfiles2); try done.
  - by rewrite Hfds1, Hsd1.
  - apply unused_spec. apply unused_spec in Hd2. by rewrite Hfds1.
  - apply unused_spec. apply unused_spec in Hd2'. by rewrite Hfds1.
  - unfold timestamp_of in *. by rewrite Ht1.
  - exists s2. split; [exact Hrun2|]. split; [exact Hpc2|].
    rewrite Hfiles2, Hfiles1, lookup_insert_eq, insert_insert_eq, Hnew. simpl.
    by rewrite drop_nil, app_nil_r.
Qed.

(** ** Invariants of the loop *)

Lemma run_invariant (P : state → Prop) :
  (∀ (s s' : state) (e : event), step s e = Some s' → P s → P s') →
  ∀ (evs : list event) (s s' : state), run s evs = Some s' → P s → P s'.
Proof.
  intros Hstep evs. induction evs as [|e evs IH]; intros s s' H HP; simpl in H.
  - by simplify_eq.
  - destruct (step s e) as [s1|] eqn:Hs; [|discriminate]. eauto.
Qed.

Lemma sys_read_length (d count v : Z) (r : ret) (data : list byte) (w w' : world) :
  sys_read d count r w = Some (v, data, w') →
  0 ≤ count → Z.of_nat (length data) ≤ count.
Proof.
  unfold sys_read. intros H Hc.
  destruct r as [n|e]; [|simplify_eq/=; lia].
  destruct (fds w !! d) as [[|inbound|]|]; try discriminate.
  destruct ((0 <=? n) && (n <=? count) && (n <=? Z.of_nat (length inbound))
            && ((0 <? n) || match inbound with [] => true | _ => false end))
    eqn:Hv; [|discriminate].
  apply andb_prop in Hv as [Hv _]. apply andb_prop in Hv as [Hv _].
  apply andb_prop in Hv as [Hv1 Hv2]. apply Z.leb_le in Hv1, Hv2.
  simplify_eq/=. rewrite length_take. lia.
Qed.

Lemma step_keeps_buffer_clean (s s' : state) (e : event) :
  step s e = Some s' → buffer_clean s → buffer_clean s'.
Proof.
  destruct s as [l m w]; unfold buffer_clean; simpl. intros H [Hlen Hz].
  step_inv H;
    try match goal with
      | |- context [sig_handler ?g ?a ?b ?c ?m ?w] =>
          destruct (sig_handler_spec g a b c m w) as (w' & r1 & r2 & r3 & Hs & _);
          rewrite Hs; simpl; split; [done|discriminate]
      end;
    simpl in *; try (split; [done|]; try discriminate; by auto).
  - match goal with
    | H : sys_read _ _ _ _ = Some _ |- _ =>
        apply sys_read_length in H; [|unfold BUFSIZE; lia]
    end.
    split; [|discriminate].
    rewrite length_app, length_drop. unfold BUFSIZE in *. lia.
  - match goal with
    | H : sys_read _ _ _ _ = Some _ |- _ =>
        apply sys_read_length in H; [|unfold BUFSIZE; lia]
    end.
    split; [|discriminate].
    rewrite length_app, length_drop. unfold BUFSIZE in *. lia.
Qed.

(** X3: the buffer never grows beyond its 512 bytes, and between two jobs it
    holds no byte of a job: outside line 204 and line 206 it is all zeros. *)
Theorem buffer_clean_between_jobs (t0 lsock : Z) (fs : gmap string (list byte))
    (evs : list event) (s : state) :
  run (entry t0 lsock fs) evs = Some s →
  length (msg (mem s)) = 512%nat ∧
  (outside_copy (pc s) = true → msg (mem s) = replicate 512 x00).
Proof.
  intros Hrun.
  apply (run_invariant buffer_clean step_keeps_buffer_clean _ _ _ Hrun).
  split; [reflexivity|done].
Qed.

Ltac old_file Hinv :=
  match goal with
  | H : fds _ !! _ = Some (HFile _ _ _) |- _ =>
      destruct (Hinv _ _ _ _ H) as (? & ? & ?); simplify_eq/=; try done
  end.

Lemma step_keeps_one_file (s s' : state) (e : event) :
  step s e = Some s' → one_file s → one_file s'.
Proof.
  destruct s as [l m w]; unfold one_file; simpl. intros H Hinv Hrun'.
  assert (Hrun : running l = true).
  { unfold step in H. simpl in H. by destruct (running l). }
  specialize (Hinv Hrun).
  step_inv H;
    try match goal with
      | _ : context [sig_handler ?g ?a ?b ?c ?m ?w] |- _ =>
          destruct (sig_handler_spec g a b c m w) as (w' & r1 & r2 & r3 & Hs & _);
          rewrite Hs in Hrun'; discriminate Hrun'
      end;
    simpl in *; try done;
    sys_facts;
    repeat match goal with
      | H : (_ =? _) = true |- _ => apply Z.eqb_eq in H
      | H : (_ =? _) = false |- _ => apply Z.eqb_neq in H
      end;
    try (exfalso;
         match goal with
         | H : unused ?v _ = true |- _ => apply unused_spec in H as [? ?]; lia
         end);
    try lia;
    intros ? ? ? ? Hlk; simpl in *;
    rewrite ?(proj1 (sys_close_inv _ _ _)),
      ?(proj1 (proj2 (sys_access_inv _ _ _))) in Hlk;
    repeat match goal with
      | H : fds _ = _ |- _ => rewrite H in Hlk; clear H
      end;
    try (apply lookup_insert_Some in Hlk as [[<- Hh]|[Hne Hlk]]);
    try (apply lookup_delete_Some in Hlk as [Hne Hlk]);
    simplify_eq/=; try done; try (by old_file Hinv).
Qed.

(** X4: while the process runs, at most one descriptor refers to a file: it is
    [fd], the file is the one named [filename], and this occurs between line
    202 and line 208 only. *)
Theorem one_output_file (t0 lsock : Z) (fs : gmap string (list byte))
    (evs : list event) (s : state) (d : Z) (p : string) (off : nat) (fl : Z) :
  run (entry t0 lsock fs) evs = Some s →
  running (pc s) = true →
  fds (os s) !! d = Some (HFile p off fl) →
  d = fd (mem s) ∧ p = filename (mem s) ∧ holds_file (pc s) = true.
Proof.
  intros Hrun Hr Hlk.
  assert (Hinv : one_file s).
  { apply (run_invariant one_file step_keeps_one_file _ _ _ Hrun).
    intros _ d' p' off' fl' H. simpl in H.
    apply lookup_singleton_Some in H as [_ H]. discriminate. }
  exact (Hinv Hr d p off fl Hlk).
Qed.

Lemma step_keeps_flag_window (s s' : state) (e : event) :
  step s e = Some s' → flag_window s → flag_window s'.
Proof.
  destruct s as [l m w]; unfold flag_window; simpl. intros H Hinv Hrun'.
  assert (Hrun : running l = true).
  { unfold step in H. simpl in H. by destruct (running l). }
  destruct (Hinv Hrun) as [Hflag Hclosed]. clear Hinv.
  step_inv H;
    try match goal with
      | _ : context [sig_handler ?g ?a ?b ?c ?m ?w] |- _ =>
          destruct (sig_handler_spec g a b c m w) as (w' & r1 & r2 & r3 & Hs & _);
          rewrite Hs in Hrun'; discriminate Hrun'
      end;
    simpl in *; try done;
    (split; [done|]); try (intros ?; discriminate); intros _.
  - rewrite (proj1 (sys_close_inv _ _ _)). apply lookup_delete_eq.
  - rewrite (proj1 (sys_close_inv _ _ _)). apply lookup_delete_None. auto.
Qed.

Lemma reachable_flag_window (t0 lsock : Z) (fs : gmap string (list byte))
    (evs : list event) (s : state) :
  run (entry t0 lsock fs) evs = Some s → flag_window s.
Proof.
  intros Hrun.
  apply (run_invariant flag_window step_keeps_flag_window _ _ _ Hrun).
  intros _. split; [done|discriminate].
Qed.

(** ** The signal handler and the windows of the flags *)

Lemma sys_close_closed (d : Z) (fault : option Z) (w : world) :
  fds w !! d = None →
  sys_close d fault w = (-1, log_call (CClose d (-1)) (set_errno EBADF w)).
Proof. intros Hd. unfold sys_close. by rewrite Hd. Qed.

(** The descriptor table the handler leaves: [sd] is removed, [client] and
    [fd] are removed when their flags are set, nothing else. *)
Lemma sig_handler_table (signum : Z) (f1 f2 f3 : option Z) (m : vars) (w : world) :
  ∃ w' : world,
    sig_handler signum f1 f2 f3 m w = State (Lexit 0) m w' ∧
    fds w' =
      delete (sd m)
        (guarded (fd_open m) (delete (fd m))
           (guarded (client_connected m) (delete (client m)) (fds w))).
Proof.
  unfold sig_handler, guarded.
  set (w1 := sys_sync (syslog LOG_NOTICE _ _ w)).
  assert (Hf1 : fds w1 = fds w) by reflexivity. clearbody w1.
  set (w2 := if client_connected m =? 0 then w1 else _).
  assert (Hf2 : fds w2 = if client_connected m =? 0 then fds w
                         else delete (client m) (fds w)).
  { unfold w2. destruct (client_connected m =? 0); [done|].
    destruct (handler_close (client m) f1
                "signal handler: error closing client socket: %s\n" w1)
      as (r & _ & Hf & _).
    simpl in Hf. by rewrite Hf, Hf1. }
  clearbody w2.
  set (w3 := if fd_open m =? 0 then w2 else _).
  assert (Hf3 : fds w3 = if fd_open m =? 0 then fds w2 else delete (fd m) (fds w2)).
  { unfold w3. destruct (fd_open m =? 0); [done|].
    destruct (handler_close (fd m) f2 "signal handler: error closing fd: %s\n" w2)
      as (r & _ & Hf & _).
    simpl in Hf. by rewrite Hf. }
  clearbody w3.
  destruct (handler_close (sd m) f3 "signal handler: error closing socket: %s\n" w3)
    as (r & _ & Hf & _).
  simpl in Hf.
  eexists. split; [reflexivity|]. simpl. rewrite Hf, Hf3, Hf2.
  by destruct (fd_open m =? 0), (client_connected m =? 0).
Qed.

(** X5: a termination signal that arrives after [open] has returned (line 197)
    and before [fd_open = 1] (line 202) ends the process without a [close] of
    the output file: its descriptor is still in the table the handler leaves. *)
Theorem signal_before_flag_skips_file (t0 lsock : Z) (fs : gmap string (list byte))
    (evs : list event) (s : state) (signum : Z) (f1 f2 f3 : option Z) :
  run (entry t0 lsock fs) evs = Some s →
  pc s = L202 →
  member signum signals = true →
  ∃ (s' : state) (off : nat),
    step s (ESignal signum f1 f2 f3) = Some s' ∧
    pc s' = Lexit EXIT_SUCCESS ∧
    fd_open (mem s) = 0 ∧
    fds (os s') !! fd (mem s)
      = Some (HFile (filename (mem s)) off (Z.lor O_CREAT O_WRONLY)).
Proof.
  intros Hrun Hpc Hsig.
  pose proof (reachable_well_formed _ _ _ _ _ Hrun) as Hwf.
  pose proof (reachable_flag_window _ _ _ _ _ Hrun) as Hfw.
  destruct s as [l m w]; simpl in *. subst l.
  destruct (Hwf eq_refl) as (Hsd & Hcl & Hfile & _).
  destruct (Hcl eq_refl) as (_ & S & Hc).
  destruct (Hfile eq_refl) as (_ & off & Hf).
  destruct (Hfw eq_refl) as [Hflag _]. simpl in Hflag.
  unfold step. simpl. rewrite Hsig.
  destruct (sig_handler_table signum f1 f2 f3 m w) as (w' & -> & Hfds).
  exists (State (Lexit 0) m w'), off. simpl.
  repeat split; try done.
  rewrite Hfds, Hflag. unfold guarded at 1. simpl in *.
  rewrite lookup_delete_ne by congruence.
  unfold guarded. destruct (client_connected m =? 0); [done|].
  by rewrite lookup_delete_ne by congruence.
Qed.

(** X6: a termination signal that arrives after [close(fd)] (line 208) and
    before [fd_open = 0] (line 210) makes the handler close [fd] a second
    time: that [close] fails with [EBADF] and is logged as a warning. *)
Theorem signal_after_close_closes_again (t0 lsock : Z) (fs : gmap string (list byte))
    (evs : list event) (s : state) (signum : Z) (f1 f2 f3 : option Z) :
  run (entry t0 lsock fs) evs = Some s →
  pc s = L209 ∨ pc s = L210 →
  member signum signals = true →
  ∃ (s' : state) (before after : list call),
    step s (ESignal signum f1 f2 f3) = Some s' ∧
    pc s' = Lexit EXIT_SUCCESS ∧
    fd_open (mem s) = 1 ∧
    fds (os s) !! fd (mem s) = None ∧
    calls (os s') =
      before
        ++ [CClose (fd (mem s)) (-1);
            CSyslog LOG_WARNING "signal handler: error closing fd: %s\n"
              [AErrno EBADF]]
        ++ after.
Proof.
  intros Hrun Hpc Hsig.
  pose proof (reachable_flag_window _ _ _ _ _ Hrun) as Hfw.
  destruct s as [l m w]; simpl in *.
  assert (Hr : running l = true) by (destruct Hpc; by subst).
  destruct (Hfw Hr) as [Hflag Hclosed].
  assert (Hfo : fd_open m = 1) by (destruct Hpc; by subst).
  assert (Hfd : fds w !! fd m = None) by (destruct Hpc; subst; by apply Hclosed).
  unfold step. simpl. rewrite Hr, Hsig.
  unfold sig_handler. rewrite Hfo. simpl.
  set (w1 := sys_sync (syslog LOG_NOTICE _ _ w)).
  assert (Hf1 : fds w1 = fds w) by reflexivity. clearbody w1.
  set (w2 := if client_connected m =? 0 then w1 else _).
  assert (Hf2 : fds w2 !! fd m = None).
  { unfold w2. destruct (client_connected m =? 0); [by rewrite Hf1|].
    destruct (handler_close (client m) f1
                "signal handler: error closing client socket: %s\n" w1)
      as (r & _ & Hf & _).
    simpl in Hf. rewrite Hf, Hf1. apply lookup_delete_None. by right. }
  clearbody w2.
  rewrite (sys_close_closed _ _ _ Hf2). simpl.
  set (w3 := syslog LOG_WARNING _ _ _).
  destruct (handler_close (sd m) f3 "signal handler: error closing socket: %s\n" w3)
    as (r & Hc & _).
  simpl in Hc.
  eexists _, (calls w2), (close_calls 1 (sd m) r _ ++ [CExit EXIT_SUCCESS]).
  split; [reflexivity|]. simpl.
  repeat split; try done.
  rewrite Hc. unfold w3. simpl. by rewrite <-!(assoc_L (++)).
Qed.

(** ** The fallback generator, lines 190-193 *)

Lemma fallback_round_taken (m : vars) (w : world) (r : Z) :
  0 ≤ r ≤ RAND_MAX →
  is_Some (files w !! fallback_name r) →
  ∃ w' : world,
    run (State L191 m w) [ERand r; ETau] =
      Some (State L191 (set_filename (fallback_name r) (set_random r m)) w') ∧
    files w' = files w ∧ fds w' = fds w.
Proof.
  intros Hr [old Hold]. simpl. unfold step at 1. simpl.
  destruct (Z.leb_spec 0 r) as [_|]; [|lia].
  destruct (Z.leb_spec r RAND_MAX) as [_|]; [|lia]. simpl.
  rewrite snprintf_fallback by done.
  unfold step. simpl. unfold sys_access. simpl. rewrite Hold. simpl.
  eexists. split; [reflexivity|]. done.
Qed.

Lemma fallback_round_free (m : vars) (w : world) (r : Z) :
  0 ≤ r ≤ RAND_MAX →
  files w !! fallback_name r = None →
  ∃ w' : world,
    run (State L191 m w) [ERand r; ETau] =
      Some (State L196 (set_filename (fallback_name r) (set_random r m)) w') ∧
    files w' = files w ∧ fds w' = fds w.
Proof.
  intros Hr Hnew. simpl. unfold step at 1. simpl.
  destruct (Z.leb_spec 0 r) as [_|]; [|lia].
  destruct (Z.leb_spec r RAND_MAX) as [_|]; [|lia]. simpl.
  rewrite snprintf_fallback by done.
  unfold step. simpl. unfold sys_access. simpl. rewrite Hnew. simpl.
  eexists. split; [reflexivity|]. done.
Qed.

Lemma fallback_spins (rs : list Z) :
  ∀ s : state,
    pc s = L191 →
    Forall (λ x, 0 ≤ x ≤ RAND_MAX ∧ is_Some (files (os s) !! fallback_name x)) rs →
    ∃ s' : state,
      run s (draw_events rs) = Some s' ∧
      pc s' = L191 ∧
      files (os s') = files (os s) ∧ fds (os s') = fds (os s).
Proof.
  induction rs as [|r rs IH]; intros [l m w] Hpc Hall;
    cbn [pc os] in *; subst l.
  - eexists. split; [reflexivity|]. done.
  - apply Forall_cons in Hall as [[Hr Hx] Hall].
    destruct (fallback_round_taken m w r Hr Hx) as (w1 & Hrun & Hfs & Hfd).
    change (draw_events (r :: rs)) with ([ERand r; ETau] ++ draw_events rs).
    rewrite (run_app_some _ _ _ _ Hrun).
    destruct (IH (State L191 (set_filename (fallback_name r) (set_random r m)) w1))
      as (s' & Hrun' & Hpc & Hfs' & Hfd'); [done|by simpl; rewrite Hfs|].
    exists s'. simpl in *. rewrite Hfs', Hfd', Hfs, Hfd. done.
Qed.

(** X7: as long as every number drawn gives the name of an existing file, the
    generator draws again: it has no bound on the number of attempts. *)
Theorem fallback_spins_on_taken_names (rs : list Z) :
  ∀ s : state,
    pc s = L191 →
    Forall (λ x, 0 ≤ x ≤ RAND_MAX ∧ is_Some (files (os s) !! fallback_name x)) rs →
    ∃ s' : state,
      run s (draw_events rs) = Some s' ∧
      pc s' = L191 ∧
      files (os s') = files (os s) ∧ fds (os s') = fds (os s).
Proof. apply fallback_spins. Qed.

(** X8: the generator returns the first number drawn whose name is free, after
    drawing every number before it; it changes neither the directory nor the
    descriptor table. *)
Theorem fallback_returns_first_free (s : state) (rs : list Z) (r : Z) :
  pc s = L191 →
  Forall (λ x, 0 ≤ x ≤ RAND_MAX ∧ is_Some (files (os s) !! fallback_name x)) rs →
  0 ≤ r ≤ RAND_MAX →
  files (os s) !! fallback_name r = None →
  ∃ s' : state,
    run s (draw_events (rs ++ [r])) = Some s' ∧
    pc s' = L196 ∧
    filename (mem s') = fallback_name r ∧
    random (mem s') = r ∧
    files (os s') = files (os s) ∧ fds (os s') = fds (os s).
Proof.
  intros Hpc Hall Hr Hnew.
  destruct (fallback_spins rs s Hpc Hall)
    as ([l1 m1 w1] & Hrun & Hpc1 & Hfs & Hfd). simpl in *. subst l1.
  unfold draw_events. rewrite flat_map_app.
  rewrite (run_app_some _ _ _ _ Hrun).
  destruct (fallback_round_free m1 w1 r Hr) as (w2 & Hrun2 & Hfs2 & Hfd2);
    [by rewrite Hfs|].
  simpl flat_map. rewrite Hrun2.
  eexists. split; [reflexivity|]. simpl. rewrite Hfs2, Hfd2. done.
Qed.

(** ** File names *)

(** X9: every job of one process whose name comes from the clock gets the same
    name. *)
Theorem clock_names_coincide (t0 lsock : Z) (fs : gmap string (list byte))
    (evs1 evs2 : list event) (s1 s1' s2 s2' : state) :
  run (entry t0 lsock fs) evs1 = Some s1 → pc s1 = L185 →
  step s1 ETau = Some s1' → pc s1' = L196 →
  run (entry t0 lsock fs) evs2 = Some s2 → pc s2 = L185 →
  step s2 ETau = Some s2' → pc s2' = L196 →
  filename (mem s1') = filename (mem s2').
Proof.
  intros Hr1 Hp1 Hs1 Hp1' Hr2 Hp2 Hs2 Hp2'.
  destruct (filename_from_startup_time _ _ _ _ _ _ Hr1 Hp1 Hs1 Hp1') as (ts1 & Ht1 & ->).
  destruct (filename_from_startup_time _ _ _ _ _ _ Hr2 Hp2 Hs2 Hp2') as (ts2 & Ht2 & ->).
  congruence.
Qed.

Lemma stamp_name_nonempty (ts : string) : stamp_name ts ≠ "".
Proof. unfold stamp_name, PRINTOUT_PREFIX. discriminate. Qed.

Lemma fallback_name_nonempty (r : Z) : fallback_name r ≠ "".
Proof. unfold fallback_name, PRINTOUT_PREFIX. discriminate. Qed.

Lemma timestamp_of_fits (m : vars) (ts : string) :
  timestamp_of localtime m = Some ts → (String.length ts + 1 ≤ 22)%nat.
Proof.
  unfold timestamp_of. destruct (localtime (t m)); [|discriminate].
  apply strftime_fits.
Qed.

Lemma step_keeps_name_shape (s s' : state) (e : event) :
  step s e = Some s' → name_shape localtime s → name_shape localtime s'.
Proof.
  destruct s as [l m w]; unfold name_shape; simpl.
  intros H (Hshape & Hnamed & Hfall).
  step_inv H;
    try match goal with
      | |- context [sig_handler ?g ?a ?b ?c ?m ?w] =>
          destruct (sig_handler_spec g a b c m w) as (w' & r1 & r2 & r3 & Hs & _);
          rewrite Hs; simpl; repeat split; by auto
      end;
    simpl in *;
    change (timestamp_of localtime (set_filename ?x ?y))
      with (timestamp_of localtime y) in *;
    try match goal with
      | H : timestamp_of localtime ?m = _ |- _ => rewrite H
      end;
    try (repeat split; by auto).
  - rewrite snprintf_timestamp by (by eapply timestamp_of_fits).
    split; [|split; [|done]].
    + right; left. eauto.
    + intros _. apply stamp_name_nonempty.
  - match goal with
    | H : _ && _ = true |- _ => apply andb_prop in H as [Hr1 Hr2]
    end.
    apply Z.leb_le in Hr1, Hr2.
    rewrite snprintf_fallback by done.
    split; [|split; [|by auto]].
    + right; right. auto.
    + intros _. apply fallback_name_nonempty.
Qed.

(** X10: whenever the program is about to open a file, [filename] is the
    prefix followed by the time stamp of the start time, or, when the start
    time has no time stamp, the prefix followed by [file-] and the last number
    drawn; in both cases the name fits the 64 bytes of [filename] with room to
    spare. *)
Theorem opened_name_shape (t0 lsock : Z) (fs : gmap string (list byte))
    (evs : list event) (s : state) :
  run (entry t0 lsock fs) evs = Some s →
  pc s = L196 →
  ((∃ ts, timestamp_of localtime (entry_vars t0 lsock) = Some ts ∧
          filename (mem s) = PRINTOUT_PREFIX +:+ ts) ∨
   (timestamp_of localtime (entry_vars t0 lsock) = None ∧
    0 ≤ random (mem s) ≤ RAND_MAX ∧
    filename (mem s) = PRINTOUT_PREFIX +:+ "file-" +:+ pretty (random (mem s)))) ∧
  (String.length (filename (mem s)) ≤ 42)%nat.
Proof.
  intros Hrun Hpc.
  assert (Hinv : name_shape localtime s).
  { apply (run_invariant _ step_keeps_name_shape _ _ _ Hrun).
    unfold name_shape. simpl. repeat split; try discriminate. by left. }
  assert (Ht : timestamp_of localtime (mem s)
               = timestamp_of localtime (entry_vars t0 lsock)).
  { unfold timestamp_of. by rewrite (run_keeps_t _ _ _ Hrun). }
  destruct Hinv as (Hshape & Hnamed & _). rewrite Hpc in Hnamed.
  specialize (Hnamed eq_refl). rewrite Ht in Hshape.
  destruct Hshape as [Hempty|[(ts & Hts & Hname)|(Hnone & Hr & Hname)]]; [done|..].
  - split; [left; eauto|].
    rewrite Hname. unfold stamp_name. rewrite string_length_app.
    rewrite <-Ht in Hts. apply timestamp_of_fits in Hts. simpl. lia.
  - split; [right; auto|].
    rewrite Hname. unfold fallback_name. rewrite !string_length_app.
    pose proof (pretty_rand_length _ Hr). simpl. lia.
Qed.

(** ** The time stamp and its buffers *)

Lemma pretty_N_go_digits (k : nat) :
  ∀ (x : N) (s : string),
    (10 ^ N.of_nat k ≤ x < 10 ^ N.of_nat (S k))%N →
    String.length (pretty_N_go x s) = (S k + String.length s)%nat.
Proof.
  induction k as [|k IH]; intros x s [Hlo Hhi].
  - change (10 ^ N.of_nat 0)%N with 1%N in Hlo.
    change (10 ^ N.of_nat 1)%N with 10%N in Hhi.
    rewrite pretty_N_go_step by lia.
    rewrite N.div_small by lia. rewrite pretty_N_go_0. reflexivity.
  - rewrite pretty_N_go_step by (pose proof (N.pow_nonzero 10 (N.of_nat (S k))); lia).
    rewrite IH; [simpl; lia|].
    rewrite !Nat2N.inj_succ, !N.pow_succ_r' in *. split.
    + apply N.div_le_lower_bound; lia.
    + apply N.Div0.div_lt_upper_bound. lia.
Qed.

Lemma pretty_N_go_at_least (k : nat) :
  ∀ (x : N) (s : string),
    (10 ^ N.of_nat k ≤ x)%N →
    (S k + String.length s ≤ String.length (pretty_N_go x s))%nat.
Proof.
  induction k as [|k IH]; intros x s Hlo.
  - change (10 ^ N.of_nat 0)%N with 1%N in Hlo.
    rewrite pretty_N_go_step by lia.
    assert (Hmono : ∀ y t, (String.length t ≤ String.length (pretty_N_go y t))%nat).
    { intros y. induction (N.lt_wf_0 y) as [y _ IHy]. intros t.
      destruct (decide (y = 0%N)) as [->|Hy]; [by rewrite pretty_N_go_0|].
      rewrite pretty_N_go_step by lia.
      etrans; [|apply IHy; apply N.div_lt; lia]. simpl. lia. }
    etrans; [|apply Hmono]. simpl. lia.
  - rewrite pretty_N_go_step by (pose proof (N.pow_nonzero 10 (N.of_nat (S k))); lia).
    etrans; [|apply IH].
    + simpl. lia.
    + rewrite Nat2N.inj_succ, N.pow_succ_r' in Hlo.
      apply N.div_le_lower_bound; lia.
Qed.

Lemma pretty_Z_pos (z : Z) (Hz : 0 < z) :
  pretty z = pretty_N_go (Z.to_N z) "".
Proof.
  destruct z as [|p|p]; try lia.
  unfold pretty, pretty_Z, pretty, pretty_positive, pretty, pretty_N.
  by case_decide.
Qed.

Lemma pretty_Z_digits (k : nat) (z : Z) :
  10 ^ Z.of_nat k ≤ z < 10 ^ Z.of_nat (S k) →
  String.length (pretty z) = S k.
Proof.
  intros [Hlo Hhi].
  assert (0 < z) by (pose proof (Z.pow_pos_nonneg 10 (Z.of_nat k)); lia).
  rewrite pretty_Z_pos by done.
  rewrite (pretty_N_go_digits k); [simpl; lia|].
  rewrite <-(N2Z.id (10 ^ N.of_nat k)), <-(N2Z.id (10 ^ N.of_nat (S k))).
  rewrite !N2Z.inj_pow, !nat_N_Z. simpl Z.of_N. lia.
Qed.

Lemma pad2_length (n : Z) : 0 ≤ n ≤ 99 → String.length (pad2 n) = 2%nat.
Proof.
  intros Hn. unfold pad2.
  destruct (Z.leb_spec 0 n); [|lia]. destruct (Z.ltb_spec n 10); simpl.
  - destruct (decide (n = 0)) as [->|Hne]; [reflexivity|].
    change (S (String.length (pretty n)) = 2%nat).
    rewrite (pretty_Z_digits 0); [done|]. simpl. lia.
  - apply (pretty_Z_digits 1). simpl. lia.
Qed.

Lemma expand_stamp (x : tm) : expand "%d.%m.%Y-%T" x = stamp_text x.
Proof. unfold stamp_text. simpl. rewrite string_app_nil_r. reflexivity. Qed.

Lemma stamp_text_length (x : tm) :
  two_digit_fields x →
  String.length (stamp_text x)
    = (15 + String.length (pretty (tm_year x + 1900)%Z))%nat.
Proof.
  intros (Hs & Hm & Hh & Hd & Hmo). unfold stamp_text.
  rewrite !string_length_app, !pad2_length by lia. simpl. lia.
Qed.

Lemma year_text_length (y : Z) :
  0 ≤ y →
  (y < 1000000 → (String.length (pretty y) ≤ 6)%nat) ∧
  (1000000 ≤ y → (7 ≤ String.length (pretty y))%nat).
Proof.
  intros Hy. destruct (decide (y = 0)) as [->|Hne]; [split; [simpl|]; lia|].
  rewrite pretty_Z_pos by lia. split; intros Hb.
  - pose proof (pretty_N_go_length 6 (Z.to_N y) "") as H6.
    simpl String.length in H6. rewrite Nat.add_0_r in H6. apply H6.
    change (10 ^ N.of_nat 6)%N with 1000000%N. lia.
  - pose proof (pretty_N_go_at_least 6 (Z.to_N y) "") as H7.
    simpl String.length in H7. rewrite Nat.add_0_r in H7. apply H7.
    change (10 ^ N.of_nat 6)%N with 1000000%N. lia.
Qed.

Lemma strftime_stamp (x : tm) :
  strftime 22 "%d.%m.%Y-%T" x =
    if bool_decide (String.length (stamp_text x) + 1 ≤ 22)%nat
    then Some (stamp_text x) else None.
Proof.
  unfold strftime. rewrite expand_stamp.
  assert (Hne : String.eqb (stamp_text x) "" = false).
  { apply String.eqb_neq. unfold stamp_text, pad2.
    destruct ((0 <=? tm_mday x) && (tm_mday x <? 10)); [discriminate|].
    intros E. apply (f_equal String.length) in E.
    rewrite string_length_app in E. simpl in E.
    destruct (decide (tm_mday x = 0)) as [E0|Hn]; [rewrite E0 in E; simpl in E; lia|].
    destruct (tm_mday x) as [|p|p] eqn:Ed; [done|..].
    - rewrite pretty_Z_pos in E by lia.
      pose proof (pretty_N_go_at_least 0 (Z.to_N (Z.pos p)) "") as Hl.
      simpl in Hl. specialize (Hl ltac:(lia)). simpl in E. lia.
    - simpl in E. lia. }
  rewrite Hne. simpl. by rewrite andb_true_r.
Qed.

(** X11: when [localtime] delivers a date of a four-digit year, the name
    chosen at line 187 is the prefix followed by the 19 characters
    DD.MM.YYYY-HH:MM:SS; neither the 22 bytes of [timestamp] nor the 64 bytes
    of [filename] cut it short. *)
Theorem clock_name_format (s : state) (x : tm) :
  pc s = L185 →
  localtime (t (mem s)) = Some x →
  two_digit_fields x →
  1000 ≤ tm_year x + 1900 ≤ 9999 →
  ∃ s' : state,
    step s ETau = Some s' ∧
    pc s' = L196 ∧
    filename (mem s') = PRINTOUT_PREFIX +:+ stamp_text x ∧
    String.length (stamp_text x) = 19%nat ∧
    String.length (filename (mem s')) = 40%nat.
Proof.
  destruct s as [l m w]; simpl. intros -> Hlt Hfields Hyear.
  assert (Hlen : String.length (stamp_text x) = 19%nat).
  { rewrite stamp_text_length by done.
    rewrite (pretty_Z_digits 3); [done|]. simpl. lia. }
  unfold step. simpl. unfold timestamp_of. rewrite Hlt, strftime_stamp, Hlen. simpl.
  rewrite snprintf_timestamp by (rewrite Hlen; lia).
  eexists. split; [reflexivity|]. simpl.
  repeat split; try done.
  rewrite string_length_app, Hlen. reflexivity.
Qed.

(** X12: the 22 bytes of [timestamp] hold the date of every year up to 999999:
    given a date from [localtime], the fallback generator is entered exactly
    when the year has seven digits or more. *)
Theorem clock_name_limit (s : state) (x : tm) :
  pc s = L185 →
  localtime (t (mem s)) = Some x →
  two_digit_fields x →
  0 ≤ tm_year x + 1900 →
  ∃ s' : state,
    step s ETau = Some s' ∧
    (tm_year x + 1900 < 1000000 → pc s' = L196) ∧
    (1000000 ≤ tm_year x + 1900 → pc s' = L191 ∧ filename (mem s') = filename (mem s)).
Proof.
  destruct s as [l m w]; simpl. intros -> Hlt Hfields Hyear.
  pose proof (stamp_text_length x Hfields) as Hlen.
  destruct (year_text_length _ Hyear) as [Hsmall Hbig].
  unfold step. simpl. unfold timestamp_of. rewrite Hlt, strftime_stamp.
  case_bool_decide as Hfit.
  - eexists. split; [reflexivity|]. simpl. split; [done|].
    intros Hb. specialize (Hbig Hb). lia.
  - eexists. split; [reflexivity|]. simpl. split; [|done].
    intros Hb. specialize (Hsmall Hb). lia.
Qed.

End Properties.

(** ** The properties on concrete runs *)

(** A client connects, sends HELLO in two pieces and closes: the file named
    by the time stamp holds exactly these five bytes, both descriptors are
    closed and both flags are clear. *)
Lemma hello_job :
  ∃ s' : state,
    run utc_localtime boot
      (to_open 4 hello ++ job_events 5 (full_writes [2; 3]) None None) = Some s' ∧
    pc s' = L177 ∧
    files (os s') = {[ stamp0 := hello ]} ∧
    fds (os s') = {[ 3 := HListen ]} ∧
    fd_open (mem s') = 0 ∧ client_connected (mem s') = 0.
Proof. eexists. split; [vm_compute; reflexivity|]. repeat split. Qed.

Lemma transfer_fidelity_witness :
  ∃ (s' : state) (cs : list call) (rest : list byte),
    run utc_localtime (at_open hello) (job_events 5 (full_writes [2; 3]) None None)
      = Some s' ∧
    pc s' = L177 ∧
    calls (os s') = calls (os (at_open hello)) ++ cs ∧
    stored 5 cs = hello ∧
    files (os s') !! filename (mem (at_open hello)) = Some (hello ++ rest).
Proof.
  apply (transfer_fidelity utc_localtime (at_open hello) hello 5 [2; 3] None None).
  - reflexivity.
  - reflexivity.
  - reflexivity.
  - split; [repeat constructor; unfold BUFSIZE; lia|reflexivity].
Defined.

(** C1 as stated fails: the client sends HELLO and closes cleanly, the file
    is opened, the only write stores 3 of its 5 bytes, and the program does
    not write the other two. *)
Lemma short_write_loses_bytes :
  ∃ (s' : state) (cs : list call),
    run utc_localtime boot
      (to_open 4 hello ++ job_events 5 [(5, Ok 3)] None None) = Some s' ∧
    pc s' = L177 ∧
    calls (os s') = cs ∧
    stored 5 cs = list_byte_of_string "HEL" ∧
    stored 5 cs ≠ hello ∧
    files (os s') !! stamp0 = Some (list_byte_of_string "HEL").
Proof.
  eexists _, _. split; [vm_compute; reflexivity|].
  repeat split; try reflexivity. vm_compute. discriminate.
Qed.

(** C2 on the code: a process started at the epoch serves one client, a day
    passes, and the next client's file gets the same name, the time stamp
    of the start, although the clock then shows 02.01.1970. *)
Lemma filename_ignores_current_time :
  ∃ s' : state,
    run utc_localtime boot
      (to_open 4 hello ++ job_events 5 (full_writes [5]) None None
         ++ [ETick 86400] ++ to_open 4 hello) = Some s' ∧
    pc s' = L196 ∧
    clock (os s') = 86400 ∧
    t (mem s') = 0 ∧
    filename (mem s') = "/usb/tcp_fileprinter/01.01.1970-00:00:00" ∧
    (utc_localtime (clock (os s')) ≫= strftime 22 "%d.%m.%Y-%T")
      = Some "02.01.1970-00:00:00".
Proof. eexists. split; [vm_compute; reflexivity|]. repeat split. Qed.

(** C3 on the code: the first client's file cannot be opened, the loop
    accepts a second client, and two client sockets are open; and between
    lines 177 and 183 a socket is open while [client_connected] is 0. *)
Lemma two_client_sockets_open :
  (∃ s' : state,
     run utc_localtime boot
       (to_open 4 hello ++ [EOpen (Err 13); EAccept (Ok 5) hello]) = Some s' ∧
     pc s' = L182 ∧
     open_sockets (os s') = 2%nat ∧
     open_files (os s') = 0%nat ∧
     client (mem s') = 5 ∧
     fds (os s') !! 4 = Some (HSock hello)) ∧
  (∃ s' : state,
     run utc_localtime boot [EAccept (Ok 4) hello] = Some s' ∧
     open_sockets (os s') = 1%nat ∧
     client_connected (mem s') = 0).
Proof.
  split; (eexists; split; [vm_compute; reflexivity|]); repeat split.
Qed.

Lemma sig_handler_shutdown_witness :
  ∃ s' : state,
    step utc_localtime mid_transfer (ESignal SIGTERM None None None) = Some s' ∧
    pc s' = Lexit 0 ∧
    disk (os s') !! stamp0 = Some (list_byte_of_string "HE") ∧
    fds (os s') = ∅.
Proof.
  destruct (sig_handler_shutdown utc_localtime mid_transfer SIGTERM None None None)
    as (s' & r1 & r2 & r3 & Hstep & Hpc & _ & Hdisk & _);
    [reflexivity|reflexivity|].
  exists s'. split; [exact Hstep|]. split; [exact Hpc|].
  split; [rewrite Hdisk; reflexivity|].
  vm_compute in Hstep. injection Hstep as <-. reflexivity.
Defined.

Lemma recoverable_errors_continue_witness :
  (∃ sa' : state,
     step utc_localtime boot (EAccept (Err 24) []) = Some sa' ∧ pc sa' = L177) ∧
  (∃ so' : state,
     step utc_localtime (at_open hello) (EOpen (Err 13)) = Some so' ∧
     pc so' = L177 ∧
     files (os so') = files (os (at_open hello))).
Proof.
  destruct (recoverable_errors_continue utc_localtime boot (at_open hello) 24 13 [] hello)
    as [(sa' & Ha & Hpa & _) (so' & Ho & Hpo & _ & Hf & _)];
    [reflexivity|reflexivity|reflexivity|reflexivity|vm_compute; discriminate|].
  split; [exists sa'|exists so']; repeat split; assumption.
Defined.

Lemma open_failure_leaks_client_witness :
  ∃ s1 s2 : state,
    step utc_localtime (at_open hello) (EOpen (Err 13)) = Some s1 ∧
    step utc_localtime s1 (EAccept (Ok 5) hello) = Some s2 ∧
    client (mem s2) = 5 ∧
    ∀ (evs : list event) (s3 : state),
      run utc_localtime s2 evs = Some s3 →
      fds (os s3) !! 4 = Some (HSock hello).
Proof.
  destruct (open_failure_leaks_client utc_localtime (at_open hello) 13 5 hello hello)
    as (s1 & s2 & H1 & _ & _ & _ & _ & H2 & Hc & _ & _ & Hall);
    [reflexivity|reflexivity|reflexivity|vm_compute; discriminate
    |reflexivity|reflexivity|].
  exists s1, s2. repeat split; assumption.
Defined.


Lemma fallback_probes_before_accepting_witness :
  ∃ s1 s2 : state,
    step utc_localtime late_at_rand (ERand 1804289383) = Some s1 ∧
    filename (mem s1) = "/usb/tcp_fileprinter/file-1804289383" ∧
    step utc_localtime s1 ETau = Some s2 ∧
    pc s2 = L196.
Proof.
  destruct (fallback_probes_before_accepting utc_localtime late_at_stamp
              late_at_rand 1804289383)
    as (_ & s1 & s2 & H1 & _ & Hn & H2 & _ & _ & _ & Hfree & _);
    [reflexivity|reflexivity|reflexivity|unfold RAND_MAX; lia|].
  exists s1, s2. split; [exact H1|]. split; [exact Hn|]. split; [exact H2|].
  apply Hfree. reflexivity.
Defined.

Lemma empty_job_file_witness :
  ∃ s' : state,
    run utc_localtime (at_open []) (job_events 5 [] None None) = Some s' ∧
    pc s' = L177 ∧
    files (os s') !! stamp0 = Some [].
Proof.
  destruct (empty_job_file utc_localtime (at_open []) 5 None None)
    as (s' & Hrun & Hpc & _ & Hnew); [reflexivity|reflexivity|reflexivity|].
  exists s'. split; [exact Hrun|]. split; [exact Hpc|].
  apply Hnew. reflexivity.
Defined.

(** C8 as stated fails: in a directory that already holds a file of the
    selected name, a client connects, sends nothing and closes; its file is
    opened, and afterwards that file still holds its eight old bytes.  The
    same happens to the second client of one process: the first client sends
    HELLO, the second sends nothing, and the file the second job selects
    holds the five bytes of the first. *)
Lemma empty_job_keeps_old_file :
  (∃ s' : state,
     run utc_localtime boot_old (to_open 4 [] ++ job_events 5 [] None None)
       = Some s' ∧
     pc s' = L177 ∧
     filename (mem s') = stamp0 ∧
     files (os s') !! stamp0 = Some old_bytes ∧
     length old_bytes = 8%nat) ∧
  (∃ s' : state,
     run utc_localtime boot
       (to_open 4 hello ++ job_events 5 (full_writes [5]) None None
          ++ to_open 4 [] ++ job_events 5 [] None None) = Some s' ∧
     pc s' = L177 ∧
     filename (mem s') = stamp0 ∧
     files (os s') !! stamp0 = Some hello ∧
     length hello = 5%nat).
Proof.
  split; (eexists; split; [vm_compute; reflexivity|]); repeat split.
Qed.

Lemma open_keeps_old_contents_witness :
  ∃ s' : state,
    run utc_localtime (at_open_old hello) (job_events 5 (full_writes [5]) None None)
      = Some s' ∧
    pc s' = L177 ∧
    files (os s') !! stamp0 = Some (list_byte_of_string "HELLOATA").
Proof.
  destruct (open_keeps_old_contents utc_localtime (at_open_old hello) hello
              old_bytes 5 [5] None None)
    as [_ (s' & Hrun & Hpc & Hf)];
    [reflexivity|reflexivity|reflexivity|reflexivity
    |split; [repeat constructor; unfold BUFSIZE; lia|reflexivity]|].
  exists s'. split; [exact Hrun|]. split; [exact Hpc|]. exact Hf.
Defined.

(** ** Further properties on concrete runs *)

Lemma iteration_restores_handles_witness :
  ∃ s' : state,
    run utc_localtime boot (iteration_events 4 5 hello [2; 3] None None) = Some s' ∧
    pc s' = L177 ∧
    fds (os s') = fds (os boot) ∧
    msg (mem s') = zero_buffer ∧
    files (os s') = {[ stamp0 := hello ]}.
Proof.
  destruct (iteration_restores_handles utc_localtime boot 4 5 hello [2; 3]
              None None "01.01.1970-00:00:00")
    as (s' & Hrun & Hpc & Hfds & _ & _ & Hmsg & _ & _ & _ & Hfiles);
    [reflexivity|reflexivity|reflexivity|reflexivity|lia|reflexivity
    |split; [repeat constructor; unfold BUFSIZE; lia|reflexivity]|].
  exists s'. repeat split; assumption.
Defined.

Lemma second_job_overwrites_first_witness :
  ∃ s' : state,
    run utc_localtime boot
      (iteration_events 4 5 hello [5] None None
         ++ iteration_events 4 5 (list_byte_of_string "HI") [2] None None)
      = Some s' ∧
    pc s' = L177 ∧
    files (os s') !! stamp0 = Some (list_byte_of_string "HILLO").
Proof.
  destruct (second_job_overwrites_first utc_localtime boot 4 5 4 5 hello
              (list_byte_of_string "HI") [5] [2] None None None None
              "01.01.1970-00:00:00")
    as (s' & Hrun & Hpc & Hfiles);
    [reflexivity|reflexivity|reflexivity|reflexivity|lia|reflexivity
    |reflexivity|lia|reflexivity|reflexivity
    |split; [repeat constructor; unfold BUFSIZE; lia|reflexivity]
    |split; [repeat constructor; unfold BUFSIZE; lia|reflexivity]|].
  exists s'. split; [exact Hrun|]. split; [exact Hpc|].
  rewrite Hfiles. vm_compute. reflexivity.
Defined.

Lemma buffer_clean_between_jobs_witness :
  length (msg (mem second_open)) = 512%nat ∧
  (outside_copy (pc second_open) = true →
   msg (mem second_open) = replicate 512 x00).
Proof.
  apply (buffer_clean_between_jobs utc_localtime 0 3 ∅ (to_second_stamp ++ [ETau])).
  vm_compute. reflexivity.
Defined.

Lemma one_output_file_witness :
  5 = fd (mem mid_transfer) ∧ stamp0 = filename (mem mid_transfer) ∧
  holds_file (pc mid_transfer) = true.
Proof.
  apply (one_output_file utc_localtime 0 3 ∅
           (to_open 4 hello ++ [EOpen (Ok 5); ETau; ERead (Ok 2); EWrite (Ok 2)])
           mid_transfer 5 stamp0 2%nat (Z.lor O_CREAT O_WRONLY)).
  - vm_compute. reflexivity.
  - reflexivity.
  - vm_compute. reflexivity.
Defined.

Lemma signal_before_flag_skips_file_witness :
  ∃ (s' : state) (off : nat),
    step utc_localtime at_flag (ESignal SIGTERM None None None) = Some s' ∧
    pc s' = Lexit EXIT_SUCCESS ∧
    fd_open (mem at_flag) = 0 ∧
    fds (os s') !! fd (mem at_flag)
      = Some (HFile (filename (mem at_flag)) off (Z.lor O_CREAT O_WRONLY)).
Proof.
  apply (signal_before_flag_skips_file utc_localtime 0 3 ∅
           (to_open 4 hello ++ [EOpen (Ok 5)]) at_flag SIGTERM None None None).
  - vm_compute. reflexivity.
  - reflexivity.
  - reflexivity.
Defined.

Lemma signal_after_close_closes_again_witness :
  ∃ (s' : state) (before after : list call),
    step utc_localtime file_closed_state (ESignal SIGINT None None None) = Some s' ∧
    pc s' = Lexit EXIT_SUCCESS ∧
    fd_open (mem file_closed_state) = 1 ∧
    fds (os file_closed_state) !! fd (mem file_closed_state) = None ∧
    calls (os s') =
      before
        ++ [CClose (fd (mem file_closed_state)) (-1);
            CSyslog LOG_WARNING "signal handler: error closing fd: %s\n"
              [AErrno EBADF]]
        ++ after.
Proof.
  apply (signal_after_close_closes_again utc_localtime 0 3 ∅ to_file_closed
           file_closed_state SIGINT None None None).
  - vm_compute. reflexivity.
  - left. reflexivity.
  - reflexivity.
Defined.

Lemma fallback_spins_on_taken_names_witness :
  ∃ s' : state,
    run utc_localtime late_taken (draw_events [7; 8; 7; 8]) = Some s' ∧
    pc s' = L191 ∧
    files (os s') = files (os late_taken) ∧ fds (os s') = fds (os late_taken).
Proof.
  apply (fallback_spins_on_taken_names utc_localtime [7; 8; 7; 8] late_taken).
  - reflexivity.
  - repeat constructor; try (unfold RAND_MAX; lia);
      eexists; vm_compute; reflexivity.
Defined.

Lemma fallback_returns_first_free_witness :
  ∃ s' : state,
    run utc_localtime late_taken (draw_events ([7; 8] ++ [9])) = Some s' ∧
    pc s' = L196 ∧
    filename (mem s') = fallback_name 9 ∧
    random (mem s') = 9 ∧
    files (os s') = files (os late_taken) ∧ fds (os s') = fds (os late_taken).
Proof.
  apply (fallback_returns_first_free utc_localtime late_taken [7; 8] 9).
  - reflexivity.
  - repeat constructor; try (unfold RAND_MAX; lia);
      eexists; vm_compute; reflexivity.
  - unfold RAND_MAX. lia.
  - vm_compute. reflexivity.
Defined.

Lemma clock_names_coincide_witness :
  filename (mem (at_open hello)) = filename (mem second_open).
Proof.
  apply (clock_names_coincide utc_localtime 0 3 ∅
           [EAccept (Ok 4) hello; ETau] to_second_stamp
           at_stamp (at_open hello) second_stamp second_open).
  all: vm_compute; reflexivity.
Defined.

Lemma opened_name_shape_witness :
  ((∃ ts : string,
      timestamp_of utc_localtime (entry_vars 0 3) = Some ts ∧
      filename (mem (at_open hello)) = PRINTOUT_PREFIX +:+ ts) ∨
   timestamp_of utc_localtime (entry_vars 0 3) = None ∧
   0 ≤ random (mem (at_open hello)) ≤ RAND_MAX ∧
   filename (mem (at_open hello))
     = PRINTOUT_PREFIX +:+ "file-" +:+ pretty (random (mem (at_open hello)))) ∧
  (String.length (filename (mem (at_open hello))) <= 42)%nat.
Proof.
  apply (opened_name_shape utc_localtime 0 3 ∅ (to_open 4 hello) (at_open hello)).
  - vm_compute. reflexivity.
  - reflexivity.
Defined.

Lemma clock_name_format_witness :
  ∃ s' : state,
    step utc_localtime at_stamp ETau = Some s' ∧
    pc s' = L196 ∧
    filename (mem s') = PRINTOUT_PREFIX +:+ stamp_text epoch_tm ∧
    String.length (stamp_text epoch_tm) = 19%nat ∧
    String.length (filename (mem s')) = 40%nat.
Proof.
  apply (clock_name_format utc_localtime at_stamp epoch_tm).
  - reflexivity.
  - vm_compute. reflexivity.
  - unfold two_digit_fields. simpl. lia.
  - simpl. lia.
Defined.

Lemma clock_name_limit_witness :
  ∃ s' : state,
    step utc_localtime late_at_stamp ETau = Some s' ∧
    pc s' = L191 ∧ filename (mem s') = filename (mem late_at_stamp).
Proof.
  destruct (clock_name_limit utc_localtime late_at_stamp
              (default epoch_tm (utc_localtime far_future)))
    as (s' & Hstep & _ & Hlate).
  - reflexivity.
  - vm_compute. reflexivity.
  - vm_compute. repeat split; discriminate.
  - vm_compute. discriminate.
  - exists s'. split; [exact Hstep|]. apply Hlate. vm_compute. discriminate.
Defined.

(** ** The start of the process *)

Section StartProperties.

Variable ans : answers.

Ltac proc_simpl :=
  cbv [note set_kern set_pmem set_dispositions set_stages set_log_ident
       set_session child_role set_cwd set_mask kern pmem dispositions stages
       log_ident session cwd mask pcalls sa_handler sa_mask sa_flags].

Lemma member_install_order (sg : Z) :
  member sg install_order = member sg signals || member sg signals_ignore.
Proof. unfold member, install_order. by rewrite existsb_app. Qed.

Lemma sigaction_accepted (sg : Z) (act : sigaction_t) (p : proc) :
  handlers_accepted ans → member sg install_order = true →
  sigaction ans sg act p =
    Ret 0 (note (PSigaction sg act 0)
             (set_dispositions (<[sg := sa_handler act]> (dispositions p)) p)).
Proof.
  intros Hok Hin. unfold sigaction. rewrite (Hok sg Hin).
  assert (Hk : (sg =? SIGKILL) || (sg =? SIGSTOP) = false).
  { unfold member, install_order in Hin. simpl in Hin.
    unfold SIGKILL, SIGSTOP.
    repeat match type of Hin with
           | (sg =? ?c) || _ = true =>
               destruct (Z.eqb_spec sg c); [subst; reflexivity|simpl in Hin]
           end.
    discriminate. }
  by rewrite Hk.
Qed.

Lemma install_accepted (p : proc) :
  handlers_accepted ans →
  ∃ l : list pcall,
    install_sighandlers ans p =
      Ret tt (Proc (kern p) (pmem p) (installed (dispositions p)) (stages p)
                (log_ident p) (session p) (cwd p) (mask p)
                (pcalls p ++ l)).
Proof.
  intros Hok. unfold install_sighandlers, signals, signals_ignore, install_each.
  unfold bind_M, ret_M.
  repeat (rewrite sigaction_accepted by (exact Hok || reflexivity);
          change (0 =? -1) with false; cbv beta iota).
  eexists. destruct p. unfold installed. proc_simpl.
  rewrite <- !app_assoc. reflexivity.
Qed.

Lemma installed_lookup (d : gmap Z disposition) (sg : Z) :
  installed d !! sg =
    if member sg signals then Some Run_sig_handler
    else if member sg signals_ignore then Some SIG_IGN
    else d !! sg.
Proof.
  unfold installed, member, signals, signals_ignore. cbn [existsb].
  unfold SIGHUP, SIGINT, SIGTERM, SIGTSTP, SIGTTIN, SIGTTOU.
  repeat match goal with
         | |- context [sg =? ?c] => destruct (Z.eqb_spec sg c); [subst sg|]
         end; cbn [orb];
  repeat (rewrite lookup_insert_ne by lia); rewrite ?lookup_insert_eq; done.
Qed.

(** X13: when every [sigaction] succeeds, [install_sighandlers] returns;
    SIGHUP, SIGINT and SIGTERM run [sig_handler], SIGTSTP, SIGTTIN and SIGTTOU
    are ignored, and every other signal, SIGQUIT among them, keeps its
    disposition. *)
Theorem install_sighandlers_sets_six (p : proc) :
  handlers_accepted ans →
  ∃ p' : proc,
    install_sighandlers ans p = Ret tt p' ∧
    (∀ sg : Z,
       dispositions p' !! sg =
         if member sg signals then Some Run_sig_handler
         else if member sg signals_ignore then Some SIG_IGN
         else dispositions p !! sg) ∧
    dispositions p' !! SIGQUIT = dispositions p !! SIGQUIT ∧
    kern p' = kern p ∧ pmem p' = pmem p.
Proof.
  intros Hok. destruct (install_accepted p Hok) as [l ->].
  eexists. split; [reflexivity|]. cbn [dispositions kern pmem].
  split; [apply installed_lookup|]. split; [|done]. by rewrite installed_lookup.
Qed.

Lemma sigaction_ok (sg : Z) (act : sigaction_t) (p : proc) :
  a_sigaction ans sg = None → sg ≠ SIGKILL → sg ≠ SIGSTOP →
  sigaction ans sg act p =
    Ret 0 (note (PSigaction sg act 0)
             (set_dispositions (<[sg := sa_handler act]> (dispositions p)) p)).
Proof.
  intros H H1 H2. unfold sigaction. rewrite H.
  by destruct (Z.eqb_spec sg SIGKILL), (Z.eqb_spec sg SIGSTOP).
Qed.

Lemma sigaction_fails (sg e : Z) (act : sigaction_t) (p : proc) :
  a_sigaction ans sg = Some e → sg ≠ SIGKILL → sg ≠ SIGSTOP →
  sigaction ans sg act p =
    Ret (-1) (note (PSigaction sg act (-1)) (set_kern (set_errno e (kern p)) p)).
Proof.
  intros H H1 H2. unfold sigaction. rewrite H.
  by destruct (Z.eqb_spec sg SIGKILL), (Z.eqb_spec sg SIGSTOP).
Qed.

(** X14: when a [sigaction] fails, [install_sighandlers] reports it on the
    standard error stream and ends the process with [EXIT_FAILURE]; the
    signals before the failing one are already set, the failing one and the
    ones after it keep their disposition. *)
Theorem install_sighandlers_first_failure (p : proc) (pre post : list Z) (sg e : Z) :
  install_order = pre ++ sg :: post →
  (∀ x : Z, x ∈ pre → a_sigaction ans x = None) →
  a_sigaction ans sg = Some e →
  ∃ p' : proc,
    install_sighandlers ans p = Exit EXIT_FAILURE p' ∧
    pcalls p' =
      pcalls p ++ map (λ x, PSigaction x (act_for x) 0) pre
        ++ [PSigaction sg (act_for sg) (-1);
            PFprintf STDERR_FILENO "error installing signal handler: %s\n" [AErrno e];
            PExit EXIT_FAILURE] ∧
    (∀ x : Z, x ∈ pre → dispositions p' !! x = Some (sa_handler (act_for x))) ∧
    (∀ x : Z, x ∈ sg :: post → dispositions p' !! x = dispositions p !! x).
Proof.
  intros Heq Hpre Hsg.
  unfold install_order, signals, signals_ignore in Heq. cbn [app] in Heq.
  unfold install_sighandlers, signals, signals_ignore, install_each.
  unfold bind_M, ret_M, get_errno, fprintf, exit.
  do 6 (destruct pre as [|? pre];
        [cbn [app] in Heq; simplify_eq;
         repeat (rewrite sigaction_ok by (try (apply Hpre; set_solver); done);
                 change (0 =? -1) with false; cbv beta iota);
         rewrite (sigaction_fails _ e _ _ Hsg) by done;
         change (-1 =? -1) with true; cbv beta iota;
         eexists; split; [reflexivity|]; cbn;
         split; [by rewrite <- ?app_assoc|];
         split; intros x Hx;
         repeat (apply elem_of_cons in Hx as [->|Hx];
                 [unfold SIGHUP, SIGINT, SIGTERM, SIGTSTP, SIGTTIN, SIGTTOU;
                  repeat (rewrite lookup_insert_ne by lia);
                  by rewrite ?lookup_insert_eq|]);
         by apply elem_of_nil in Hx
        |cbn [app] in Heq; injection Heq as <- Heq]).
  destruct pre; discriminate.
Qed.

Ltac forks :=
  repeat match goal with
         | |- context [match ?r with Ok _ => _ | Err _ => _ end] =>
             let v := fresh "v" in let e := fresh "e" in
             let H := fresh "Hans" in destruct r as [v|e] eqn:H
         | |- context [0 <=? ?v] => destruct (Z.leb_spec 0 v)
         | |- context [?v =? -1] =>
             destruct (Z.eqb_spec v (-1)); try (exfalso; lia)
         | |- context [?v =? 0] =>
             destruct (Z.eqb_spec v 0); try (exfalso; lia); try subst v
         | _ => progress cbn [bind_M fail_with exit get_errno fprintf openlog
                               syslog_M ret_M]
         end.

Lemma daemonize_exit (program_name : string) (facility : Z)
    (p p' : proc) (st : Z) :
  daemonize ans program_name facility p = Exit st p' →
  (st = EXIT_SUCCESS ∧ parent_of_fork ans ∨
   st = EXIT_FAILURE ∧ ¬ parent_of_fork ans ∧ ¬ detached ans) ∧
  fds (kern p') = fds (kern p).
Proof.
  unfold daemonize, detached, parent_of_fork, fork, setsid.
  unfold bind_M at 1 2. forks; try (intros Hx; discriminate Hx).
  all: try (intros Hx; exfalso; revert Hx; unfold bind_M, close_M, chdir;
            destruct (a_chdir ans); discriminate).
  all: intros [= <- <-]; split; [|done].
  all: first
    [ left; split; [done|];
      first [ left; eexists; split; [done|lia]
            | right; split; [done|]; split; [eauto|];
              eexists; split; [done|lia] ]
    | right; split; [done|]; split; intros Hc;
      [ destruct Hc as [(? & ? & ?)|(? & (? & ? & ?) & (? & ? & ?))]
      | destruct Hc as (? & (? & ? & ?) & ?) ];
      simplify_eq; lia ].
Qed.

Lemma daemonize_ret_detached (program_name : string) (facility : Z)
    (p p' : proc) :
  daemonize ans program_name facility p = Ret tt p' → detached ans.
Proof.
  unfold daemonize, detached, fork, setsid.
  unfold bind_M at 1 2. forks; try (intros Hx; discriminate Hx).
  intros _. split; [done|]. split; [|done]. eauto.
Qed.

Lemma daemonize_detached (program_name : string) (facility : Z) (p : proc) :
  detached ans →
  ∃ (w : world) (c : string) (l : list pcall) (sid : Z),
    daemonize ans program_name facility p =
      Ret tt (Proc w (pmem p) (dispositions p) (stages p)
                (Some (program_name, LOG_CONS, facility)) (Member sid) c 0
                (pcalls p ++ l)) ∧
    a_setsid ans = Ok sid ∧
    fds w = without_std (fds (kern p)) ∧
    files w = files (kern p) ∧ disk w = disk (kern p) ∧
    clock w = clock (kern p) ∧
    match a_chdir ans with
    | None => c = "/"
    | Some e =>
        c = cwd p ∧
        last (calls w) = Some (CSyslog LOG_WARNING "error on chdir(): %s\n" [AErrno e])
    end.
Proof.
  intros (H1 & (sid & H2 & Hsid) & H3).
  unfold daemonize, fork, setsid. rewrite H1, H2, H3.
  unfold bind_M, close_M, chdir, without_std. cbn.
  destruct (Z.leb_spec 0 sid); [|lia].
  destruct (Z.eqb_spec sid (-1)); [lia|].
  assert (Hdisk : ∀ d f w, disk (sys_close d f w).2 = disk w
                           ∧ clock (sys_close d f w).2 = clock w).
  { intros d f w. unfold sys_close. by destruct (fds w !! d), f. }
  destruct (a_chdir ans) as [e|]; cbn; unfold note; cbn;
    rewrite <- !app_assoc; do 3 eexists; exists sid;
    (split; [reflexivity|]); (split; [reflexivity|]); cbn;
    rewrite !(proj1 (sys_close_inv _ _ _)), !(proj2 (sys_close_inv _ _ _)),
      !(proj1 (Hdisk _ _ _)), !(proj2 (Hdisk _ _ _));
    repeat split; try done.
  by rewrite last_snoc.
Qed.

(** X15: [daemonize] returns exactly in the process that is the child of both
    forks and in which [setsid] succeeded. *)
Theorem daemonize_returns_in_grandchild (program_name : string) (facility : Z)
    (p : proc) :
  (∃ p' : proc, daemonize ans program_name facility p = Ret tt p') ↔ detached ans.
Proof.
  split.
  - intros [p' H]. by eapply daemonize_ret_detached.
  - intros H.
    destruct (daemonize_detached program_name facility p H)
      as (w & c & l & sid & -> & _).
    eauto.
Qed.

(** X16: when [daemonize] ends the process, the status is [EXIT_SUCCESS] in
    the parent of a fork and [EXIT_FAILURE] after a failed [fork] or [setsid];
    either way no descriptor has been closed. *)
Theorem daemonize_exit_status (program_name : string) (facility : Z)
    (p p' : proc) (st : Z) :
  daemonize ans program_name facility p = Exit st p' →
  (st = EXIT_SUCCESS ∧ parent_of_fork ans ∨
   st = EXIT_FAILURE ∧ ¬ parent_of_fork ans ∧ ¬ detached ans) ∧
  fds (kern p') = fds (kern p).
Proof. apply daemonize_exit. Qed.

(** X17: where [daemonize] returns, descriptors 0, 1 and 2 are closed whatever
    the three closes answer, and no other descriptor is; the file mode mask is
    0; the log is opened under the program's name; the process is a member of
    the session [setsid] made and does not lead it, being the child of the
    fork that followed; files, signal dispositions and the program's variables
    are as before. The directory is the root when [chdir] succeeds; when it
    fails the directory is kept and the last thing logged is a warning. *)
Theorem daemonize_effects (program_name : string) (facility : Z) (p p' : proc) :
  daemonize ans program_name facility p = Ret tt p' →
  fds (kern p') = without_std (fds (kern p)) ∧
  files (kern p') = files (kern p) ∧
  mask p' = 0 ∧
  log_ident p' = Some (program_name, LOG_CONS, facility) ∧
  (∃ sid : Z, a_setsid ans = Ok sid ∧ session p' = Member sid) ∧
  dispositions p' = dispositions p ∧
  pmem p' = pmem p ∧
  match a_chdir ans with
  | None => cwd p' = "/"
  | Some e =>
      cwd p' = cwd p ∧
      last (calls (kern p'))
        = Some (CSyslog LOG_WARNING "error on chdir(): %s\n" [AErrno e])
  end.
Proof.
  intros H.
  assert (Hd : detached ans) by (by eapply daemonize_ret_detached).
  destruct (daemonize_detached program_name facility p Hd)
    as (w & c & l & sid & Heq & Hsid & Hfds & Hfiles & _ & _ & Hc).
  rewrite Heq in H. injection H as <-. cbn.
  repeat split; try done. by exists sid.
Qed.

Lemma main_start_tail (gai_strerror : Z → string) (argv : list string)
    (p : proc) :
  main_start ans gai_strerror argv p =
    let progname := basename (hd "" argv) in
    let p0 := set_pmem (set_t (clock (kern p)) (pmem p))
                (note (PTime (clock (kern p))) p) in
    start_tail ans gai_strerror progname
      (if 1 <? Z.of_nat (length argv) then note (notice progname) p0 else p0).
Proof.
  unfold main_start, start_tail, listen_tail. cbv zeta.
  by destruct (1 <? Z.of_nat (length argv)), p.
Qed.

(** In a process whose handlers are set and which is detached, the start
    comes to line 149 with descriptors 0, 1 and 2 closed. *)
Lemma main_start_unfold (gai_strerror : Z → string) (argv : list string)
    (p : proc) :
  handlers_accepted ans → detached ans →
  ∃ (w : world) (c : string) (l : list pcall) (sr : session_role),
    fds w = without_std (fds (kern p)) ∧
    files w = files (kern p) ∧ disk w = disk (kern p) ∧
    clock w = clock (kern p) ∧
    main_start ans gai_strerror argv p =
      listen_tail ans gai_strerror (basename (hd "" argv))
        (Proc w (set_t (clock (kern p)) (pmem p)) (installed (dispositions p))
           (stages p) (Some (basename (hd "" argv), LOG_CONS, LOG_DAEMON)) sr
           c 0 (pcalls p ++ l)).
Proof.
  intros Hok Hdet. rewrite main_start_tail. cbv zeta.
  destruct p as [k m dsp stg li sl cw mk pcs]. unfold start_tail.
  destruct (1 <? Z.of_nat (length argv)); proc_simpl;
    unfold bind_M at 1;
    match goal with
    | |- context [install_sighandlers ans ?p0] =>
        destruct (install_accepted p0 Hok) as [l1 ->]
    end;
    proc_simpl; unfold bind_M at 1;
    match goal with
    | |- context [daemonize ans ?n ?f ?p0] =>
        destruct (daemonize_detached n f p0 Hdet)
          as (w & c & l2 & sid & -> & _ & Hfds & Hfiles & Hdisk & Hclock & _)
    end;
    cbn [kern pmem dispositions stages log_ident session cwd mask pcalls]
      in *;
    exists w, c; eexists; exists (Member sid); rewrite <- ?app_assoc;
    repeat (split; [done|]); reflexivity.
Qed.

(** X18: a start in which every call succeeds returns with [t] holding the
    time at which [main] began, [sd] the descriptor [socket] returned,
    listening with backlog 4 on the address [getaddrinfo] gave for 127.0.0.1
    and port 12345; descriptors 0, 1 and 2 are closed; the last thing logged
    is the start notice. The state in which the loop is entered is well
    formed, and so is every state the loop reaches from it. *)
Theorem main_start_enters_loop (gai_strerror : Z → string)
    (localtime : Z → option tm) (argv : list string) (p : proc)
    (ai : addrinfo) (d : Z) :
  pmem p = start_vars →
  handlers_accepted ans → detached ans →
  a_getaddrinfo ans = (0, ai) →
  a_socket ans = Ok d → 0 ≤ d → without_std (fds (kern p)) !! d = None →
  a_bind ans = None → a_listen ans = None →
  ∃ p' : proc,
    main_start ans gai_strerror argv p = Ret tt p' ∧
    pmem p' = entry_vars (clock (kern p)) d ∧
    fds (kern p') = <[d := HListen]> (without_std (fds (kern p))) ∧
    files (kern p') = files (kern p) ∧
    stages p' !! d = Some (Listening (ai_addr ai) BACKLOG) ∧
    PGetaddrinfo LISTEN_ADDR LISTEN_PORT
      {| ai_flags := Z.lor AI_NUMERICHOST AI_NUMERICSERV; ai_family := AF_INET;
         ai_socktype := SOCK_STREAM; ai_protocol := 0; ai_addr := ("", "") |} 0
      ∈ pcalls p' ∧
    last (calls (kern p'))
      = Some (CSyslog LOG_INFO "successfully started %s\n"
                [AStr (basename (hd "" argv))]) ∧
    ∀ (evs : list event) (s : state),
      run localtime (loop_entry p') evs = Some s → well_formed s.
Proof.
  intros Hmem Hok Hdet Hgai Hsock Hd Hfree Hbind Hlisten.
  destruct (main_start_unfold gai_strerror argv p Hok Hdet)
    as (w & c & l & sr & Hfds & Hfiles & Hdisk & Hclock & ->).
  unfold listen_tail. cbv zeta.
  unfold bind_M at 1. unfold getaddrinfo. rewrite Hgai. cbn [fst snd negb Z.eqb].
  unfold bind_M at 1. unfold socket at 1. rewrite Hsock. cbn [kern note].
  assert (Hun : unused d w = true).
  { unfold unused. rewrite Hfds, Hfree. by destruct (Z.leb_spec 0 d); [|lia]. }
  rewrite Hun. unfold bind_M at 1. cbn [assign].
  destruct (Z.eqb_spec d (-1)); [lia|].
  unfold bind_M at 1. unfold bind at 1. cbn [stages set_pmem note set_stages set_kern].
  rewrite lookup_insert_eq, Hbind. change (0 =? -1) with false. cbv beta iota.
  unfold bind_M at 1. unfold listen at 1. cbn [stages note set_stages].
  rewrite lookup_insert_eq, Hlisten. change (0 =? -1) with false. cbv beta iota.
  unfold syslog_M. eexists. split; [reflexivity|].
  cbn. rewrite Hmem, Hfds, Hfiles.
  split; [reflexivity|]. split; [reflexivity|]. split; [reflexivity|].
  split; [by rewrite lookup_insert_eq|].
  split; [rewrite !elem_of_app; do 3 left; right; apply list_elem_of_singleton;
          reflexivity|].
  split; [by rewrite last_snoc|].
  intros evs s Hrun. eapply (run_keeps_well_formed localtime); [exact Hrun|].
  unfold well_formed, loop_entry. cbn. intros _.
  split; [apply lookup_insert_eq|]. repeat split; discriminate.
Qed.

(** X19: in a detached process whose handlers are set, the first of
    [getaddrinfo], [socket], [bind] and [listen] that fails ends the process
    with [EXIT_FAILURE]; the last thing logged is the error of that call. *)
Theorem main_start_failure (gai_strerror : Z → string) (argv : list string)
    (p : proc) (f : failure) :
  handlers_accepted ans → detached ans → fails ans p f →
  ∃ p' : proc,
    main_start ans gai_strerror argv p = Exit EXIT_FAILURE p' ∧
    last (calls (kern p')) = Some (report gai_strerror f) ∧
    files (kern p') = files (kern p).
Proof.
  intros Hok Hdet Hf.
  destruct (main_start_unfold gai_strerror argv p Hok Hdet)
    as (w & c & l & sr & Hfds & Hfiles & Hdisk & Hclock & ->).
  unfold listen_tail. cbv zeta.
  unfold bind_M at 1. unfold getaddrinfo.
  destruct f as [code|e|e|e]; cbn [fails] in Hf.
  - destruct Hf as [Hc Hne]. cbn [fst snd]. rewrite Hc.
    destruct (Z.eqb_spec code 0); [done|]. cbn.
    eexists. split; [reflexivity|]. cbn. by rewrite last_snoc.
  - destruct Hf as [Hc Hs]. cbn [fst snd]. rewrite Hc. cbn [negb Z.eqb].
    unfold bind_M at 1. unfold socket at 1. rewrite Hs. cbn.
    eexists. split; [reflexivity|]. cbn. by rewrite last_snoc.
  - destruct Hf as (Hc & (d & Hs & Hd & Hfree) & Hb).
    cbn [fst snd]. rewrite Hc. cbn [negb Z.eqb].
    unfold bind_M at 1. unfold socket at 1. rewrite Hs. cbn [kern note].
    assert (Hun : unused d w = true).
    { unfold unused. rewrite Hfds, Hfree. by destruct (Z.leb_spec 0 d); [|lia]. }
    rewrite Hun. unfold bind_M at 1. cbn [assign].
    destruct (Z.eqb_spec d (-1)); [lia|].
    unfold bind_M at 1. unfold bind at 1.
    cbn [stages set_pmem note set_stages set_kern].
    rewrite lookup_insert_eq, Hb. cbn.
    eexists. split; [reflexivity|]. cbn. by rewrite last_snoc.
  - destruct Hf as (Hc & (d & Hs & Hd & Hfree) & Hb & Hl).
    cbn [fst snd]. rewrite Hc. cbn [negb Z.eqb].
    unfold bind_M at 1. unfold socket at 1. rewrite Hs. cbn [kern note].
    assert (Hun : unused d w = true).
    { unfold unused. rewrite Hfds, Hfree. by destruct (Z.leb_spec 0 d); [|lia]. }
    rewrite Hun. unfold bind_M at 1. cbn [assign].
    destruct (Z.eqb_spec d (-1)); [lia|].
    unfold bind_M at 1. unfold bind at 1.
    cbn [stages set_pmem note set_stages set_kern].
    rewrite lookup_insert_eq, Hb. change (0 =? -1) with false. cbv beta iota.
    unfold bind_M at 1. unfold listen at 1. cbn [stages note set_stages].
    rewrite lookup_insert_eq, Hl. cbn.
    eexists. split; [reflexivity|]. cbn. by rewrite last_snoc.
Qed.

Lemma sigaction_returns (sg : Z) (act : sigaction_t) (p : proc) :
  ∃ (r : Z) (p' : proc),
    sigaction ans sg act p = Ret r p' ∧ pmem p' = pmem p ∧
    (r ≠ -1 → kern p' = kern p).
Proof.
  unfold sigaction.
  destruct ((sg =? SIGKILL) || (sg =? SIGSTOP)); [|destruct (a_sigaction ans sg)];
    do 2 eexists; (split; [reflexivity|]); destruct p; done.
Qed.

Lemma install_each_frame (sigs : list Z) (act : sigaction_t) :
  ∀ p : proc,
    match install_each ans sigs act p with
    | Exit st _ => st = EXIT_FAILURE
    | Ret _ p' => kern p' = kern p ∧ pmem p' = pmem p
    | Impossible => False
    end.
Proof.
  induction sigs as [|sg sigs IH]; intros p; cbn [install_each].
  - done.
  - unfold bind_M at 1.
    destruct (sigaction_returns sg act p) as (r & p1 & -> & Hm & Hk).
    destruct (Z.eqb_spec r (-1)); [done|].
    specialize (IH p1). destruct (install_each ans sigs act p1); [done| |done].
    destruct IH as [-> ->]. split; [by apply Hk|done].
Qed.

Lemma install_frame (p : proc) :
  match install_sighandlers ans p with
  | Exit st _ => st = EXIT_FAILURE
  | Ret _ p' => kern p' = kern p ∧ pmem p' = pmem p
  | Impossible => False
  end.
Proof.
  unfold install_sighandlers, bind_M.
  match goal with
  | |- context [install_each ans signals ?a p] =>
      pose proof (install_each_frame signals a p) as H1;
      destruct (install_each ans signals a p) as [|[] p1|]; [done| |done]
  end.
  match goal with
  | |- context [install_each ans signals_ignore ?a p1] =>
      pose proof (install_each_frame signals_ignore a p1) as H2;
      destruct (install_each ans signals_ignore a p1) as [|[] p2|]; [done| |done]
  end.
  destruct H1 as [<- <-]. done.
Qed.

Lemma main_start_exit (gai_strerror : Z → string) (argv : list string)
    (p p' : proc) (st : Z) :
  main_start ans gai_strerror argv p = Exit st p' →
  st = EXIT_SUCCESS ∧ parent_of_fork ans ∨ st = EXIT_FAILURE.
Proof.
  rewrite main_start_tail. cbv zeta.
  match goal with |- start_tail _ _ _ ?q = _ → _ => generalize q end.
  intros p1. unfold start_tail, listen_tail. cbv zeta.
  unfold bind_M at 1. pose proof (install_frame p1) as Hi.
  destruct (install_sighandlers ans p1) as [st1 q1|[] p2|];
    [intros [= <- <-]; by right| |done].
  unfold bind_M at 1.
  destruct (daemonize ans (basename (hd "" argv)) LOG_DAEMON p2)
    as [st2 q2|[] p3|] eqn:Hdm; [| |done].
  { intros [= <- <-]. apply daemonize_exit in Hdm as [[[-> Hp]|[-> _]] _];
      [by left|by right]. }
  unfold bind_M at 1. unfold getaddrinfo.
  destruct (negb ((a_getaddrinfo ans).1 =? 0)).
  { cbn. intros [= <- <-]. by right. }
  unfold bind_M at 1. unfold socket at 1.
  destruct (a_socket ans) as [d|e].
  2: { cbn. intros [= <- <-]. by right. }
  destruct (unused d _); [|done].
  unfold bind_M at 1. cbn [assign].
  destruct (d =? -1). { cbn. intros [= <- <-]. by right. }
  unfold bind_M at 1. unfold bind at 1.
  repeat case_match; cbn [fail_with]; change (-1 =? -1) with true;
    change (0 =? -1) with false; cbv beta iota;
    try (cbn; intros [= <- <-]; by right).
  all: unfold bind_M at 1; unfold listen at 1.
  all: repeat case_match; cbn [fail_with]; change (-1 =? -1) with true;
    change (0 =? -1) with false; cbv beta iota;
    try (cbn; intros [= <- <-]; by right).
  all: done.
Qed.


(** *** Every exit of the start is an [exit] call of its code *)

Ltac never_exits :=
  let p := fresh "p" in let p' := fresh "p'" in let st := fresh "st" in
  let H := fresh "H" in
  intros p p' st H; destruct p; cbn beta in H; try discriminate;
  repeat (case_match; cbn beta in *; try discriminate);
  try (injection H as <- <-; cbn; by rewrite last_snoc).

Lemma exit_recorded_exit {A : Type} (st : Z) : exit_recorded (@exit A st).
Proof. unfold exit. never_exits. Qed.

Lemma exit_recorded_ret {A : Type} (a : A) : exit_recorded (ret_M a).
Proof. unfold ret_M. never_exits. Qed.

Lemma exit_recorded_fail_with {A : Type} (a : A) (e : Z) (c : pcall) :
  exit_recorded (fail_with a e c).
Proof. unfold fail_with. never_exits. Qed.

Lemma exit_recorded_get_errno : exit_recorded get_errno.
Proof. unfold get_errno. never_exits. Qed.

Lemma exit_recorded_fprintf (stream : Z) (fmt : string) (args : list arg) :
  exit_recorded (fprintf stream fmt args).
Proof. unfold fprintf. never_exits. Qed.

Lemma exit_recorded_syslog (pr : priority) (fmt : string) (args : list arg) :
  exit_recorded (syslog_M pr fmt args).
Proof. unfold syslog_M. never_exits. Qed.

Lemma exit_recorded_assign (f : vars → vars) : exit_recorded (assign f).
Proof. unfold assign. never_exits. Qed.

Lemma exit_recorded_sigaction (sg : Z) (act : sigaction_t) :
  exit_recorded (sigaction ans sg act).
Proof. unfold sigaction, fail_with. never_exits. Qed.

Lemma exit_recorded_fork (r : ret) : exit_recorded (fork r).
Proof. unfold fork, fail_with. never_exits. Qed.

Lemma exit_recorded_openlog (ident : string) (option facility : Z) :
  exit_recorded (openlog ident option facility).
Proof. unfold openlog. never_exits. Qed.

Lemma exit_recorded_setsid : exit_recorded (setsid ans).
Proof. unfold setsid, fail_with. never_exits. Qed.

Lemma exit_recorded_close (d : Z) : exit_recorded (close_M ans d).
Proof. unfold close_M. never_exits. Qed.

Lemma exit_recorded_chdir (path : string) : exit_recorded (chdir ans path).
Proof. unfold chdir, fail_with. never_exits. Qed.

Lemma exit_recorded_umask (k : Z) : exit_recorded (umask k).
Proof. unfold umask. never_exits. Qed.

Lemma exit_recorded_getaddrinfo (node service : string) (hints : addrinfo) :
  exit_recorded (getaddrinfo ans node service hints).
Proof. unfold getaddrinfo. never_exits. Qed.

Lemma exit_recorded_socket (family socktype protocol : Z) :
  exit_recorded (socket ans family socktype protocol).
Proof. unfold socket, fail_with. never_exits. Qed.

Lemma exit_recorded_bind_call (d : Z) (addr : string * string) :
  exit_recorded (bind ans d addr).
Proof. unfold bind, fail_with. never_exits. Qed.

Lemma exit_recorded_listen (d backlog : Z) : exit_recorded (listen ans d backlog).
Proof. unfold listen, fail_with. never_exits. Qed.

Lemma exit_recorded_bind_M {A B : Type} (m : M A) (k : A → M B) :
  exit_recorded m → (∀ a : A, exit_recorded (k a)) → exit_recorded (bind_M m k).
Proof.
  intros Hm Hk p p' st. unfold bind_M.
  destruct (m p) as [st1 p1|a p1|] eqn:Hmp; [|by apply Hk|done].
  intros [= <- <-]. by eapply Hm.
Qed.

Lemma exit_recorded_if {A : Type} (b : bool) (m1 m2 : M A) :
  exit_recorded m1 → exit_recorded m2 → exit_recorded (if b then m1 else m2).
Proof. by destruct b. Qed.

Create HintDb exit_db.
#[local] Hint Resolve exit_recorded_exit exit_recorded_ret exit_recorded_fail_with
  exit_recorded_get_errno exit_recorded_fprintf exit_recorded_syslog
  exit_recorded_assign exit_recorded_sigaction exit_recorded_fork
  exit_recorded_openlog exit_recorded_setsid exit_recorded_close
  exit_recorded_chdir exit_recorded_umask exit_recorded_getaddrinfo
  exit_recorded_socket exit_recorded_bind_call exit_recorded_listen : exit_db.

Ltac exit_steps :=
  repeat match goal with
         | |- exit_recorded (bind_M _ _) => apply exit_recorded_bind_M; [|intros ?]
         | |- exit_recorded (if _ then _ else _) => apply exit_recorded_if
         | |- exit_recorded _ => solve [auto with exit_db]
         end.

Lemma exit_recorded_install_each (sigs : list Z) (act : sigaction_t) :
  exit_recorded (install_each ans sigs act).
Proof. induction sigs as [|sg sigs IH]; cbn [install_each]; exit_steps. Qed.

Lemma exit_recorded_start_tail (gai_strerror : Z → string) (progname : string) :
  exit_recorded (start_tail ans gai_strerror progname).
Proof.
  unfold start_tail, listen_tail, install_sighandlers, daemonize. cbv zeta.
  repeat first
    [ apply exit_recorded_install_each
    | match goal with
      | |- exit_recorded (bind_M _ _) => apply exit_recorded_bind_M; [|intros ?]
      | |- exit_recorded (if _ then _ else _) => apply exit_recorded_if
      | |- exit_recorded _ => solve [auto with exit_db]
      end ].
Qed.

(** X20: whenever the code of the start itself (lines 136-173, with
    [install_sighandlers] and [daemonize]) ends the process, it does so by
    an [exit] call whose status is [EXIT_SUCCESS] only in the parent of a
    fork and [EXIT_FAILURE] otherwise.  The exit of [sig_handler], which a
    signal can bring about from line 146 on, is no exit of this code and is
    not spoken of here. *)
Theorem main_start_exit_status (gai_strerror : Z → string)
    (argv : list string) (p p' : proc) (st : Z) :
  main_start ans gai_strerror argv p = Exit st p' →
  last (pcalls p') = Some (PExit st) ∧
  (st = EXIT_SUCCESS ∧ parent_of_fork ans ∨ st = EXIT_FAILURE).
Proof.
  intros H. split; [|by eapply main_start_exit].
  rewrite main_start_tail in H. cbv zeta in H.
  by eapply exit_recorded_start_tail.
Qed.

(** X21: between [install_sighandlers] and the assignment of line 158 [sd] is
    still 0 and both flags are 0.  Whatever the descriptor table holds when
    a signal of [signals] arrives there, before or after [daemonize], the
    handler makes one [close] call and passes it descriptor 0.  When
    descriptor 0 is open before [daemonize] (the standard input), that is
    the descriptor closed in place of the server socket.  What [close]
    returns after [daemonize] is not stated. *)
Theorem early_signal_closes_descriptor_zero (program_name : string)
    (facility signum : Z) (f1 f2 f3 : option Z) (p p1 p2 : proc) :
  sd (pmem p) = 0 → fd_open (pmem p) = 0 → client_connected (pmem p) = 0 →
  install_sighandlers ans p = Ret tt p1 →
  daemonize ans program_name facility p1 = Ret tt p2 →
  (∀ (q : proc) (w : world), q = p1 ∨ q = p2 →
     ∃ (w' : world) (cs : list call),
       sig_handler signum f1 f2 f3 (pmem q) w
         = State (Lexit EXIT_SUCCESS) (pmem p) w' ∧
       calls w' = calls w ++ cs ∧
       closed_by cs = [0]) ∧
  (∀ h : handle, fds (kern p) !! STDIN_FILENO = Some h →
     ∃ w1 : world,
       sig_handler signum f1 f2 f3 (pmem p1) (kern p1)
         = State (Lexit EXIT_SUCCESS) (pmem p) w1 ∧
       fds w1 = delete STDIN_FILENO (fds (kern p)) ∧
       CClose STDIN_FILENO (close_value f3) ∈ calls w1).
Proof.
  intros Hsd Hfo Hcc Hi Hdm.
  pose proof (install_frame p) as Hf. rewrite Hi in Hf. destruct Hf as [Hk1 Hm1].
  assert (Hdet : detached ans) by (by eapply daemonize_ret_detached).
  destruct (daemonize_detached program_name facility p1 Hdet)
    as (w0 & c & l & sid & Heq & _).
  rewrite Heq in Hdm. injection Hdm as <-.
  split.
  - intros q w Hq.
    assert (Hm : pmem q = pmem p) by (destruct Hq as [->| ->]; done).
    rewrite Hm. unfold sig_handler. rewrite Hsd, Hfo, Hcc.
    change (0 =? 0) with true. cbv beta iota zeta.
    unfold sys_close.
    destruct (fds _ !! 0) as [h|]; [destruct f3 as [e|]|];
      cbn; eexists _, _; (split; [reflexivity|]); cbn;
      rewrite <- !app_assoc; (split; [reflexivity|]); reflexivity.
  - intros h Hh. rewrite Hm1, Hk1.
    unfold sig_handler. rewrite Hsd, Hfo, Hcc.
    change (0 =? 0) with true. cbv beta iota zeta.
    rewrite (sys_close_open 0 f3 _ h) by exact Hh.
    destruct f3 as [e|]; cbn; eexists; (split; [reflexivity|]); cbn;
      (split; [reflexivity|]); rewrite !elem_of_app;
      [left; left; right|left; right]; apply list_elem_of_singleton; reflexivity.
Qed.

(** *** The record of calls is written, never read *)

Ltac blind_prim :=
  let p := fresh "p" in let q := fresh "q" in let H := fresh "H" in
  intros p q H; destruct p, q; unfold same_but_calls in H; cbn in H;
  destruct H as (? & ? & ? & ? & ? & ? & ? & ?); subst;
  cbn [kern stages session] in *;
  repeat (case_match; cbn [kern stages session] in * ); simplify_eq;
  cbn; unfold same_but_calls; cbn; try done;
  (split; [done|]); (split; [done|]);
  first [ by eexists | by exists []; rewrite !app_nil_r ].

Lemma blind_ret {A : Type} (a : A) : blind (ret_M a).
Proof. unfold ret_M. blind_prim. Qed.

Lemma blind_exit {A : Type} (st : Z) : blind (@exit A st).
Proof. unfold exit. blind_prim. Qed.

Lemma blind_fail_with {A : Type} (a : A) (e : Z) (c : pcall) :
  blind (fail_with a e c).
Proof. unfold fail_with. blind_prim. Qed.

Lemma blind_get_errno : blind get_errno.
Proof. unfold get_errno. blind_prim. Qed.

Lemma blind_fprintf (stream : Z) (fmt : string) (args : list arg) :
  blind (fprintf stream fmt args).
Proof. unfold fprintf. blind_prim. Qed.

Lemma blind_syslog (pr : priority) (fmt : string) (args : list arg) :
  blind (syslog_M pr fmt args).
Proof. unfold syslog_M. blind_prim. Qed.

Lemma blind_assign (f : vars → vars) : blind (assign f).
Proof. unfold assign. blind_prim. Qed.

Lemma blind_sigaction (sg : Z) (act : sigaction_t) : blind (sigaction ans sg act).
Proof. unfold sigaction, fail_with. blind_prim. Qed.

Lemma blind_fork (r : ret) : blind (fork r).
Proof. unfold fork, fail_with. blind_prim. Qed.

Lemma blind_openlog (ident : string) (option facility : Z) :
  blind (openlog ident option facility).
Proof. unfold openlog. blind_prim. Qed.

Lemma blind_setsid : blind (setsid ans).
Proof. unfold setsid, fail_with. blind_prim. Qed.

Lemma blind_close (d : Z) : blind (close_M ans d).
Proof. unfold close_M. blind_prim. Qed.

Lemma blind_chdir (path : string) : blind (chdir ans path).
Proof. unfold chdir, fail_with. blind_prim. Qed.

Lemma blind_umask (k : Z) : blind (umask k).
Proof. unfold umask. blind_prim. Qed.

Lemma blind_getaddrinfo (node service : string) (hints : addrinfo) :
  blind (getaddrinfo ans node service hints).
Proof. unfold getaddrinfo. blind_prim. Qed.

Lemma blind_socket (family socktype protocol : Z) :
  blind (socket ans family socktype protocol).
Proof. unfold socket, fail_with. blind_prim. Qed.

Lemma blind_bind_call (d : Z) (addr : string * string) : blind (bind ans d addr).
Proof. unfold bind, fail_with. blind_prim. Qed.

Lemma blind_listen (d backlog : Z) : blind (listen ans d backlog).
Proof. unfold listen, fail_with. blind_prim. Qed.

Lemma blind_bind_M {A B : Type} (m : M A) (k : A → M B) :
  blind m → (∀ a : A, blind (k a)) → blind (bind_M m k).
Proof.
  intros Hm Hk p q Hpq. specialize (Hm p q Hpq). unfold bind_M.
  destruct (m p) as [st p1|a p1|], (m q) as [st' q1|a' q1|]; try done.
  destruct Hm as (<- & Hs & l & Hl1 & Hl2).
  specialize (Hk a p1 q1 Hs).
  destruct (k a p1) as [st p2|b p2|], (k a q1) as [st' q2|b' q2|]; try done;
    destruct Hk as (<- & Hs2 & l' & Hl1' & Hl2');
    (split; [done|]); (split; [done|]); exists (l ++ l');
    by rewrite Hl1', Hl2', Hl1, Hl2, !app_assoc.
Qed.

Lemma blind_if {A : Type} (b : bool) (m1 m2 : M A) :
  blind m1 → blind m2 → blind (if b then m1 else m2).
Proof. by destruct b. Qed.

Create HintDb blind_db.
#[local] Hint Resolve blind_ret blind_exit blind_fail_with blind_get_errno
  blind_fprintf blind_syslog blind_assign blind_sigaction blind_fork
  blind_openlog blind_setsid blind_close blind_chdir blind_umask
  blind_getaddrinfo blind_socket blind_bind_call blind_listen : blind_db.

Ltac blind_steps :=
  repeat match goal with
         | |- blind (bind_M _ _) => apply blind_bind_M; [|intros ?]
         | |- blind (if _ then _ else _) => apply blind_if
         | |- blind _ => solve [unfold printf; auto with blind_db]
         end.

Lemma blind_install_each (sigs : list Z) (act : sigaction_t) :
  blind (install_each ans sigs act).
Proof.
  induction sigs as [|sg sigs IH]; cbn [install_each]; blind_steps.
Qed.

Lemma blind_install_sighandlers : blind (install_sighandlers ans).
Proof.
  unfold install_sighandlers. apply blind_bind_M; [|intros ?];
    apply blind_install_each.
Qed.

Lemma blind_daemonize (program_name : string) (facility : Z) :
  blind (daemonize ans program_name facility).
Proof. unfold daemonize. blind_steps. Qed.

Lemma blind_start_tail (gai_strerror : Z → string) (progname : string) :
  blind (start_tail ans gai_strerror progname).
Proof.
  unfold start_tail, listen_tail.
  apply blind_bind_M; [apply blind_install_sighandlers|intros ?].
  apply blind_bind_M; [apply blind_daemonize|intros ?].
  cbv zeta. blind_steps.
Qed.

(** X22: command-line arguments after [argv[0]] are not read: the start does
    the same whatever they are.  With arguments it does what it does without
    them, to the same outcome, and the calls it makes are the same calls in
    the same order with one more, the [printf] of the notice, which follows
    the [time] call of line 138. *)
Theorem arguments_only_print_notice (gai_strerror : Z → string) (a : string)
    (args : list string) (p : proc) :
  args ≠ [] →
  (∀ args' : list string, args' ≠ [] →
     main_start ans gai_strerror (a :: args') p
       = main_start ans gai_strerror (a :: args) p) ∧
  one_call_more (pcalls p ++ [PTime (clock (kern p))]) (notice (basename a))
    (main_start ans gai_strerror (a :: args) p)
    (main_start ans gai_strerror [a] p).
Proof.
  intros Hargs.
  assert (Hlen : ∀ l : list string, l ≠ [] →
            (1 <? Z.of_nat (length (a :: l))) = true).
  { intros [|x l] Hl; [done|]. cbn [length]. apply Z.ltb_lt. lia. }
  split.
  - intros args' Hargs'. rewrite !main_start_tail. cbn [hd]. cbv zeta.
    by rewrite !Hlen.
  - rewrite !main_start_tail. cbn [hd]. cbv zeta. rewrite Hlen by done.
    change (1 <? Z.of_nat (length [a])) with false. cbv iota.
    set (p0 := set_pmem _ _).
    pose proof (blind_start_tail gai_strerror (basename a)
                  (note (notice (basename a)) p0) p0) as Hb.
    unfold adds_same, one_call_more in *.
    destruct (start_tail _ _ _ (note _ p0)) as [st q|u q|],
             (start_tail _ _ _ p0) as [st' q'|u' q'|];
      try (by apply Hb; destruct p);
      (destruct Hb as (-> & Hs & l & Hl1 & Hl2); [by destruct p|]);
      (split; [done|]); (split; [done|]); exists l;
      rewrite Hl1, Hl2; destruct p; cbn; by rewrite <- !app_assoc.
Qed.

End StartProperties.

(** ** The start on concrete runs *)

Lemma install_sighandlers_sets_six_witness :
  ∃ p' : proc,
    install_sighandlers all_well (fresh_proc 0 ∅) = Ret tt p' ∧
    dispositions p' !! SIGTERM = Some Run_sig_handler ∧
    dispositions p' !! SIGTSTP = Some SIG_IGN ∧
    dispositions p' !! SIGQUIT = None.
Proof.
  destruct (install_sighandlers_sets_six all_well (fresh_proc 0 ∅))
    as (p' & Hrun & Hall & Hquit & _).
  - intros sg _. reflexivity.
  - exists p'. split; [exact Hrun|].
    rewrite (Hall SIGTERM), (Hall SIGTSTP), Hquit. repeat split.
Defined.

Lemma install_sighandlers_first_failure_witness :
  ∃ p' : proc,
    install_sighandlers term_refused (fresh_proc 0 ∅) = Exit EXIT_FAILURE p' ∧
    last (pcalls p') = Some (PExit EXIT_FAILURE) ∧
    dispositions p' !! SIGINT = Some Run_sig_handler ∧
    dispositions p' !! SIGTERM = None ∧
    dispositions p' !! SIGTSTP = None.
Proof.
  destruct (install_sighandlers_first_failure term_refused (fresh_proc 0 ∅)
              [SIGHUP; SIGINT] signals_ignore SIGTERM EINVAL)
    as (p' & Hrun & Hcalls & Hpre & Hpost).
  - reflexivity.
  - intros x Hx.
    repeat (apply elem_of_cons in Hx as [->|Hx]; [reflexivity|]).
    by apply elem_of_nil in Hx.
  - reflexivity.
  - exists p'. split; [exact Hrun|]. rewrite Hcalls.
    split; [reflexivity|].
    rewrite (Hpre SIGINT), (Hpost SIGTERM), (Hpost SIGTSTP);
      [repeat split| | |]; unfold signals_ignore;
      repeat first [apply list_elem_of_here | apply list_elem_of_further].
Defined.

Lemma daemonize_exit_status_witness :
  (EXIT_SUCCESS = EXIT_SUCCESS ∧ parent_of_fork in_parent ∨
   EXIT_SUCCESS = EXIT_FAILURE ∧ ¬ parent_of_fork in_parent ∧ ¬ detached in_parent) ∧
  fds (kern (proc_of (daemonize in_parent "tcp_print2file" LOG_DAEMON
                        (fresh_proc 0 ∅))))
    = fds (kern (fresh_proc 0 ∅)).
Proof.
  apply (daemonize_exit_status in_parent "tcp_print2file" LOG_DAEMON).
  reflexivity.
Defined.

Lemma daemonize_effects_witness :
  ∃ p' : proc,
    daemonize all_well "tcp_print2file" LOG_DAEMON (fresh_proc 0 ∅) = Ret tt p' ∧
    fds (kern p') = ∅ ∧ mask p' = 0 ∧ cwd p' = "/" ∧ session p' = Member 4711.
Proof.
  exists (proc_of (daemonize all_well "tcp_print2file" LOG_DAEMON (fresh_proc 0 ∅))).
  destruct (daemonize_effects all_well "tcp_print2file" LOG_DAEMON (fresh_proc 0 ∅)
              (proc_of (daemonize all_well "tcp_print2file" LOG_DAEMON
                          (fresh_proc 0 ∅))))
    as (Hfds & _ & Hmask & _ & (sid & Hsid & Hsl) & _ & _ & Hcwd).
  - reflexivity.
  - split; [reflexivity|]. split; [rewrite Hfds; reflexivity|].
    split; [exact Hmask|]. split; [exact Hcwd|].
    rewrite Hsl. injection Hsid as <-. reflexivity.
Defined.

Lemma main_start_enters_loop_witness :
  ∃ p' : proc,
    main_start all_well no_text [argv0] (fresh_proc 0 ∅) = Ret tt p' ∧
    pmem p' = entry_vars 0 0 ∧
    fds (kern p') = {[ 0 := HListen ]} ∧
    stages p' !! 0 = Some (Listening (LISTEN_ADDR, LISTEN_PORT) BACKLOG) ∧
    last (calls (kern p'))
      = Some (CSyslog LOG_INFO "successfully started %s\n" [AStr "tcp_print2file"]) ∧
    ∀ (evs : list event) (s : state),
      run utc_localtime (loop_entry p') evs = Some s → well_formed s.
Proof.
  destruct (main_start_enters_loop all_well no_text utc_localtime [argv0]
              (fresh_proc 0 ∅) loopback 0)
    as (p' & Hrun & Hmem & Hfds & _ & Hst & _ & Hlast & Hwf).
  - reflexivity.
  - intros sg _. reflexivity.
  - split; [reflexivity|]. split; [|reflexivity].
    exists 4711. split; [reflexivity|lia].
  - reflexivity.
  - reflexivity.
  - lia.
  - vm_compute. reflexivity.
  - reflexivity.
  - reflexivity.
  - exists p'. split; [exact Hrun|]. split; [exact Hmem|].
    split; [rewrite Hfds; vm_compute; reflexivity|].
    split; [exact Hst|]. split; [exact Hlast|exact Hwf].
Defined.

Lemma main_start_failure_witness :
  ∃ p' : proc,
    main_start bind_refused no_text [argv0] (fresh_proc 0 ∅)
      = Exit EXIT_FAILURE p' ∧
    last (calls (kern p'))
      = Some (CSyslog LOG_ERR "error on bind(): %s\n" [AErrno EADDRINUSE]).
Proof.
  destruct (main_start_failure bind_refused no_text [argv0] (fresh_proc 0 ∅)
              (Fbind EADDRINUSE))
    as (p' & Hrun & Hlast & _).
  - intros sg _. reflexivity.
  - split; [reflexivity|]. split; [|reflexivity].
    exists 4711. split; [reflexivity|lia].
  - split; [reflexivity|]. split; [|reflexivity].
    exists 0. split; [reflexivity|]. split; [lia|]. vm_compute. reflexivity.
  - exists p'. split; [exact Hrun|exact Hlast].
Defined.

Lemma main_start_exit_status_witness :
  last (pcalls (proc_of (main_start in_parent no_text [argv0] (fresh_proc 0 ∅))))
    = Some (PExit EXIT_SUCCESS) ∧
  (EXIT_SUCCESS = EXIT_SUCCESS ∧ parent_of_fork in_parent ∨
   EXIT_SUCCESS = EXIT_FAILURE).
Proof.
  apply (main_start_exit_status in_parent no_text [argv0] (fresh_proc 0 ∅)).
  vm_compute. reflexivity.
Defined.

Lemma early_signal_closes_descriptor_zero_witness :
  (∃ (w' : world) (cs : list call),
     sig_handler SIGTERM None None None start_vars
       (kern (proc_of (daemonize all_well "tcp_print2file" LOG_DAEMON
                         (proc_of (install_sighandlers all_well (fresh_proc 0 ∅))))))
       = State (Lexit EXIT_SUCCESS) start_vars w' ∧
     closed_by cs = [0]) ∧
  (∃ w1 : world,
     sig_handler SIGTERM None None None start_vars (kern (fresh_proc 0 ∅))
       = State (Lexit EXIT_SUCCESS) start_vars w1 ∧
     fds w1 = {[ 1 := terminal; 2 := terminal ]} ∧
     CClose 0 0 ∈ calls w1).
Proof.
  destruct (early_signal_closes_descriptor_zero all_well "tcp_print2file"
              LOG_DAEMON SIGTERM None None None (fresh_proc 0 ∅)
              (proc_of (install_sighandlers all_well (fresh_proc 0 ∅)))
              (proc_of (daemonize all_well "tcp_print2file" LOG_DAEMON
                          (proc_of (install_sighandlers all_well (fresh_proc 0 ∅))))))
    as [Hany Hopen];
    [reflexivity|reflexivity|reflexivity|reflexivity|reflexivity|].
  split.
  - destruct (Hany _ (kern (proc_of (daemonize all_well "tcp_print2file" LOG_DAEMON
                         (proc_of (install_sighandlers all_well (fresh_proc 0 ∅))))))
                (or_intror eq_refl))
      as (w' & cs & H1 & _ & Hcs).
    exists w', cs. split; [exact H1|exact Hcs].
  - destruct (Hopen terminal) as (w1 & H1 & Hf1 & Hc1); [reflexivity|].
    exists w1. split; [exact H1|]. split; [|exact Hc1].
    rewrite Hf1. vm_compute. reflexivity.
Defined.

Lemma arguments_only_print_notice_witness :
  (∀ args' : list string, args' ≠ [] →
     main_start all_well no_text (argv0 :: args') (fresh_proc 0 ∅)
       = main_start all_well no_text [argv0; "-v"] (fresh_proc 0 ∅)) ∧
  one_call_more ([] ++ [PTime 0]) (notice "tcp_print2file")
    (main_start all_well no_text [argv0; "-v"] (fresh_proc 0 ∅))
    (main_start all_well no_text [argv0] (fresh_proc 0 ∅)).
Proof.
  apply (arguments_only_print_notice all_well no_text argv0 ["-v"] (fresh_proc 0 ∅)).
  discriminate.
Defined.
